(** * Filter storage: a shallow embedding of [filters/filter_storage.go]

    The Go code keeps a registry of filter descriptors, downloads and
    validates filter lists into a staging file, and swaps staged files over
    the live cache files.  The embedding below follows the source function
    by function.  Go strings and byte slices are lists of bytes, unsigned
    64-bit counters are integers reduced modulo 2^64, the file system is a
    finite map from paths to files, and every call the code makes to the
    operating system, to the HTTP client or to an observer is appended to a
    trace. *)

From Stdlib Require Import ZArith Lia Bool.
From Stdlib Require Import Strings.Byte DecimalString.
From stdpp Require Import gmap strings list fin_maps.
From Equations Require Import Equations.

Local Open Scope Z_scope.

(** ** Bytes and the text primitives of the Go standard library *)

Abbreviation bytes := (list byte) (only parsing).

Definition code (c : byte) : Z := Z.of_N (Byte.to_N c).

Definition blen (s : bytes) : Z := Z.of_nat (length s).

(** [strings.IndexByte]: position of the first [c] in [s], or -1. *)
Fixpoint IndexByte (s : bytes) (c : byte) : Z :=
  match s with
  | [] => -1
  | b :: r =>
      if Byte.eqb b c then 0
      else let i := IndexByte r c in if i <? 0 then -1 else i + 1
  end.

(** The six ASCII white space characters of Go's [unicode.IsSpace]. *)
Definition asciiSpace (c : byte) : bool :=
  match c with
  | x09 | x0a | x0b | x0c | x0d | x20 => true
  | _ => false
  end.

(** The two-byte UTF-8 encodings of white space: U+0085 and U+00A0. *)
Definition space2 (a b : byte) : bool :=
  Byte.eqb a xc2 && (Byte.eqb b x85 || Byte.eqb b xa0).

(** The three-byte UTF-8 encodings of white space: U+1680, U+2000 to
    U+200A, U+2028, U+2029, U+202F, U+205F and U+3000. *)
Definition space3 (a b c : byte) : bool :=
  (Byte.eqb a xe1 && Byte.eqb b x9a && Byte.eqb c x80)
  || (Byte.eqb a xe2 && Byte.eqb b x80
      && ((128 <=? code c) && (code c <=? 138)
          || Byte.eqb c xa8 || Byte.eqb c xa9 || Byte.eqb c xaf))
  || (Byte.eqb a xe2 && Byte.eqb b x81 && Byte.eqb c x9f)
  || (Byte.eqb a xe3 && Byte.eqb b x80 && Byte.eqb c x80).

(** Drop leading white space runes.  With [rev = false] the list is read
    forwards ([strings.TrimLeftFunc] with [unicode.IsSpace]); with
    [rev = true] it is a reversed string, read from its last byte
    ([strings.TrimRightFunc]), so multi-byte encodings appear reversed. *)
Fixpoint dropSpace (rev : bool) (s : bytes) : bytes :=
  match s with
  | [] => []
  | a :: r =>
      if asciiSpace a then dropSpace rev r
      else
        match r with
        | [] => s
        | b :: r2 =>
            if (if rev then space2 b a else space2 a b) then dropSpace rev r2
            else
              match r2 with
              | [] => s
              | c :: r3 =>
                  if (if rev then space3 c b a else space3 a b c)
                  then dropSpace rev r3
                  else s
              end
        end
  end.

(** [strings.TrimSpace]: leading, then trailing white space removed. *)
Definition TrimSpace (s : bytes) : bytes :=
  reverse (dropSpace true (reverse (dropSpace false s))).

(** [strings.ToLower], restricted to what [isHTML] can observe: the ASCII
    letters.  No other rune lowers to a letter of the two needles. *)
Definition lowerByte (c : byte) : byte :=
  if (65 <=? code c) && (code c <=? 90)
  then default c (Byte.of_N (Byte.to_N c + 32))
  else c.

Definition ToLower (s : bytes) : bytes := map lowerByte s.

Fixpoint HasPrefix (s p : bytes) : bool :=
  match p, s with
  | [], _ => true
  | _ :: _, [] => false
  | a :: p', b :: s' => Byte.eqb a b && HasPrefix s' p'
  end.

(** [strings.Contains]. *)
Fixpoint Contains (s sub : bytes) : bool :=
  HasPrefix s sub
  || match s with
     | [] => false
     | _ :: r => Contains r sub
     end.

Definition lit (s : string) : bytes := String.list_byte_of_string s.

(** ** Validation helpers of the source *)

(** [isPrintableText]: every byte is at least a space and not DEL, or is
    LF, CR or TAB. *)
Fixpoint isPrintableText (data : bytes) : bool :=
  match data with
  | [] => true
  | c :: r =>
      if ((32 <=? code c) && negb (code c =? 127))
         || Byte.eqb c x0a || Byte.eqb c x0d || Byte.eqb c x09
      then isPrintableText r
      else false
  end.

(** Modelled from the spec: [util.MinInt] is declared in another package
    of the repository; the prefix buffer is "capped", so it is the
    minimum of its two arguments. *)
Definition MinInt (a b : Z) : Z := Z.min a b.

(** [gatherUntil]: [dst] is the filled part [dst[:dstLen]] of a buffer of
    [until] bytes; returns the buffer after the copy and the number of
    bytes copied. *)
Definition gatherUntil (dst : bytes) (src : bytes) (until : Z) : bytes * Z :=
  let num := MinInt (blen src) (until - blen dst) in
  let copied := take (Z.to_nat num) src in
  (dst ++ copied, blen copied).

Definition isHTML (buf : bytes) : bool :=
  let s := ToLower buf in
  Contains s (lit "<html") || Contains s (lit "<!doctype").

(** [splitNext]: the position of [by] in the data, the trimmed text before
    it, and the data that remains after it. *)
Definition splitNext (data : bytes) (by_ : byte) : Z * bytes * bytes :=
  let i := IndexByte data by_ in
  if i <? 0 then (i, TrimSpace data, [])
  else (i, TrimSpace (take (Z.to_nat i) data), drop (Z.to_nat (i + 1)) data).

(** The test shared by [parseFilter] and [writeFile]: an empty line or a
    line starting with [#] or [!] is not a rule. *)
Definition notRule (line : bytes) : bool :=
  match line with
  | [] => true
  | c :: _ => Byte.eqb c x23 || Byte.eqb c x21
  end.

(** ** Data model *)

(** Wall-clock time, in nanoseconds since the Unix epoch. *)
Abbreviation Time := Z (only parsing).

Definition Second : Z := 1000000000.
Definition Hour : Z := 3600 * Second.

(** [time.Time{}], the zero time: 1 January of year 1. *)
Definition zeroTime : Time := -62135596800 * Second.

(** [Time.Unix]: whole seconds since the epoch. *)
Definition Unix (t : Time) : Z := t / Second.

Definition wrap64 (z : Z) : Z := z mod 2 ^ 64.

(** Conversion to [time.Duration], a signed 64-bit number of nanoseconds. *)
Definition int64 (z : Z) : Z := (z + 2 ^ 63) mod 2 ^ 64 - 2 ^ 63.

(** Modelled from the spec: [type Filter] is declared in another file of
    the package.  The fields are the ones this file reads and writes, with
    the meaning the data model of the spec gives them. *)
Record Filter := mkFilter {
  ID : Z;
  Enabled : bool;
  Name : string;
  URL : string;
  RuleCount : Z;
  LastUpdated : Time;
  LastModified : string;
  Path : string;
  nextUpdate : Time;
  networkError : bool
}.

(** [Filter{}]. *)
Definition zeroFilter : Filter :=
  mkFilter 0 false "" "" 0 zeroTime "" "" zeroTime false.

Definition set_ID (v : Z) (f : Filter) : Filter :=
  mkFilter v (Enabled f) (Name f) (URL f) (RuleCount f) (LastUpdated f)
           (LastModified f) (Path f) (nextUpdate f) (networkError f).
Definition set_Enabled (v : bool) (f : Filter) : Filter :=
  mkFilter (ID f) v (Name f) (URL f) (RuleCount f) (LastUpdated f)
           (LastModified f) (Path f) (nextUpdate f) (networkError f).
Definition set_Name (v : string) (f : Filter) : Filter :=
  mkFilter (ID f) (Enabled f) v (URL f) (RuleCount f) (LastUpdated f)
           (LastModified f) (Path f) (nextUpdate f) (networkError f).
Definition set_URL (v : string) (f : Filter) : Filter :=
  mkFilter (ID f) (Enabled f) (Name f) v (RuleCount f) (LastUpdated f)
           (LastModified f) (Path f) (nextUpdate f) (networkError f).
Definition set_RuleCount (v : Z) (f : Filter) : Filter :=
  mkFilter (ID f) (Enabled f) (Name f) (URL f) v (LastUpdated f)
           (LastModified f) (Path f) (nextUpdate f) (networkError f).
Definition set_LastUpdated (v : Time) (f : Filter) : Filter :=
  mkFilter (ID f) (Enabled f) (Name f) (URL f) (RuleCount f) v
           (LastModified f) (Path f) (nextUpdate f) (networkError f).
Definition set_LastModified (v : string) (f : Filter) : Filter :=
  mkFilter (ID f) (Enabled f) (Name f) (URL f) (RuleCount f) (LastUpdated f)
           v (Path f) (nextUpdate f) (networkError f).
Definition set_Path (v : string) (f : Filter) : Filter :=
  mkFilter (ID f) (Enabled f) (Name f) (URL f) (RuleCount f) (LastUpdated f)
           (LastModified f) v (nextUpdate f) (networkError f).
Definition set_nextUpdate (v : Time) (f : Filter) : Filter :=
  mkFilter (ID f) (Enabled f) (Name f) (URL f) (RuleCount f) (LastUpdated f)
           (LastModified f) (Path f) v (networkError f).
Definition set_networkError (v : bool) (f : Filter) : Filter :=
  mkFilter (ID f) (Enabled f) (Name f) (URL f) (RuleCount f) (LastUpdated f)
           (LastModified f) (Path f) (nextUpdate f) v.

(** The errors the functions of this file return. *)
Inductive Error :=
| ErrTempFile                 (* ioutil.TempFile failed *)
| ErrOpenFile                 (* "open file: ..." *)
| ErrNewRequest               (* http.NewRequest failed *)
| ErrTransport                (* HTTPClient.Do failed *)
| ErrStatusCode (status : Z)  (* "status code: %d" *)
| ErrRead                     (* the reader failed, not with io.EOF *)
| ErrNonPrintable             (* "data contains non-printable characters" *)
| ErrHTML                     (* "data is HTML, not plain text" *)
| ErrWrite                    (* outFile.Write failed *)
| ErrRename                   (* os.Rename failed *)
| ErrExists                   (* "filter with this Name or URL already exists" *)
| ErrNotFound.                (* "filter %s not found" *)

(** An [io.Reader], by what its successive [Read] calls return: a number
    of reads with a nil error, then either a read that returns its data
    with [io.EOF] or a read that fails with another error. *)
Inductive ReadEnd :=
| EndEOF (data : bytes)
| EndErr.

Record Reader := mkReader { reads : list bytes; ending : ReadEnd }.

(** All the bytes a reader delivers. *)
Definition readerData (r : Reader) : bytes :=
  concat (reads r) ++ match ending r with EndEOF d => d | EndErr => [] end.

(** ** [writeFile] *)

Definition inspect {A} (a : A) : {b | a = b} := exist _ a eq_refl.

Lemma splitNext_shorter (s : bytes) by_ i line s' :
  s <> [] -> splitNext s by_ = (i, line, s') -> (length s' < length s)%nat.
Proof.
  unfold splitNext. intros Hs.
  destruct (IndexByte s by_ <? 0) eqn:E; intros [= <- <- <-].
  - destruct s; [done | simpl; lia].
  - rewrite length_drop. destruct s; [done |]. simpl length.
    apply Z.ltb_ge in E. lia.
Qed.

(** The inner loop of [writeFile], [for len(s) != 0 { ... }]: [s] is the
    text not yet split, [chunk] the carried remainder, [eof] whether the
    read that delivered the data returned [io.EOF]. *)
Equations? lineLoop (eof : bool) (s chunk : bytes) (ruleCount : Z)
  : bytes * Z by wf (length s) lt :=
  lineLoop eof [] chunk ruleCount := (chunk, ruleCount);
  lineLoop eof (c :: r) chunk ruleCount
    with inspect (splitNext (c :: r) x0a) := {
    | exist _ (pair (pair i line) s') Heq :=
        if (i <? 0) && negb eof then (chunk, ruleCount)
        else if notRule line then lineLoop eof s' s' ruleCount
        else lineLoop eof s' s' (ruleCount + 1) }.
Proof. all: eapply (splitNext_shorter (c :: r)); eauto. Qed.

(** The variables of [writeFile] that live across iterations; [w_first] is
    [firstChunk[:firstChunkLen]], or [None] once [firstChunk] is nil;
    [w_out] is the content of [outFile]; [w_writes] counts the calls to
    [outFile.Write]. *)
Record wstate := mkW {
  w_ruleCount : Z;
  w_total : Z;
  w_chunk : bytes;
  w_first : option bytes;
  w_out : bytes;
  w_writes : nat
}.

(** One iteration of the outer loop, after a read that returned [data]
    with a nil error ([eof = false]) or with [io.EOF] ([eof = true]).
    [wfail k] tells whether the [k]-th write to the output file fails.
    An error comes with the content of the output file at that point. *)
Definition writeStep (wfail : nat -> bool) (eof : bool) (data : bytes)
    (s : wstate) : Error * bytes + wstate :=
  let total := w_total s + blen data in
  if negb (isPrintableText data) then inl (ErrNonPrintable, w_out s)
  else
    let first :=
      match w_first s with
      | None => inr None
      | Some firstChunk =>
          let '(firstChunk', _) := gatherUntil firstChunk data 4096 in
          if (blen firstChunk' =? 4096) || eof then
            if isHTML firstChunk' then inl ErrHTML else inr None
          else inr (Some firstChunk')
      end in
    match first with
    | inl e => inl (e, w_out s)
    | inr first' =>
        if wfail (w_writes s) then inl (ErrWrite, w_out s)
        else
          let out := w_out s ++ data in
          let chunk := w_chunk s ++ data in
          let '(chunk', ruleCount') :=
            lineLoop eof chunk chunk (w_ruleCount s) in
          inr (mkW ruleCount' total chunk' first' out (S (w_writes s)))
    end.

(** The outer loop [for { n, err := reader.Read(buf) ... }]. *)
Fixpoint writeLoop (wfail : nat -> bool) (rs : list bytes) (fin : ReadEnd)
    (s : wstate) : Error * bytes + wstate :=
  match rs with
  | data :: rs' =>
      match writeStep wfail false data s with
      | inl e => inl e
      | inr s' => writeLoop wfail rs' fin s'
      end
  | [] =>
      match fin with
      | EndErr => inl (ErrRead, w_out s)
      | EndEOF data => writeStep wfail true data s
      end
  end.

(** [writeFile]: the descriptor, the content of [outFile] and the error at
    return.  [ruleCount] is an [int] converted to [uint64], which is the
    count modulo 2^64. *)
Definition writeFile (f : Filter) (reader : Reader) (wfail : nat -> bool)
    (outFile : bytes) : Filter * bytes * option Error :=
  match writeLoop wfail (reads reader) (ending reader)
                  (mkW 0 0 [] (Some []) outFile 0) with
  | inl (e, out) => (f, out, Some e)
  | inr s => (set_RuleCount (wrap64 (w_ruleCount s)) f, w_out s, None)
  end.

(** ** [parseFilter] *)

(** [bufio.Reader.ReadString]: the data up to and including the
    delimiter and what follows it; when there is no delimiter, all the data
    that is left, returned with the reader's final error. *)
Definition ReadString (data : bytes) (delim : byte) : bytes * bytes * bool :=
  let i := IndexByte data delim in
  if i <? 0 then (data, [], false)
  else (take (Z.to_nat (i + 1)) data, drop (Z.to_nat (i + 1)) data, true).

Lemma ReadString_shorter data delim line rest :
  ReadString data delim = (line, rest, true) -> (length rest < length data)%nat.
Proof.
  unfold ReadString. destruct (IndexByte data delim <? 0) eqn:E; [done |].
  intros [= <- <-]. rewrite length_drop. apply Z.ltb_ge in E.
  destruct data; [simpl in E; lia | simpl length; lia].
Qed.

(** The loop of [parseFilter], [for err == nil { ... }], over the data
    that is left in the buffered reader; [eof] tells whether the reader
    ends with [io.EOF].  [None] is the early [return err]. *)
Equations? parseLoop (data : bytes) (eof : bool) (ruleCount : Z)
  : option Z by wf (length data) lt :=
  parseLoop data eof ruleCount with inspect (ReadString data x0a) := {
    | exist _ (pair (pair line rest) true) Heq :=
        if notRule (TrimSpace line) then parseLoop rest eof ruleCount
        else parseLoop rest eof (ruleCount + 1);
    | exist _ (pair (pair line rest) false) Heq :=
        if negb eof then None
        else if notRule (TrimSpace line) then Some ruleCount
        else Some (ruleCount + 1) }.
Proof. all: eapply ReadString_shorter; eauto. Qed.

Definition parseFilter (f : Filter) (reader : Reader) : Filter * option Error :=
  let eof := match ending reader with EndEOF _ => true | EndErr => false end in
  match parseLoop (readerData reader) eof 0 with
  | None => (f, Some ErrRead)
  | Some ruleCount => (set_RuleCount (wrap64 ruleCount) f, None)
  end.

(** ** The rule count the spec describes *)

(** The data split on line breaks: the first line and the lines after it.
    A line break at the very end is followed by one more, empty, line. *)
Fixpoint splitLines (s : bytes) : bytes * list bytes :=
  match s with
  | [] => ([], [])
  | c :: r =>
      let '(l, ls) := splitLines r in
      if Byte.eqb c x0a then ([], l :: ls) else (c :: l, ls)
  end.

Definition linesOf (s : bytes) : list bytes :=
  let '(l, ls) := splitLines s in l :: ls.

(** A line counts when, once trimmed, it is not empty and starts with
    neither [#] nor [!]. *)
Definition spec_isRule (line : bytes) : bool :=
  match TrimSpace line with
  | [] => false
  | c :: _ => negb (Byte.eqb c x23) && negb (Byte.eqb c x21)
  end.

Definition countRules (lines : list bytes) : Z :=
  Z.of_nat (length (filter (fun l => spec_isRule l = true) lines)).

Definition spec_ruleCount (content : bytes) : Z := countRules (linesOf content).

(** The content of the example of the spec. *)
Definition exampleContent : bytes :=
  lit "# c" ++ [x0a] ++ lit "||ads.example^" ++ [x0a; x0a]
  ++ lit "! c2" ++ [x0a] ++ lit "||track.net^" ++ [x0a].

(** The line left unfinished at the end of the data, and the lines before
    it. *)
Definition carried (s : bytes) : bytes := List.last (linesOf s) [].
Definition complete (s : bytes) : list bytes := removelast (linesOf s).

(** The bytes [isPrintableText] lets through: 0x20 to 0x7E, 0x80 to 0xFF,
    LF, CR and TAB. *)
Definition allowedByte (c : byte) : bool :=
  (32 <=? code c) && (code c <=? 126)
  || (128 <=? code c) && (code c <=? 255)
  || Byte.eqb c x0a || Byte.eqb c x0d || Byte.eqb c x09.

(** The bytes the spec says are let through: 0x20 to 0x7E, LF, CR and TAB. *)
Definition spec_printable (c : byte) : bool :=
  (32 <=? code c) && (code c <=? 126)
  || Byte.eqb c x0a || Byte.eqb c x0d || Byte.eqb c x09.

(** The data of the last read of a reader. *)
Definition endData (fin : ReadEnd) : bytes :=
  match fin with EndEOF d => d | EndErr => [] end.

(** What holds between the iterations of the outer loop of [writeFile],
    once the reads so far have delivered [D], the output file having held
    [out0] at the start. *)
Record wInv (out0 D : bytes) (s : wstate) : Prop := mkWInv {
  inv_out : w_out s = out0 ++ D;
  inv_chunk : w_chunk s = carried D;
  inv_count : w_ruleCount s = countRules (complete D);
  inv_printable : isPrintableText D = true;
  inv_first : match w_first s with
              | Some fc => fc = D /\ blen D < 4096
              | None => isHTML (take 4096 D) = false /\ 4096 <= blen D
              end
}.

(** ** The storage object, the file system and the trace *)

(** Modelled from the spec: [type Conf] is declared in another file of the
    package.  [HTTPClient] is not a field here: what the client answers is
    part of the environment of a download ([Fetch] below). *)
Record Conf := mkConf {
  FilterDir : string;
  UpdateIntervalHours : Z;
  List : list Filter
}.

(** [filterStg], without the two fields that only serve the goroutines
    ([updateTaskRunning], [updateChan]).  An observer is known by its
    number; calling it is an event of the trace. *)
Record filterStg := mkStg {
  conf : Conf;
  nextID : Z;
  updated : list Filter;
  Users : list nat
}.

(** A file of the filter directory. *)
Record File := mkFile { data : bytes; modTime : Time }.

(** The calls that leave the process, in the order the code makes them. *)
Inductive Event :=
| EvLock                                  (* fs.confLock.Lock() *)
| EvUnlock                                (* fs.confLock.Unlock() *)
| EvNotify (user : nat) (flags : Z)       (* u(flags) *)
| EvTempFile (name : string)              (* ioutil.TempFile created name *)
| EvClose (name : string)                 (* tmpFile.Close() *)
| EvRemove (name : string)                (* os.Remove *)
| EvRename (src dst : string) (ok : bool) (* os.Rename and whether it worked *)
| EvOpen (name : string) (ok : bool)      (* os.Open, os.OpenFile *)
| EvGet (url : string) (ifModifiedSince : string) (* HTTPClient.Do *)
| EvChtimes (name : string) (t : Time) (ok : bool).

Record World := mkWorld {
  fs : filterStg;
  disk : gmap string File;
  trace : list Event
}.

Definition theList (w : World) : list Filter := List (conf (fs w)).

Definition setList (l : list Filter) (w : World) : World :=
  mkWorld
    (mkStg (mkConf (FilterDir (conf (fs w))) (UpdateIntervalHours (conf (fs w))) l)
           (nextID (fs w)) (updated (fs w)) (Users (fs w)))
    (disk w) (trace w).

Definition setNextID (v : Z) (w : World) : World :=
  mkWorld (mkStg (conf (fs w)) v (updated (fs w)) (Users (fs w)))
          (disk w) (trace w).

Definition setUpdated (l : list Filter) (w : World) : World :=
  mkWorld (mkStg (conf (fs w)) (nextID (fs w)) l (Users (fs w)))
          (disk w) (trace w).

Definition setDisk (d : gmap string File) (w : World) : World :=
  mkWorld (fs w) d (trace w).

Definition emit (evs : list Event) (w : World) : World :=
  mkWorld (fs w) (disk w) (trace w ++ evs).

(** [fs.conf.List[i] = f]. *)
Definition setAt (i : nat) (f : Filter) (w : World) : World :=
  setList (<[i := f]> (theList w)) w.

(** Decimal text of a number, [fmt.Sprintf("%d", n)]. *)
Definition itoa (n : Z) : string :=
  DecimalString.NilEmpty.string_of_int (Z.to_int n).

(** What the environment answers during one call of [downloadFilter]. *)
Inductive HTTPResult :=
| DoFails
| Response (StatusCode : Z) (lastModifiedHeader : string) (Body : Reader).

Record Fetch := mkFetch {
  tempName : option string;   (* ioutil.TempFile: the name it picks *)
  openFile : option Reader;   (* os.Open(f.URL) *)
  newRequest : bool;          (* http.NewRequest succeeds *)
  doRequest : HTTPResult;     (* HTTPClient.Do *)
  writeFails : nat -> bool;   (* the k-th outFile.Write fails *)
  renameFails : bool;         (* os.Rename of the staging file fails *)
  now : Time                  (* time.Now() *)
}.

(** What the environment answers during one round of [updateAll]: the
    clock read by [getNextToUpdate], the download, and the clock read after
    a failed download. *)
Record Round := mkRound { pickTime : Time; fetch : Fetch; retryTime : Time }.

(** A concrete platform for the worked examples: Unix paths, and distinct
    bits for the two status flags. *)
Definition unixIsAbs (p : string) : bool := String.prefix "/" p.

Definition unixJoin (dir name : string) : string := dir +:+ "/" +:+ name.

(** Worked examples: a storage with two observers and an empty registry,
    downloads that succeed with a given body and downloads that get a
    given status. *)
Definition world0 : World :=
  mkWorld (mkStg (mkConf "/data" 24 []) 1000 [] [0%nat; 1%nat]) ∅ [].

Definition fetchOK (tmp : string) (body : list bytes) (t : Time) : Fetch :=
  mkFetch (Some tmp) None true
          (Response 200 "Tue, 01 Jan 2019 00:00:00 GMT" (mkReader body (EndEOF [])))
          (fun _ => false) false t.

Definition fetchStatus (tmp : string) (status : Z) (t : Time) : Fetch :=
  mkFetch (Some tmp) None true (Response status "" (mkReader [] (EndEOF [])))
          (fun _ => false) false t.

Definition fetchDown (tmp : string) (t : Time) : Fetch :=
  mkFetch (Some tmp) None true DoFails (fun _ => false) false t.

Definition newFilter (name url : string) : Filter :=
  mkFilter 0 false name url 0 zeroTime "" "" zeroTime false.

(** A registry with one filter whose cache file holds one rule while its
    descriptor says seven, disabled in [world1] and enabled in [world2];
    [world3] has two enabled filters that are due. *)
Definition filterA (enabled : bool) : Filter :=
  mkFilter 1001 enabled "A" "http://a" 7 50 "token" "" zeroTime false.

Definition filterB : Filter :=
  mkFilter 1002 true "B" "http://b" 3 60 "" "" zeroTime false.

Definition world1 : World :=
  mkWorld (mkStg (mkConf "/data" 24 [filterA false]) 1002 [] [0%nat; 1%nat])
          {[ "/data/1001.txt" := mkFile (lit "||a^") 50 ]} [].

Definition world2 : World :=
  mkWorld (mkStg (mkConf "/data" 24 [filterA true]) 1002 [] [0%nat; 1%nat])
          {[ "/data/1001.txt" := mkFile (lit "||a^") 50 ]} [].

Definition world3 : World :=
  mkWorld (mkStg (mkConf "/data" 24 [filterA true; filterB]) 1002 [] [0%nat; 1%nat])
          {[ "/data/1001.txt" := mkFile (lit "||a^") 50;
             "/data/1002.txt" := mkFile (lit "||b^") 60 ]} [].

(** What the environment answers during a pass over [world3] that starts
    at time 1000 s: the first filter cannot be reached, the second gets
    status 500, and the third round finds nothing due. *)
Definition passRounds : list Round :=
  [ mkRound (1000 * Second) (fetchDown "/data/tmp1" (1001 * Second)) (1002 * Second);
    mkRound (1003 * Second) (fetchStatus "/data/tmp2" 500 (1004 * Second)) (1005 * Second);
    mkRound (1006 * Second) (fetchDown "/data/tmp3" (1007 * Second)) (1008 * Second) ].

Section Storage.

(** Declared outside this file: [filepath.IsAbs] and [filepath.Join] of the
    Go library, and the constants [StatusChangedEnabled],
    [StatusChangedURL], [EventBeforeUpdate] and [EventAfterUpdate] of the
    package. *)
Variable IsAbs : string -> bool.
Variable Join : string -> string -> string.
Variables StatusChangedEnabled StatusChangedURL : Z.
Variables EventBeforeUpdate EventAfterUpdate : Z.

(** [notifyUsers]. *)
Definition notifyUsers (flags : Z) (w : World) : World :=
  emit (map (fun u => EvNotify u flags) (Users (fs w))) w.

(** [filePath]. *)
Definition filePath (w : World) (f : Filter) : string :=
  Join (FilterDir (conf (fs w))) (itoa (ID f) +:+ ".txt").

(** [nextFilterID]: [atomic.Uint64.Inc] returns the new value. *)
Definition nextFilterID (w : World) : World * Z :=
  let v := wrap64 (nextID (fs w) + 1) in (setNextID v w, v).

(** The deferred function of [downloadFilter] while [tmpFile] is not nil. *)
Definition cleanup (tmp : string) (w : World) : World :=
  emit [EvClose tmp; EvRemove tmp] (setDisk (delete tmp (disk w)) w).

(** The end of [downloadFilter], from [writeFile] on. *)
Definition stage (e : Fetch) (w : World) (tmp : string) (f : Filter)
    (reader : Reader) : World * Filter * option Error :=
  let '(f1, out, err) := writeFile f reader (writeFails e) [] in
  let w1 := setDisk (<[tmp := mkFile out (now e)]> (disk w)) w in
  match err with
  | Some er => (cleanup tmp w1, f1, Some er)
  | None =>
      let w2 := emit [EvClose tmp] w1 in
      let fname := filePath w2 f1 in
      if renameFails e
      then (cleanup tmp (emit [EvRename tmp fname false] w2), f1, Some ErrRename)
      else
        let w3 :=
          emit [EvRename tmp fname true]
               (setDisk (<[fname := mkFile out (now e)]> (delete tmp (disk w2))) w2) in
        (w3, set_LastUpdated (now e) (set_Path fname f1), None)
  end.

(** [downloadFilter].  [ioutil.TempFile] creates its file exclusively, so a
    name that exists already is a failure to create it. *)
Definition downloadFilter (e : Fetch) (w : World) (f : Filter)
  : World * Filter * option Error :=
  match tempName e with
  | None => (w, f, Some ErrTempFile)
  | Some tmp =>
      match disk w !! tmp with
      | Some _ => (w, f, Some ErrTempFile)
      | None =>
          let w1 := emit [EvTempFile tmp]
                         (setDisk (<[tmp := mkFile [] (now e)]> (disk w)) w) in
          if IsAbs (URL f) then
            match openFile e with
            | None => (cleanup tmp (emit [EvOpen (URL f) false] w1), f,
                       Some ErrOpenFile)
            | Some reader => stage e (emit [EvOpen (URL f) true] w1) tmp f reader
            end
          else if negb (newRequest e) then (cleanup tmp w1, f, Some ErrNewRequest)
          else
            let w2 := emit [EvGet (URL f) (LastModified f)] w1 in
            match doRequest e with
            | DoFails => (cleanup tmp w2, set_networkError true f, Some ErrTransport)
            | Response status lastModified body =>
                if status =? 304
                then (cleanup tmp w2, set_Path "" (set_LastUpdated (now e) f), None)
                else if negb (status =? 200)
                then (cleanup tmp w2, f, Some (ErrStatusCode status))
                else stage e w2 tmp (set_LastModified lastModified f) body
            end
      end
  end.

(** The reader that [downloadFilter] hands to [writeFile], when it gets
    that far: the local file, or the body of a response with status 200. *)
Definition sourceOf (e : Fetch) (f : Filter) : option Reader :=
  if IsAbs (URL f) then openFile e
  else if newRequest e then
    match doRequest e with
    | DoFails => None
    | Response status _ body => if status =? 200 then Some body else None
    end
  else None.

(** [Add]. *)
Definition Add (e : Fetch) (w : World) (nf : Filter) : World * option Error :=
  let w0 := emit [EvLock] w in
  if existsb (fun f => bool_decide (Name f = Name nf)
                       || bool_decide (URL f = URL nf)) (theList w0)
  then (emit [EvUnlock] w0, Some ErrExists)
  else
    let '(w1, id) := nextFilterID w0 in
    let nf := set_Enabled true (set_ID id nf) in
    let '(w2, nf, err) := downloadFilter e w1 nf in
    match err with
    | Some er => (emit [EvUnlock] w2, Some er)
    | None => (emit [EvUnlock] (setList (theList w2 ++ [nf]) w2), None)
    end.

(** The loop of [Delete]: [nf] collects the descriptors that stay, [found]
    is the last descriptor met with the given url. *)
Fixpoint deleteLoop (url : string) (l nf : list Filter) (found : option Filter)
  : list Filter * option Filter :=
  match l with
  | [] => (nf, found)
  | f :: l' =>
      if bool_decide (URL f = url) then deleteLoop url l' nf (Some f)
      else deleteLoop url l' (nf ++ [f]) found
  end.

(** [Delete]. *)
Definition Delete (w : World) (url : string) : World * option Filter :=
  let w0 := emit [EvLock] w in
  match deleteLoop url (theList w0) [] None with
  | (_, None) => (emit [EvUnlock] w0, None)
  | (nf, Some found) =>
      let w1 := setList nf w0 in
      (emit [EvUnlock] w1, Some (set_Path (filePath w1 found) found))
  end.

(** The body of the loop of [Modify] for the descriptor [f] found at index
    [i].  The code works on [&fs.conf.List[i]]; nothing reads the list
    before the function returns, so the descriptor is written back once,
    at the return. *)
Definition modifyAt (e : Fetch) (w : World) (i : nat) (f : Filter)
    (enabled : bool) (name newURL : string)
  : World * (Z * Filter * option Error) :=
  let backup := f in
  let st := 0 in
  let f := set_Name name f in
  let '(f, st) :=
    if negb (Bool.eqb (Enabled f) enabled)
    then (set_Enabled enabled f, Z.lor st StatusChangedEnabled)
    else (f, st) in
  let '(f, st) :=
    if negb (bool_decide (URL f = newURL))
    then (set_URL newURL f, Z.lor st StatusChangedURL)
    else (f, st) in
  let '(w, f, needDownload) :=
    if negb (Z.land st StatusChangedURL =? 0) then
      let '(w', id) := nextFilterID w in (w', set_ID id f, true)
    else if negb (Z.land st StatusChangedEnabled =? 0) && enabled then
      let fname := filePath w f in
      match disk w !! fname with
      | None => (emit [EvOpen fname false] w, f, true)
      | Some file =>
          (emit [EvOpen fname true; EvClose fname] w,
           fst (parseFilter f (mkReader [] (EndEOF (data file)))), false)
      end
    else (w, f, false) in
  if needDownload then
    let f := set_RuleCount 0 (set_LastModified "" f) in
    let '(w, f, err) := downloadFilter e w f in
    match err with
    | Some er => (setAt i backup w, (0, zeroFilter, Some er))
    | None => (setAt i f w, (st, backup, None))
    end
  else (setAt i f w, (st, backup, None)).

(** The loop of [Modify] from index [i] on, [l] being [fs.conf.List[i:]]. *)
Fixpoint modifyLoop (e : Fetch) (w : World) (i : nat) (l : list Filter)
    (url : string) (enabled : bool) (name newURL : string)
  : World * (Z * Filter * option Error) :=
  match l with
  | [] => (w, (0, zeroFilter, Some ErrNotFound))
  | f :: l' =>
      if bool_decide (URL f = url) then modifyAt e w i f enabled name newURL
      else modifyLoop e w (S i) l' url enabled name newURL
  end.

(** [Modify]. *)
Definition Modify (e : Fetch) (w : World) (url : string) (enabled : bool)
    (name newURL : string) : World * (Z * Filter * option Error) :=
  let w0 := emit [EvLock] w in
  let '(w1, r) := modifyLoop e w0 0 (theList w0) url enabled name newURL in
  (emit [EvUnlock] w1, r).

(** The loop of [getNextToUpdate] from index [i] on: the index of the first
    descriptor that is due, and that descriptor rescheduled. *)
Fixpoint nextFrom (tnow : Time) (interval : Z) (i : nat) (l : list Filter)
  : option (nat * Filter) :=
  match l with
  | [] => None
  | f :: l' =>
      if Enabled f && (Unix (nextUpdate f) <=? Unix tnow)
      then Some (i, set_nextUpdate (tnow + interval) f)
      else nextFrom tnow interval (S i) l'
  end.

(** [getNextToUpdate]; the pointer it returns is the index of the
    descriptor together with the descriptor. *)
Definition getNextToUpdate (tnow : Time) (w : World)
  : World * option (nat * Filter) :=
  let interval := int64 (UpdateIntervalHours (conf (fs w)) * Hour) in
  match nextFrom tnow interval 0 (theList w) with
  | None => (w, None)
  | Some (i, f) => (setAt i f w, Some (i, f))
  end.

(** [os.Rename] and [os.Chtimes] inside the filter directory: they fail
    when the file is not there. *)
Definition osRename (src dst : string) (w : World) : World :=
  match disk w !! src with
  | None => emit [EvRename src dst false] w
  | Some file =>
      emit [EvRename src dst true]
           (setDisk (<[dst := file]> (delete src (disk w))) w)
  end.

Definition osChtimes (name : string) (t : Time) (w : World) : World :=
  match disk w !! name with
  | None => emit [EvChtimes name t false] w
  | Some file =>
      emit [EvChtimes name t true]
           (setDisk (<[name := mkFile (data file) t]> (disk w)) w)
  end.

(** The inner loop of [applyUpdate] for the batch entry [uf]: [n]
    descriptors are left to visit, from index [i] on. *)
Fixpoint applyLoop (uf : Filter) (n i : nat) (found : bool) (w : World)
  : World * bool :=
  match n with
  | O => (w, found)
  | S n' =>
      match theList w !! i with
      | None => (w, found)
      | Some f =>
          if bool_decide (URL uf = URL f) then
            let fpath := filePath w f in
            let f := set_LastUpdated (LastUpdated uf) f in
            let w := setAt i f w in
            if bool_decide (Path uf = "") then
              applyLoop uf n' (S i) true
                        (osChtimes fpath (LastUpdated f) w)
            else
              let w := osRename (Path uf) fpath w in
              (setAt i (set_RuleCount (RuleCount uf) f) w, true)
          else applyLoop uf n' (S i) found w
      end
  end.

(** The body of the outer loop of [applyUpdate]. *)
Definition applyEntry (w : World) (uf : Filter) : World :=
  let '(w1, found) := applyLoop uf (length (theList w)) 0 false w in
  if found then w1
  else
    let name := filePath w1 uf in
    emit [EvRemove name] (setDisk (delete name (disk w1)) w1).

(** [applyUpdate]. *)
Definition applyUpdate (w : World) : World :=
  match updated (fs w) with
  | [] => w
  | _ :: _ =>
      let w1 := notifyUsers EventBeforeUpdate w in
      let w2 := emit [EvLock] w1 in
      let w3 := foldl applyEntry w2 (updated (fs w)) in
      let w4 := emit [EvUnlock] w3 in
      notifyUsers EventAfterUpdate (setUpdated [] w4)
  end.

(** [updateAll], for the rounds the environment answers; [None] when the
    pass is still running after them. *)
Fixpoint updateAll (rounds : list Round) (w : World) : option World :=
  match rounds with
  | [] => None
  | r :: rest =>
      let '(w1, cand) := getNextToUpdate (pickTime r) (emit [EvLock] w) in
      let w1 := emit [EvUnlock] w1 in
      match cand with
      | None => Some (applyUpdate w1)
      | Some (i, f) =>
          let uf := f in
          let '(w2, id) := nextFilterID w1 in
          let uf := set_ID id uf in
          let '(w3, uf, err) := downloadFilter (fetch r) w2 uf in
          match err with
          | Some _ =>
              if networkError uf then
                updateAll rest
                  (emit [EvUnlock]
                     (setAt i (set_nextUpdate (retryTime r + 10 * Second) f)
                            (emit [EvLock] w3)))
              else updateAll rest w3
          | None => updateAll rest (setUpdated (updated (fs w3) ++ [uf]) w3)
          end
      end
  end.

(** The part of a descriptor that an update must not touch. *)
Definition identity (f : Filter) : Z * string * string * bool :=
  (ID f, Name f, URL f, Enabled f).



(** The observer calls among the events of a trace. *)
Definition notifications (tr : list Event) : list (nat * Z) :=
  omap (fun ev => match ev with
                  | EvNotify u flags => Some (u, flags)
                  | _ => None
                  end) tr.

(** What [applyUpdate] never changes: the settings, the id counter, the
    batch, the observers, the identity of every descriptor, and the calls
    made to the observers. *)
Record sameFrame (w w' : World) : Prop := mkSameFrame {
  frame_dir : FilterDir (conf (fs w')) = FilterDir (conf (fs w));
  frame_hours : UpdateIntervalHours (conf (fs w')) = UpdateIntervalHours (conf (fs w));
  frame_nextID : nextID (fs w') = nextID (fs w);
  frame_updated : updated (fs w') = updated (fs w);
  frame_users : Users (fs w') = Users (fs w);
  frame_ids : identity <$> theList w' = identity <$> theList w;
  frame_notify : notifications (trace w') = notifications (trace w)
}.

(** A descriptor that [getNextToUpdate] would pick at the given time. *)
Definition due (tnow : Time) (f : Filter) : bool :=
  Enabled f && (Unix (nextUpdate f) <=? Unix tnow).

(** A descriptor that a round can still pick before the clock shows the
    second [smax], and how many of them a registry has. *)
Definition pendingB (smax : Z) (f : Filter) : bool :=
  Enabled f && (Unix (nextUpdate f) <? smax).

Fixpoint pending (smax : Z) (l : list Filter) : nat :=
  match l with
  | [] => 0
  | f :: l' => (if pendingB smax f then 1 else 0) + pending smax l'
  end.

(** A round whose clock readings fall in the ten seconds that start with
    the second [s0]. *)
Definition inWindow (s0 : Z) (r : Round) : Prop :=
  s0 <= Unix (pickTime r) < s0 + 10 /\ s0 <= Unix (retryTime r).

(** ** The rest of the public surface *)

(** [List], here [List'] since [List] is the field of [Conf]: copies of
    the descriptors, each with its cache path filled in.  The flags are not
    used. *)
Definition List' (flags : Z) (w : World) : World * list Filter :=
  let w0 := emit [EvLock] w in
  (emit [EvUnlock] w0, map (fun f => set_Path (filePath w0 f) f) (theList w0)).

(** [SetConfig]: only the update interval is taken from the argument. *)
Definition SetConfig (c : Conf) (w : World) : World :=
  mkWorld
    (mkStg (mkConf (FilterDir (conf (fs w))) (UpdateIntervalHours c) (theList w))
           (nextID (fs w)) (updated (fs w)) (Users (fs w)))
    (disk w) (trace w).

(** [AddUser]. *)
Definition AddUser (handler : nat) (w : World) : World :=
  mkWorld (mkStg (conf (fs w)) (nextID (fs w)) (updated (fs w))
                 (Users (fs w) ++ [handler]))
          (disk w) (trace w).

(** The calls of the public surface that change the registry, and the
    apply step of a pass. *)
Inductive Op :=
| OpAdd (e : Fetch) (nf : Filter)
| OpDelete (url : string)
| OpModify (e : Fetch) (url : string) (enabled : bool) (name newURL : string)
| OpApply.

Definition runOp (w : World) (o : Op) : World :=
  match o with
  | OpAdd e nf => fst (Add e w nf)
  | OpDelete url => fst (Delete w url)
  | OpModify e url enabled name newURL => fst (Modify e w url enabled name newURL)
  | OpApply => applyUpdate w
  end.

(** No descriptor of the registry has its [networkError] flag raised. *)
Definition flagsClear (w : World) : Prop :=
  forall g, g ∈ theList w -> networkError g = false.

(** The ids of the registry are distinct and none is above the id
    counter. *)
Definition idsFresh (w : World) : Prop :=
  NoDup (ID <$> theList w)
  /\ forall g, g ∈ theList w -> ID g <= nextID (fs w).

(** Where the id counter stands after a call: where it was, or one
    allocation further. *)
Definition counterStep (w w' : World) : Prop :=
  nextID (fs w') = nextID (fs w) \/ nextID (fs w') = wrap64 (nextID (fs w) + 1).

(** [Refresh]: every descriptor is made due.  The signal on [updateChan],
    which makes the goroutine of [updateBySignal] run a pass, is outside the
    model, as the goroutines are. *)
Definition Refresh (flags : Z) (w : World) : World :=
  emit [EvUnlock]
       (setList (set_nextUpdate zeroTime <$> theList w) (emit [EvLock] w)).

(** The body of the loop of [Start] for the descriptor [f]: the calls it
    makes after [os.Stat] and the descriptor it leaves.  As in [modifyAt],
    a file that is there can be opened and read to its end. *)
Definition startFilter (w : World) (f : Filter) : list Event * Filter :=
  let fname := filePath w f in
  match disk w !! fname with
  | None => ([], f)
  | Some file =>
      let f := set_LastUpdated (modTime file) f in
      if negb (Enabled f) then ([], f)
      else
        let f := fst (parseFilter f (mkReader [] (EndEOF (data file)))) in
        ([EvOpen fname true; EvClose fname],
         set_nextUpdate
           (LastUpdated f + int64 (UpdateIntervalHours (conf (fs w)) * Hour)) f)
  end.

(** One turn of the loop of [Start], on [&fs.conf.List[i]]. *)
Definition startAt (w : World) (i : nat) : World :=
  match theList w !! i with
  | None => w
  | Some f => let '(evs, f') := startFilter w f in emit evs (setAt i f' w)
  end.

(** [Start], up to the two goroutines it launches: the registry is loaded
    from the filter directory.  [os.MkdirAll] has nothing to do in a
    directory that is a map from paths to files. *)
Definition Start (w : World) : World :=
  foldl startAt w (seq 0 (length (theList w))).
(** * Facts about the validator and the parser *)


Lemma IndexByte_range s c : -1 <= IndexByte s c < blen s.
Proof.
  unfold blen. induction s as [| b r IH]; simpl; [lia |].
  destruct (Byte.eqb b c); [lia |].
  destruct (IndexByte r c <? 0) eqn:E; [lia |]. apply Z.ltb_ge in E. lia.
Qed.

Lemma splitLines_no_break s :
  IndexByte s x0a < 0 -> splitLines s = (s, []).
Proof.
  induction s as [| b r IH]; simpl; [done |].
  destruct (Byte.eqb b x0a) eqn:Eb; [lia |].
  destruct (IndexByte r x0a <? 0) eqn:E.
  - intros _. apply Z.ltb_lt in E. by rewrite IH.
  - apply Z.ltb_ge in E. lia.
Qed.

Lemma splitLines_break s :
  0 <= IndexByte s x0a ->
  splitLines s =
    (take (Z.to_nat (IndexByte s x0a)) s,
     linesOf (drop (Z.to_nat (IndexByte s x0a + 1)) s)).
Proof.
  unfold linesOf. induction s as [| b r IH]; simpl; [lia |].
  destruct (Byte.eqb b x0a) eqn:Eb.
  - intros _. simpl. rewrite drop_0. by destruct (splitLines r).
  - destruct (IndexByte r x0a <? 0) eqn:E; [lia |]. apply Z.ltb_ge in E.
    intros _. rewrite (IH E).
    replace (Z.to_nat (IndexByte r x0a + 1)) with (S (Z.to_nat (IndexByte r x0a))) by lia.
    replace (Z.to_nat (IndexByte r x0a + 1 + 1)) with (S (S (Z.to_nat (IndexByte r x0a)))) by lia.
    simpl. reflexivity.
Qed.

Lemma notRule_spec line : notRule (TrimSpace line) = negb (spec_isRule line).
Proof.
  unfold spec_isRule, notRule. destruct (TrimSpace line) as [| c t]; [done |].
  by destruct (Byte.eqb c x23), (Byte.eqb c x21).
Qed.

Lemma countRules_cons l ls :
  countRules (l :: ls) = (if spec_isRule l then 1 else 0) + countRules ls.
Proof.
  unfold countRules. rewrite filter_cons.
  destruct (decide (spec_isRule l = true)) as [-> | H].
  - simpl length. lia.
  - apply not_true_is_false in H. rewrite H. lia.
Qed.

Lemma countRules_app l1 l2 : countRules (l1 ++ l2) = countRules l1 + countRules l2.
Proof.
  unfold countRules. rewrite filter_app, length_app. lia.
Qed.

Lemma lineLoop_eq eof s chunk rc :
  lineLoop eof s chunk rc =
    match s with
    | [] => (chunk, rc)
    | _ :: _ =>
        let '(i, line, s') := splitNext s x0a in
        if (i <? 0) && negb eof then (chunk, rc)
        else if notRule line then lineLoop eof s' s' rc
        else lineLoop eof s' s' (rc + 1)
    end.
Proof.
  destruct s as [| c r]; simp lineLoop; [done |].
  unfold lineLoop_unfold_clause_2. simpl.
  destruct (splitNext (c :: r) x0a) as [[i line] s']. reflexivity.
Qed.


Lemma linesOf_cons_break r : linesOf (x0a :: r) = [] :: linesOf r.
Proof. unfold linesOf. simpl. by destruct (splitLines r). Qed.

Lemma linesOf_cons_other c r :
  Byte.eqb c x0a = false ->
  linesOf (c :: r) = (c :: fst (splitLines r)) :: snd (splitLines r).
Proof. unfold linesOf. simpl. intros ->. by destruct (splitLines r). Qed.

Lemma linesOf_fst_snd s : linesOf s = fst (splitLines s) :: snd (splitLines s).
Proof. unfold linesOf. by destruct (splitLines s). Qed.

Lemma linesOf_app a b :
  linesOf (a ++ b) = complete a ++ linesOf (carried a ++ b).
Proof.
  unfold complete, carried. induction a as [| c r IH]; [done |].
  rewrite <- app_comm_cons.
  destruct (Byte.eqb c x0a) eqn:Ec.
  - apply Byte.byte_dec_bl in Ec. subst c.
    rewrite !linesOf_cons_break, IH.
    rewrite (linesOf_fst_snd r). reflexivity.
  - rewrite !(linesOf_cons_other _ _ Ec).
    rewrite (linesOf_fst_snd (r ++ b)), (linesOf_fst_snd r) in IH.
    destruct (snd (splitLines r)) as [| l2 ls]; simpl in *.
    + rewrite (linesOf_cons_other _ _ Ec).
      rewrite (linesOf_fst_snd (_ ++ b)) in IH. by injection IH as -> ->.
    + by injection IH as -> ->.
Qed.

Lemma linesOf_no_break s : IndexByte s x0a < 0 -> linesOf s = [s].
Proof. intros H. unfold linesOf. by rewrite (splitLines_no_break _ H). Qed.

Lemma linesOf_break s :
  0 <= IndexByte s x0a ->
  linesOf s = take (Z.to_nat (IndexByte s x0a)) s
              :: linesOf (drop (Z.to_nat (IndexByte s x0a + 1)) s).
Proof. intros H. unfold linesOf at 1. by rewrite (splitLines_break _ H). Qed.

Lemma drop_after_break_shorter (s : bytes) i :
  s <> [] -> 0 <= i -> (length (drop (Z.to_nat (i + 1)) s) < length s)%nat.
Proof. intros Hs Hi. rewrite length_drop. destruct s; [done | simpl; lia]. Qed.

Lemma lineLoop_eof n : forall s rc,
  length s = n -> lineLoop true s s rc = ([], rc + spec_ruleCount s).
Proof.
  unfold spec_ruleCount.
  induction n as [n IH] using lt_wf_ind. intros s rc Hn.
  rewrite lineLoop_eq. destruct (decide (s = [])) as [-> | Hs].
  { replace (countRules (linesOf [])) with 0 by reflexivity. f_equal. lia. }
  destruct s as [| c r] eqn:Es; [done |]. rewrite <- Es in *. clear Es c r.
  unfold splitNext. destruct (IndexByte s x0a <? 0) eqn:E; simpl.
  - apply Z.ltb_lt in E. rewrite (linesOf_no_break _ E), countRules_cons.
    rewrite notRule_spec. destruct (spec_isRule s); simpl;
      rewrite lineLoop_eq, andb_false_r; f_equal; unfold countRules; simpl; lia.
  - apply Z.ltb_ge in E. rewrite (linesOf_break _ E), countRules_cons.
    pose proof (drop_after_break_shorter s _ Hs E) as Hlt.
    rewrite notRule_spec, andb_false_r.
    destruct (spec_isRule _); simpl;
      (erewrite IH; [| | reflexivity]; [f_equal; lia | lia]).
Qed.

Lemma linesOf_not_nil s : linesOf s <> [].
Proof. by rewrite linesOf_fst_snd. Qed.

Lemma lineLoop_more n : forall s rc,
  length s = n ->
  lineLoop false s s rc = (carried s, rc + countRules (complete s)).
Proof.
  unfold carried, complete.
  induction n as [n IH] using lt_wf_ind. intros s rc Hn.
  rewrite lineLoop_eq. destruct (decide (s = [])) as [-> | Hs].
  { replace (countRules (removelast (linesOf []))) with 0 by reflexivity.
    replace (List.last (linesOf []) []) with (@nil byte) by reflexivity.
    f_equal. lia. }
  destruct s as [| c r] eqn:Es; [done |]. rewrite <- Es in *. clear Es c r.
  unfold splitNext. destruct (IndexByte s x0a <? 0) eqn:E; simpl.
  - apply Z.ltb_lt in E. rewrite (linesOf_no_break _ E). simpl.
    replace (countRules []) with 0 by reflexivity.
    rewrite (proj2 (Z.ltb_lt _ _) E). simpl. f_equal. lia.
  - apply Z.ltb_ge in E. rewrite (linesOf_break _ E).
    pose proof (drop_after_break_shorter s _ Hs E) as Hlt.
    set (s' := drop _ s) in *.
    pose proof (linesOf_not_nil s') as Hne.
    assert (Hl : List.last (take (Z.to_nat (IndexByte s x0a)) s :: linesOf s') []
                 = List.last (linesOf s') []).
    { destruct (linesOf s'); done. }
    assert (Hr : removelast (take (Z.to_nat (IndexByte s x0a)) s :: linesOf s')
                 = take (Z.to_nat (IndexByte s x0a)) s :: removelast (linesOf s')).
    { destruct (linesOf s'); done. }
    rewrite Hl, Hr, countRules_cons, notRule_spec, (proj2 (Z.ltb_ge _ _) E).
    simpl andb. cbv iota.
    destruct (spec_isRule _); simpl;
      (erewrite IH; [| | reflexivity]; [f_equal; lia | lia]).
Qed.

Lemma isPrintableText_forallb d : isPrintableText d = forallb allowedByte d.
Proof.
  induction d as [| c r IH]; [done |]. simpl. rewrite <- IH.
  replace (((32 <=? code c) && negb (code c =? 127))
           || Byte.eqb c x0a || Byte.eqb c x0d || Byte.eqb c x09)
    with (allowedByte c) by (by destruct c).
  by destruct (allowedByte c).
Qed.

Lemma isPrintableText_app a b :
  isPrintableText (a ++ b) = isPrintableText a && isPrintableText b.
Proof. rewrite !isPrintableText_forallb. apply forallb_app. Qed.

Lemma isPrintableText_false d :
  isPrintableText d = false <-> exists c, c ∈ d /\ allowedByte c = false.
Proof.
  rewrite isPrintableText_forallb. split.
  - intros H. induction d as [| c r IH]; [done |]. simpl in H.
    destruct (allowedByte c) eqn:E.
    + destruct (IH H) as (c' & Hin & Hc'). exists c'. split; [by right | done].
    + exists c. split; [by left | done].
  - intros (c & Hin & Hc). apply not_true_is_false. intros Hall.
    rewrite forallb_forall in Hall. apply list_elem_of_In in Hin.
    specialize (Hall _ Hin). congruence.
Qed.

Lemma gatherUntil_take (D d : bytes) :
  blen D < 4096 -> fst (gatherUntil D d 4096) = take 4096 (D ++ d).
Proof.
  unfold gatherUntil, MinInt, blen. intros H. simpl.
  rewrite take_app. rewrite (take_ge D) by lia. f_equal.
  destruct (Z.min_spec (Z.of_nat (length d)) (4096 - Z.of_nat (length D)))
    as [[Hlt ->] | [Hge ->]].
  - rewrite Nat2Z.id. rewrite !take_ge; [done | lia | lia].
  - f_equal. lia.
Qed.

Lemma wInv_init out0 : wInv out0 [] (mkW 0 0 [] (Some []) out0 0).
Proof. split; simpl; try done. by rewrite app_nil_r. Qed.

Lemma List_last_app {A} (l1 l2 : list A) d :
  l2 <> [] -> List.last (l1 ++ l2) d = List.last l2 d.
Proof.
  intros H. induction l1 as [| a l1 IH]; [done |]. simpl.
  destruct (l1 ++ l2) eqn:E; [| done].
  apply app_eq_nil in E as [_ ->]. done.
Qed.

Lemma complete_carried_app D d :
  complete (D ++ d) = complete D ++ complete (carried D ++ d)
  /\ carried (D ++ d) = carried (carried D ++ d).
Proof.
  unfold complete, carried. rewrite (linesOf_app D d).
  pose proof (linesOf_not_nil (List.last (linesOf D) [] ++ d)) as Hne.
  split.
  - by rewrite removelast_app.
  - by rewrite List_last_app.
Qed.

Lemma writeStep_more wfail out0 D d s s' :
  wInv out0 D s -> writeStep wfail false d s = inr s' -> wInv out0 (D ++ d) s'.
Proof.
  intros [Hout Hchunk Hcount Hprint Hfirst]. unfold writeStep.
  destruct (isPrintableText d) eqn:Hd; [| done]. simpl negb. cbv iota.
  destruct (complete_carried_app D d) as [Hc1 Hc2].
  assert (Hloop : lineLoop false (w_chunk s ++ d) (w_chunk s ++ d) (w_ruleCount s)
       = (carried (D ++ d), countRules (complete (D ++ d)))).
  { rewrite (lineLoop_more _ _ _ eq_refl), Hchunk, Hcount, Hc1, Hc2, countRules_app.
    done. }
  destruct (w_first s) as [fc |].
  - destruct Hfirst as [-> HD].
    pose proof (gatherUntil_take D d HD) as Hg.
    destruct (gatherUntil D d 4096) as [fc' k]. simpl in Hg. subst fc'.
    rewrite orb_false_r.
    destruct (blen (take 4096 (D ++ d)) =? 4096) eqn:Hlen.
    + destruct (isHTML (take 4096 (D ++ d))) eqn:Hh; [done |].
      destruct (wfail (w_writes s)); [done |]. rewrite Hloop. intros [= <-].
      split; simpl; rewrite ?Hout, ?app_assoc, ?isPrintableText_app, ?Hprint, ?Hd;
        try done.
      split; [done |]. apply Z.eqb_eq in Hlen. unfold blen in *.
      rewrite length_take in Hlen. lia.
    + destruct (wfail (w_writes s)); [done |]. rewrite Hloop. intros [= <-].
      split; simpl; rewrite ?Hout, ?app_assoc, ?isPrintableText_app, ?Hprint, ?Hd;
        try done.
      apply Z.eqb_neq in Hlen. unfold blen in *. rewrite length_take in Hlen.
      assert (Hlt : (length (D ++ d) < 4096)%nat) by lia.
      split; [| lia]. apply take_ge. lia.
  - destruct Hfirst as [Hh HD].
    destruct (wfail (w_writes s)); [done |]. rewrite Hloop. intros [= <-].
    split; simpl; rewrite ?Hout, ?app_assoc, ?isPrintableText_app, ?Hprint, ?Hd;
      try done.
    unfold blen in *. rewrite length_app. split; [| lia].
    rewrite take_app_le by lia. done.
Qed.

Lemma writeStep_last wfail out0 D d s s' :
  wInv out0 D s -> writeStep wfail true d s = inr s' ->
  w_out s' = out0 ++ D ++ d
  /\ w_ruleCount s' = spec_ruleCount (D ++ d)
  /\ isPrintableText (D ++ d) = true
  /\ isHTML (take 4096 (D ++ d)) = false.
Proof.
  intros [Hout Hchunk Hcount Hprint Hfirst]. unfold writeStep.
  destruct (isPrintableText d) eqn:Hd; [| done]. simpl negb. cbv iota.
  assert (Hloop : lineLoop true (w_chunk s ++ d) (w_chunk s ++ d) (w_ruleCount s)
       = ([], spec_ruleCount (D ++ d))).
  { rewrite (lineLoop_eof _ _ _ eq_refl), Hchunk, Hcount. unfold spec_ruleCount.
    by rewrite (linesOf_app D d), countRules_app. }
  assert (Hgoal : forall first', isHTML (take 4096 (D ++ d)) = false ->
     (if wfail (w_writes s) then inl (ErrWrite, w_out s)
      else let '(chunk', ruleCount') :=
             lineLoop true (w_chunk s ++ d) (w_chunk s ++ d) (w_ruleCount s) in
           inr (mkW ruleCount' (w_total s + blen d) chunk' first'
                    (w_out s ++ d) (S (w_writes s)))) = inr s' ->
     w_out s' = out0 ++ D ++ d
     /\ w_ruleCount s' = spec_ruleCount (D ++ d)
     /\ isPrintableText (D ++ d) = true
     /\ isHTML (take 4096 (D ++ d)) = false).
  { intros first' Hh. destruct (wfail (w_writes s)); [done |]. rewrite Hloop.
    intros [= <-]. simpl.
    by rewrite Hout, app_assoc, isPrintableText_app, Hprint, Hd. }
  destruct (w_first s) as [fc |].
  - destruct Hfirst as [-> HD].
    pose proof (gatherUntil_take D d HD) as Hg.
    destruct (gatherUntil D d 4096) as [fc' k]. simpl in Hg. subst fc'.
    rewrite orb_true_r.
    destruct (isHTML (take 4096 (D ++ d))) eqn:Hh; [done |]. by apply Hgoal.
  - destruct Hfirst as [Hh HD]. apply Hgoal.
    unfold blen in HD. rewrite take_app_le by lia. done.
Qed.


Lemma writeLoop_ok wfail out0 rs : forall fin D s s',
  wInv out0 D s -> writeLoop wfail rs fin s = inr s' ->
  (exists d, fin = EndEOF d)
  /\ w_out s' = out0 ++ D ++ concat rs ++ endData fin
  /\ w_ruleCount s' = spec_ruleCount (D ++ concat rs ++ endData fin)
  /\ isPrintableText (D ++ concat rs ++ endData fin) = true
  /\ isHTML (take 4096 (D ++ concat rs ++ endData fin)) = false.
Proof.
  induction rs as [| d rs IH]; intros fin D s s' Hinv; simpl.
  - destruct fin as [d |]; [| done]. intros H. split; [by eexists |].
    simpl. by apply (writeStep_last wfail _ _ _ s).
  - destruct (writeStep wfail false d s) as [e | s1] eqn:E1; [done |].
    intros H. pose proof (writeStep_more _ _ _ _ _ _ Hinv E1) as Hinv1.
    destruct (IH _ _ _ _ Hinv1 H) as (Hfin & H1 & H2 & H3 & H4).
    rewrite <- !app_assoc in *. done.
Qed.

(** [writeFile] succeeds only on a stream that ends with [io.EOF]; it has
    then written the whole stream, which is printable and not HTML, and
    counted its rule lines. *)
Lemma writeFile_ok f reader wfail out f' out' :
  writeFile f reader wfail out = (f', out', None) ->
  (exists d, ending reader = EndEOF d)
  /\ f' = set_RuleCount (wrap64 (spec_ruleCount (readerData reader))) f
  /\ out' = out ++ readerData reader
  /\ isPrintableText (readerData reader) = true
  /\ isHTML (take 4096 (readerData reader)) = false.
Proof.
  unfold writeFile, readerData.
  destruct (writeLoop _ _ _ _) as [[e o] | s'] eqn:E; [done |].
  intros [= <- <-].
  destruct (writeLoop_ok _ _ _ _ _ _ _ (wInv_init out) E) as (Hfin & H1 & H2 & H3 & H4).
  simpl in *. fold (endData (ending reader)). by rewrite H2.
Qed.

Lemma writeFile_err_keeps f reader wfail out f' out' e :
  writeFile f reader wfail out = (f', out', Some e) -> f' = f.
Proof.
  unfold writeFile. destruct (writeLoop _ _ _ _) as [[e' o] | s']; [| done].
  by intros [= <- _ _].
Qed.

Lemma writeStep_err wfail eof d s e out :
  writeStep wfail eof d s = inl (e, out) ->
  (e = ErrNonPrintable /\ isPrintableText d = false)
  \/ (e = ErrHTML /\ isPrintableText d = true)
  \/ (e = ErrWrite /\ isPrintableText d = true /\ wfail (w_writes s) = true).
Proof.
  unfold writeStep. destruct (isPrintableText d); simpl negb; cbv iota.
  2: { intros [= <- _]. by left. }
  intros H. right.
  assert (Hw : (if wfail (w_writes s) then inl (ErrWrite, w_out s)
                else let '(chunk', ruleCount') :=
                       lineLoop eof (w_chunk s ++ d) (w_chunk s ++ d) (w_ruleCount s) in
                     inr (mkW ruleCount' (w_total s + blen d) chunk' None
                              (w_out s ++ d) (S (w_writes s)))) = inl (e, out) ->
               e = ErrWrite /\ true = true /\ wfail (w_writes s) = true).
  { destruct (wfail (w_writes s)); [by intros [= <- _] |].
    by destruct (lineLoop _ _ _ _). }
  destruct (w_first s) as [fc |]; [| right; by apply Hw].
  destruct (gatherUntil fc d 4096) as [fc' k].
  destruct (_ || _).
  - destruct (isHTML fc'); [injection H as <- _; by left |].
    right; by apply Hw.
  - destruct (wfail (w_writes s)); [injection H as <- _; by right |].
    by destruct (lineLoop _ _ _ _).
Qed.

Lemma writeLoop_nonprintable wfail rs : forall fin s out,
  writeLoop wfail rs fin s = inl (ErrNonPrintable, out) ->
  isPrintableText (concat rs ++ endData fin) = false.
Proof.
  induction rs as [| d rs IH]; intros fin s out; simpl.
  - destruct fin as [d |]; [| done]. intros H.
    by apply writeStep_err in H as [[_ H] | [[? _] | [? _]]].
  - destruct (writeStep wfail false d s) as [[e o] | s1] eqn:E1.
    + intros [= -> ->].
      apply writeStep_err in E1 as [[_ H] | [[? _] | [? _]]]; try done.
      by rewrite <- app_assoc, isPrintableText_app, H.
    + intros H. apply IH in H.
      rewrite <- app_assoc, isPrintableText_app, H. apply andb_false_r.
Qed.

Lemma writeStep_clean wfail eof out0 D d X s :
  (forall k, wfail k = false) -> wInv out0 D s ->
  isPrintableText d = true ->
  isHTML (take 4096 (D ++ d ++ X)) = false ->
  (eof = true -> X = []) ->
  exists s', writeStep wfail eof d s = inr s'.
Proof.
  intros Hw [Hout Hchunk Hcount Hprint Hfirst] Hd Hh HX. unfold writeStep.
  rewrite Hd, Hw. simpl negb. cbv iota.
  destruct (w_first s) as [fc |].
  - destruct Hfirst as [-> HD].
    pose proof (gatherUntil_take D d HD) as Hg.
    destruct (gatherUntil D d 4096) as [fc' k]. simpl in Hg. subst fc'.
    assert (Hsniff : (blen (take 4096 (D ++ d)) =? 4096) || eof = true ->
                     isHTML (take 4096 (D ++ d)) = false).
    { intros Hc. rewrite app_assoc in Hh. apply orb_true_iff in Hc as [Hc | ->].
      - apply Z.eqb_eq in Hc. unfold blen in Hc. rewrite length_take in Hc.
        rewrite take_app_le in Hh by lia. done.
      - rewrite (HX eq_refl), app_nil_r in Hh. done. }
    destruct (_ || eof).
    + rewrite (Hsniff eq_refl). destruct (lineLoop _ _ _ _). by eexists.
    + destruct (lineLoop _ _ _ _). by eexists.
  - destruct (lineLoop _ _ _ _). by eexists.
Qed.

(** With no write failure and a prefix that is not HTML, the only ways
    for [writeFile]'s loop to fail are a byte that is not allowed and a
    failing read. *)
Lemma writeLoop_clean wfail out0 rs : forall fin D s,
  (forall k, wfail k = false) -> wInv out0 D s ->
  isHTML (take 4096 (D ++ concat rs ++ endData fin)) = false ->
  match writeLoop wfail rs fin s with
  | inl (e, _) =>
      if isPrintableText (concat rs ++ endData fin)
      then e = ErrRead /\ fin = EndErr
      else e = ErrNonPrintable
  | inr _ => isPrintableText (concat rs ++ endData fin) = true /\ fin <> EndErr
  end.
Proof.
  induction rs as [| d rs IH]; intros fin D s Hw Hinv Hh; simpl in *.
  - destruct fin as [d |]; simpl in *; [| done].
    destruct (isPrintableText d) eqn:Hd.
    + destruct (writeStep_clean wfail true out0 D d [] s) as [s' ->]; try done.
      by rewrite app_nil_r.
    + unfold writeStep. by rewrite Hd.
  - rewrite <- app_assoc in *. rewrite isPrintableText_app.
    destruct (isPrintableText d) eqn:Hd.
    + destruct (writeStep_clean wfail false out0 D d (concat rs ++ endData fin) s)
        as [s' Hs']; try done.
      rewrite Hs'. simpl andb.
      apply (IH fin (D ++ d)); [done | by eapply writeStep_more |].
      by rewrite <- app_assoc.
    + unfold writeStep. by rewrite Hd.
Qed.

(** [writeFile] succeeds on a stream that ends with [io.EOF], is printable
    and does not start like HTML, when no write fails. *)
Lemma writeFile_succeeds f reader wfail out d :
  ending reader = EndEOF d ->
  (forall k, wfail k = false) ->
  isPrintableText (readerData reader) = true ->
  isHTML (take 4096 (readerData reader)) = false ->
  writeFile f reader wfail out
  = (set_RuleCount (wrap64 (spec_ruleCount (readerData reader))) f,
     out ++ readerData reader, None).
Proof.
  intros Hfin Hw Hp Hh.
  pose proof (writeLoop_clean wfail out (reads reader) (ending reader) [] _
                Hw (wInv_init out)) as Hc.
  destruct (writeFile f reader wfail out) as [[f' out'] [e |]] eqn:E.
  - exfalso. unfold writeFile in E.
    destruct (writeLoop _ _ _ _) as [[e' o] | s']; [| done].
    unfold readerData in Hp, Hh. fold (endData (ending reader)) in Hp, Hh.
    specialize (Hc Hh). rewrite Hp in Hc. destruct Hc as [_ Hc]. congruence.
  - by apply writeFile_ok in E as (_ & -> & -> & _).
Qed.

(** C4: when [writeFile] succeeds, the rule count it stores is the number
    of lines of the whole stream (split on LF, wherever the reads cut it,
    the last line counting whether or not a line break ends it) that are,
    once trimmed, neither empty nor started by [#] or [!]; for the content
    of the example that number is 2. *)
Theorem writeFile_counts_rule_lines f reader wfail out f' out' :
  writeFile f reader wfail out = (f', out', None) ->
  RuleCount f' = wrap64 (spec_ruleCount (readerData reader))
  /\ (readerData reader = exampleContent -> RuleCount f' = 2).
Proof.
  intros H. apply writeFile_ok in H as (_ & -> & _). simpl.
  split; [done |]. by intros ->.
Qed.

(** [parseFilter] on a reader that ends with [io.EOF] counts the same
    lines on small inputs as [writeFile]. *)
Example parseFilter_example :
  parseFilter zeroFilter (mkReader [] (EndEOF exampleContent))
  = (set_RuleCount 2 zeroFilter, None).
Proof. reflexivity. Qed.
Lemma dropSpace_cons rv a r :
  dropSpace rv (a :: r) =
    if asciiSpace a then dropSpace rv r
    else match r with
         | [] => a :: r
         | b :: r2 =>
             if (if rv then space2 b a else space2 a b) then dropSpace rv r2
             else match r2 with
                  | [] => a :: r
                  | c :: r3 =>
                      if (if rv then space3 c b a else space3 a b c)
                      then dropSpace rv r3
                      else a :: r
                  end
         end.
Proof. reflexivity. Qed.

Lemma dropSpace_snoc_break n : forall l,
  length l = n ->
  dropSpace false (l ++ [x0a])
  = match dropSpace false l with [] => [] | r => r ++ [x0a] end.
Proof.
  induction n as [n IH] using lt_wf_ind. intros l Hn.
  destruct l as [| a r]; [done |].
  rewrite <- app_comm_cons, !dropSpace_cons.
  destruct (asciiSpace a) eqn:Ea.
  { apply (IH (length r)); [simpl in Hn; lia | done]. }
  destruct r as [| b r2]; simpl app; cbv iota.
  { replace (space2 a x0a) with false by (by destruct a). done. }
  destruct (space2 a b) eqn:E2.
  { apply (IH (length r2)); [simpl in Hn; lia | done]. }
  destruct r2 as [| c r3]; simpl app; cbv iota.
  { replace (space3 a b x0a) with false; [done |].
    unfold space3. simpl. by rewrite !andb_false_r. }
  destruct (space3 a b c) eqn:E3; [| done].
  apply (IH (length r3)); [simpl in Hn; lia | done].
Qed.

Lemma TrimSpace_snoc_break l : TrimSpace (l ++ [x0a]) = TrimSpace l.
Proof.
  unfold TrimSpace. rewrite (dropSpace_snoc_break _ _ eq_refl).
  destruct (dropSpace false l) as [| a r] eqn:E; [done |].
  rewrite reverse_app. reflexivity.
Qed.

Lemma take_S_break (s : bytes) i :
  0 <= i -> IndexByte s x0a = i ->
  take (Z.to_nat (i + 1)) s = take (Z.to_nat i) s ++ [x0a].
Proof.
  revert i. induction s as [| b r IH]; intros i Hi; simpl; [lia |].
  destruct (Byte.eqb b x0a) eqn:Eb.
  - intros <-. apply Byte.byte_dec_bl in Eb. by subst b.
  - destruct (IndexByte r x0a <? 0) eqn:E; [lia |]. apply Z.ltb_ge in E.
    intros <-. 
    replace (Z.to_nat (IndexByte r x0a + 1 + 1)) with (S (Z.to_nat (IndexByte r x0a + 1))) by lia.
    replace (Z.to_nat (IndexByte r x0a + 1)) with (S (Z.to_nat (IndexByte r x0a))) at 2 by lia.
    simpl. f_equal. by apply IH.
Qed.

Lemma parseLoop_eq data eof rc :
  parseLoop data eof rc =
    let '(line, rest, found) := ReadString data x0a in
    if found then
      if notRule (TrimSpace line) then parseLoop rest eof rc
      else parseLoop rest eof (rc + 1)
    else if negb eof then None
    else if notRule (TrimSpace line) then Some rc else Some (rc + 1).
Proof.
  simp parseLoop. unfold parseLoop_unfold_clause_1. simpl.
  destruct (ReadString data x0a) as [[line rest] []]; reflexivity.
Qed.

(** [parseFilter] counts the lines the spec describes. *)
Lemma parseLoop_spec n : forall data rc,
  length data = n -> parseLoop data true rc = Some (rc + spec_ruleCount data).
Proof.
  unfold spec_ruleCount.
  induction n as [n IH] using lt_wf_ind. intros data rc Hn.
  rewrite parseLoop_eq. unfold ReadString.
  destruct (IndexByte data x0a <? 0) eqn:E.
  - apply Z.ltb_lt in E. rewrite (linesOf_no_break _ E), countRules_cons.
    simpl. rewrite notRule_spec.
    destruct (spec_isRule data); simpl; f_equal; unfold countRules; simpl; lia.
  - apply Z.ltb_ge in E. rewrite (linesOf_break _ E), countRules_cons.
    rewrite (take_S_break _ _ E eq_refl), TrimSpace_snoc_break, notRule_spec.
    assert (Hs : data <> []) by (intros ->; simpl in E; lia).
    pose proof (drop_after_break_shorter data _ Hs E) as Hlt.
    destruct (spec_isRule _); simpl;
      (erewrite IH; [| | reflexivity]; [f_equal; lia | lia]).
Qed.

Lemma parseFilter_spec f (content : bytes) :
  parseFilter f (mkReader [] (EndEOF content))
  = (set_RuleCount (wrap64 (spec_ruleCount content)) f, None).
Proof.
  unfold parseFilter, readerData. simpl.
  by rewrite (parseLoop_spec _ _ _ eq_refl).
Qed.

(** * Facts about the storage *)

Lemma filePath_fs w1 w2 f : fs w1 = fs w2 -> filePath w1 f = filePath w2 f.
Proof. unfold filePath. by intros ->. Qed.

Lemma stage_spec e w tmp f r d0 file0 w' f' err :
  disk w = <[tmp := file0]> d0 -> d0 !! tmp = None ->
  stage e w tmp f r = (w', f', err) ->
  fs w' = fs w
  /\ match err with
     | Some er =>
         disk w' = d0
         /\ (exists evs, trace w' = trace w ++ evs ++ [EvClose tmp; EvRemove tmp])
         /\ networkError f' = networkError f
         /\ er <> ErrTransport
     | None =>
         (exists d, ending r = EndEOF d)
         /\ isPrintableText (readerData r) = true
         /\ isHTML (take 4096 (readerData r)) = false
         /\ f' = set_LastUpdated (now e)
                   (set_Path (filePath w f)
                      (set_RuleCount (wrap64 (spec_ruleCount (readerData r))) f))
         /\ disk w' = <[filePath w f := mkFile (readerData r) (now e)]> d0
         /\ trace w' = trace w ++ [EvClose tmp; EvRename tmp (filePath w f) true]
     end.
Proof.
  intros Hd Hfresh. unfold stage.
  destruct (writeFile f r (writeFails e) []) as [[f1 out] [er |]] eqn:Ew.
  - intros [= <- <- <-]. simpl. split; [done |].
    rewrite delete_insert_eq, Hd, delete_insert_id by done.
    split; [done |]. split; [by exists [] |].
    split; [by rewrite (writeFile_err_keeps _ _ _ _ _ _ _ Ew) |].
    unfold writeFile in Ew. destruct (writeLoop _ _ _ _) as [[e' o] | s'] eqn:El; [| done].
    injection Ew as _ _ <-. intros ->.
    clear -El. revert El. generalize (mkW 0 0 [] (Some []) [] 0).
    induction (reads r) as [| d rs IH]; intros s; simpl.
    + destruct (ending r); [| done]. intros H.
      by apply writeStep_err in H as [[? _] | [[? _] | [? _]]].
    + destruct (writeStep (writeFails e) false d s) as [[e1 o1] | s1] eqn:E1.
      * intros [= -> ->].
        by apply writeStep_err in E1 as [[? _] | [[? _] | [? _]]].
      * apply IH.
  - apply writeFile_ok in Ew as (Hfin & -> & -> & Hp & Hh). simpl.
    destruct (renameFails e).
    + intros [= <- <- <-]. simpl. split; [done |].
      rewrite delete_insert_eq, Hd, delete_insert_id by done.
      split; [done |].
      split; [| done]. eexists [_; _]. by rewrite <- !app_assoc.
    + intros [= <- <- <-]. simpl. split; [done |].
      rewrite delete_insert_eq, Hd, delete_insert_id by done.
      repeat split; try done. by rewrite <- app_assoc.
Qed.

Definition isTransport (err : option Error) : bool :=
  match err with Some ErrTransport => true | _ => false end.

(** [downloadFilter] leaves the storage object alone, and raises
    [networkError] on the descriptor exactly when it returns the error of
    [HTTPClient.Do]. *)
Lemma downloadFilter_fs e w f w' f' err :
  downloadFilter e w f = (w', f', err) ->
  fs w' = fs w
  /\ networkError f' = networkError f || isTransport err
  /\ (isTransport err = true -> IsAbs (URL f) = false /\ doRequest e = DoFails).
Proof.
  unfold downloadFilter.
  destruct (tempName e) as [tmp |]; [| intros [= <- <- <-]; by rewrite orb_false_r].
  destruct (disk w !! tmp) eqn:Hfresh; [intros [= <- <- <-]; by rewrite orb_false_r |].
  assert (Hstage : forall w0 f0 r, fs w0 = fs w -> networkError f0 = networkError f ->
            disk w0 = <[tmp := mkFile [] (now e)]> (disk w) ->
            stage e w0 tmp f0 r = (w', f', err) ->
            fs w' = fs w
            /\ networkError f' = networkError f || isTransport err
            /\ (isTransport err = true -> IsAbs (URL f) = false /\ doRequest e = DoFails)).
  { intros w0 f0 r Hfs Hn Hd Hs.
    destruct (stage_spec _ _ _ _ _ _ _ _ _ _ Hd Hfresh Hs) as [Hfs' Hm].
    split; [congruence |]. destruct err as [er |].
    - destruct Hm as (_ & _ & Hne & Her). rewrite Hne, Hn.
      destruct er; try done; by rewrite orb_false_r.
    - destruct Hm as (_ & _ & _ & -> & _). simpl. by rewrite Hn, orb_false_r. }
  destruct (IsAbs (URL f)).
  - destruct (openFile e) as [r |].
    + by apply Hstage.
    + intros [= <- <- <-]. by rewrite orb_false_r.
  - destruct (newRequest e); simpl negb; cbv iota.
    2: { intros [= <- <- <-]. by rewrite orb_false_r. }
    destruct (doRequest e) as [| status lm body].
    + intros [= <- <- <-]. simpl. by rewrite orb_true_r.
    + destruct (status =? 304); [intros [= <- <- <-]; by rewrite orb_false_r |].
      destruct (status =? 200); simpl negb; cbv iota.
      * by apply Hstage.
      * intros [= <- <- <-]. by rewrite orb_false_r.
Qed.

(** What a call of [downloadFilter] does to the filter directory and to
    the trace, outcome by outcome. *)
Lemma downloadFilter_spec e w f w' f' err :
  downloadFilter e w f = (w', f', err) ->
  match err with
  | Some _ =>
      disk w' = disk w
      /\ (trace w' = trace w
          \/ exists tmp evs,
               tempName e = Some tmp /\ disk w !! tmp = None
               /\ trace w' = trace w ++ EvTempFile tmp :: evs
                                     ++ [EvClose tmp; EvRemove tmp])
  | None =>
      exists tmp evs,
        tempName e = Some tmp /\ disk w !! tmp = None
        /\ ((Path f' = "" /\ sourceOf e f = None /\ disk w' = disk w
             /\ trace w' = trace w ++ EvTempFile tmp :: evs
                                   ++ [EvClose tmp; EvRemove tmp])
            \/ (exists r d,
                  sourceOf e f = Some r /\ ending r = EndEOF d
                  /\ isPrintableText (readerData r) = true
                  /\ isHTML (take 4096 (readerData r)) = false
                  /\ Path f' = filePath w f
                  /\ disk w' = <[filePath w f := mkFile (readerData r) (now e)]>
                                 (disk w)
                  /\ trace w' = trace w ++ EvTempFile tmp :: evs
                       ++ [EvClose tmp; EvRename tmp (filePath w f) true]))
  end.
Proof.
  unfold downloadFilter, sourceOf.
  destruct (tempName e) as [tmp |]; [| intros [= <- <- <-]; by auto].
  destruct (disk w !! tmp) eqn:Hfresh; [intros [= <- <- <-]; by auto |].
  set (w1 := emit [EvTempFile tmp] (setDisk (<[tmp := mkFile [] (now e)]> (disk w)) w)).
  assert (Hclean : forall evs,
            disk (cleanup tmp (emit evs w1)) = disk w
            /\ trace (cleanup tmp (emit evs w1))
               = trace w ++ EvTempFile tmp :: evs ++ [EvClose tmp; EvRemove tmp]).
  { intros evs. simpl. rewrite delete_insert_id by done.
    by rewrite <- !app_assoc. }
  assert (Hstage : forall evs f0 r,
            ID f0 = ID f ->
            stage e (emit evs w1) tmp f0 r = (w', f', err) ->
            match err with
            | Some _ =>
                disk w' = disk w
                /\ exists evs', trace w' = trace w ++ EvTempFile tmp :: evs'
                                           ++ [EvClose tmp; EvRemove tmp]
            | None =>
                (exists d, ending r = EndEOF d)
                /\ isPrintableText (readerData r) = true
                /\ isHTML (take 4096 (readerData r)) = false
                /\ Path f' = filePath w f
                /\ disk w' = <[filePath w f := mkFile (readerData r) (now e)]> (disk w)
                /\ trace w' = trace w ++ EvTempFile tmp :: evs
                     ++ [EvClose tmp; EvRename tmp (filePath w f) true]
            end).
  { intros evs f0 r Hid Hs.
    assert (Hp : filePath (emit evs w1) f0 = filePath w f)
      by (unfold filePath; simpl; by rewrite Hid).
    destruct (stage_spec e (emit evs w1) tmp f0 r (disk w) (mkFile [] (now e))
                _ _ _ eq_refl Hfresh Hs) as [_ Hm].
    destruct err as [er |].
    - destruct Hm as (Hd & [evs' Ht] & _). split; [done |].
      exists (evs ++ evs'). rewrite Ht. simpl. by rewrite <- !app_assoc.
    - destruct Hm as (Hfin & Hpr & Hh & -> & Hd & Ht). rewrite Hp in *.
      repeat split; try done. rewrite Ht. simpl. by rewrite <- !app_assoc. }
  destruct (IsAbs (URL f)).
  - destruct (openFile e) as [r |].
    + intros Hs. specialize (Hstage [EvOpen (URL f) true] f r eq_refl Hs).
      destruct err as [er |].
      * destruct Hstage as [Hd [evs' Ht]]. split; [done |]. right. by exists tmp, evs'.
      * destruct Hstage as ([d Hfin] & Hrest). exists tmp, [EvOpen (URL f) true].
        do 2 (split; [done |]). right. exists r, d. by do 2 (split; [done |]).
    + intros [= <- <- <-]. destruct (Hclean [EvOpen (URL f) false]) as [Hd Ht].
      split; [done |]. right. by exists tmp, [EvOpen (URL f) false].
  - destruct (newRequest e); simpl negb; cbv iota.
    2: { intros [= <- <- <-]. simpl. rewrite delete_insert_id by done.
         split; [done |]. right. exists tmp, []. by rewrite <- app_assoc. }
    set (ev := EvGet (URL f) (LastModified f)).
    destruct (doRequest e) as [| status lm body].
    + intros [= <- <- <-]. destruct (Hclean [ev]) as [Hd Ht].
      split; [done |]. right. by exists tmp, [ev].
    + destruct (status =? 304) eqn:E304.
      { intros [= <- <- <-]. destruct (Hclean [ev]) as [Hd Ht].
        exists tmp, [ev]. do 2 (split; [done |]). left.
        apply Z.eqb_eq in E304. subst status. by simpl. }
      destruct (status =? 200); simpl negb; cbv iota.
      * intros Hs. specialize (Hstage [ev] (set_LastModified lm f) body eq_refl Hs).
        destruct err as [er |].
        -- destruct Hstage as [Hd [evs' Ht]]. split; [done |]. right. by exists tmp, evs'.
        -- destruct Hstage as ([d Hfin] & Hrest). exists tmp, [ev].
           do 2 (split; [done |]). right. exists body, d.
           by do 2 (split; [done |]).
      * intros [= <- <- <-]. destruct (Hclean [ev]) as [Hd Ht].
        split; [done |]. right. by exists tmp, [ev].
Qed.

(** C1: a call of [downloadFilter] that fails leaves the filter directory
    as it found it, and when it had created a staging file the last two
    things it does are to close and to remove that file.  A call that
    succeeds either answers "not modified" and leaves the directory as it
    found it, or has read its source to the end, found every byte of it
    printable and its head not HTML, and only then renamed the staging
    file, which holds exactly that content, to the cache path. *)
Theorem downloadFilter_staging e w f w' f' err :
  downloadFilter e w f = (w', f', err) ->
  match err with
  | Some _ =>
      disk w' = disk w
      /\ (trace w' = trace w
          \/ exists tmp evs,
               tempName e = Some tmp /\ disk w !! tmp = None
               /\ trace w' = trace w ++ EvTempFile tmp :: evs
                                     ++ [EvClose tmp; EvRemove tmp])
  | None =>
      exists tmp evs,
        tempName e = Some tmp /\ disk w !! tmp = None
        /\ ((Path f' = "" /\ disk w' = disk w
             /\ trace w' = trace w ++ EvTempFile tmp :: evs
                                   ++ [EvClose tmp; EvRemove tmp])
            \/ (exists r d,
                  sourceOf e f = Some r /\ ending r = EndEOF d
                  /\ isPrintableText (readerData r) = true
                  /\ isHTML (take 4096 (readerData r)) = false
                  /\ Path f' = filePath w f
                  /\ disk w' = <[filePath w f := mkFile (readerData r) (now e)]>
                                 (disk w)
                  /\ (forall p, p <> filePath w f -> disk w' !! p = disk w !! p)
                  /\ trace w' = trace w ++ EvTempFile tmp :: evs
                       ++ [EvClose tmp; EvRename tmp (filePath w f) true]))
  end.
Proof.
  intros H. apply downloadFilter_spec in H. destruct err as [er |]; [done |].
  destruct H as (tmp & evs & Ht & Hf & [(HP & _ & Hd & Htr) | Hst]);
    exists tmp, evs; (do 2 (split; [done |])); [by left | right].
  destruct Hst as (r & d & H1 & H2 & H3 & H4 & H5 & H6 & H7). exists r, d.
  repeat (split; [done |]). split; [| done].
  intros p Hp. by rewrite H6, lookup_insert_ne.
Qed.

(** C6: for a source that is not a local path, once the staging file and
    the request exist: status 304 is a success with an empty staged path,
    [LastUpdated] set to now and [LastModified] kept; a status other than
    200 and 304 is an error that leaves the descriptor, and so its
    [networkError] flag, as it was; and [networkError] is raised exactly
    when [HTTPClient.Do] itself fails. *)
Theorem downloadFilter_http_outcomes e w f tmp w' f' err :
  IsAbs (URL f) = false -> tempName e = Some tmp -> disk w !! tmp = None ->
  newRequest e = true ->
  downloadFilter e w f = (w', f', err) ->
  (forall lm body, doRequest e = Response 304 lm body ->
     err = None /\ Path f' = "" /\ LastUpdated f' = now e
     /\ LastModified f' = LastModified f
     /\ f' = set_Path "" (set_LastUpdated (now e) f)
     /\ disk w' = disk w)
  /\ (forall status lm body, doRequest e = Response status lm body ->
        status <> 200 -> status <> 304 ->
        err = Some (ErrStatusCode status) /\ f' = f)
  /\ (doRequest e = DoFails <-> err = Some ErrTransport)
  /\ (networkError f = false ->
        (networkError f' = true <-> doRequest e = DoFails)).
Proof.
  intros Habs Htmp Hfresh Hreq Hdl.
  pose proof (downloadFilter_fs _ _ _ _ _ _ Hdl) as (_ & Hflag & Htr).
  assert (Hiff : doRequest e = DoFails <-> err = Some ErrTransport).
  { split.
    - intros Hdo. revert Hdl. unfold downloadFilter.
      rewrite Htmp, Hfresh, Habs, Hreq, Hdo. by intros [= _ _ <-].
    - intros ->. by apply Htr. }
  split; [| split; [| split]].
  - intros lm body Hdo. revert Hdl. unfold downloadFilter.
    rewrite Htmp, Hfresh, Habs, Hreq, Hdo. simpl.
    intros [= <- <- <-]. simpl. by rewrite delete_insert_id.
  - intros status lm body Hdo H200 H304. revert Hdl. unfold downloadFilter.
    rewrite Htmp, Hfresh, Habs, Hreq, Hdo. simpl negb. cbv iota.
    apply Z.eqb_neq in H200, H304. rewrite H200, H304. simpl.
    by intros [= <- <- <-].
  - exact Hiff.
  - intros Hf. rewrite Hflag, Hf. simpl. rewrite Hiff.
    destruct err as [[] |]; simpl; split; congruence.
Qed.

Lemma sourceOf_URL e f g : URL f = URL g -> sourceOf e f = sourceOf e g.
Proof. unfold sourceOf. by intros ->. Qed.

(** A call of [Add] that fails changes neither the registry nor the filter
    directory. *)
Lemma Add_failure e w nf w' er :
  Add e w nf = (w', Some er) -> theList w' = theList w /\ disk w' = disk w.
Proof.
  unfold Add, nextFilterID. destruct (existsb _ _); [by intros [= <- _] |].
  cbv beta iota zeta.
  destruct (downloadFilter _ _ _) as [[w2 nf'] err] eqn:Hdl.
  destruct err as [er' |]; [| done]. intros [= <- _].
  pose proof (downloadFilter_fs _ _ _ _ _ _ Hdl) as (Hfs & _).
  apply downloadFilter_spec in Hdl as [Hd _].
  unfold theList. simpl. by rewrite Hfs, Hd.
Qed.

(** C5, as the code has it: [writeFile] returns the error for non-printable
    data only if some byte of the stream is outside 0x20-0x7E, 0x80-0xFF,
    LF, CR, TAB; a stream with such a byte is always rejected, and with
    that very error when no write fails and the head of the stream is not
    HTML; the bytes 0x80-0xFF are let through and 0x00 is not; and a
    source with a 0x00 byte makes [Add] fail, registry and directory
    unchanged. *)
Theorem writeFile_rejects_nonprintable f reader wfail out :
  (snd (writeFile f reader wfail out) = Some ErrNonPrintable ->
     exists c, c ∈ readerData reader /\ allowedByte c = false)
  /\ ((exists c, c ∈ readerData reader /\ allowedByte c = false) ->
        snd (writeFile f reader wfail out) <> None
        /\ ((forall k, wfail k = false) ->
            isHTML (take 4096 (readerData reader)) = false ->
            snd (writeFile f reader wfail out) = Some ErrNonPrintable))
  /\ (forall c, allowedByte c = spec_printable c || (128 <=? code c))
  /\ allowedByte x00 = false
  /\ (forall e w nf,
        sourceOf e nf = Some reader -> x00 ∈ readerData reader ->
        exists er, snd (Add e w nf) = Some er
                   /\ theList (fst (Add e w nf)) = theList w
                   /\ disk (fst (Add e w nf)) = disk w).
Proof.
  assert (Hrej : forall g rd wf o,
            (exists c, c ∈ readerData rd /\ allowedByte c = false) ->
            snd (writeFile g rd wf o) <> None).
  { intros g rd wf o Hbad Hnone.
    destruct (writeFile g rd wf o) as [[f' out'] err] eqn:E. simpl in Hnone. subst err.
    apply writeFile_ok in E as (_ & _ & _ & Hp & _).
    apply isPrintableText_false in Hbad. congruence. }
  split; [| split; [| split; [| split]]].
  - unfold writeFile, readerData.
    destruct (writeLoop _ _ _ _) as [[e o] | s'] eqn:E; [| done]. simpl.
    intros [= ->]. apply writeLoop_nonprintable in E.
    by apply isPrintableText_false.
  - intros Hbad. split; [by apply Hrej |]. intros Hw Hh.
    pose proof (writeLoop_clean wfail out (reads reader) (ending reader) [] _
                  Hw (wInv_init out)) as Hc.
    unfold readerData in Hbad, Hh. fold (endData (ending reader)) in Hbad, Hh.
    specialize (Hc Hh). apply isPrintableText_false in Hbad. rewrite Hbad in Hc.
    unfold writeFile. destruct (writeLoop _ _ _ _) as [[e o] | s']; simpl.
    + by subst e.
    + destruct Hc. congruence.
  - intros c. by destruct c.
  - reflexivity.
  - intros e w nf Hsrc H0.
    destruct (Add e w nf) as [w' [er |]] eqn:HA.
    + exists er. split; [done |]. by eapply Add_failure.
    + exfalso. revert HA. unfold Add, nextFilterID.
      destruct (existsb _ _); [done |]. cbv beta iota zeta.
      destruct (downloadFilter _ _ _) as [[w2 nf'] err] eqn:Hdl.
      destruct err as [er' |]; [done |]. intros _.
      apply downloadFilter_spec in Hdl
        as (tmp & evs & _ & _ & [(_ & Hr & _) | (r & d & Hr & _ & Hp & _)]);
        rewrite (sourceOf_URL e _ nf) in Hr by done; rewrite Hsrc in Hr; [done |].
      injection Hr as <-.
      assert (Hbad : isPrintableText (readerData reader) = false)
        by (apply isPrintableText_false; by exists x00).
      congruence.
Qed.

(** ** [Modify] *)

Lemma setAt_same w i f : theList w !! i = Some f -> setAt i f w = w.
Proof.
  destruct w as [[[dir h l] n u us] dk tr]. unfold setAt, setList, theList. simpl.
  intros H. by rewrite list_insert_id.
Qed.

Lemma theList_fs w1 w2 : fs w1 = fs w2 -> theList w1 = theList w2.
Proof. unfold theList. by intros ->. Qed.

(** When the body of [Modify] returns an error, the descriptor it worked
    on is back to its snapshot. *)
Lemma modifyAt_failure e w i f enabled name newURL w' st prev er :
  theList w !! i = Some f ->
  modifyAt e w i f enabled name newURL = (w', (st, prev, Some er)) ->
  conf (fs w') = conf (fs w) /\ st = 0 /\ prev = zeroFilter /\ disk w' = disk w.
Proof.
  intros Hi. unfold modifyAt, nextFilterID.
  repeat case_match.
  all: intros Heq; inversion Heq; subst; clear Heq.
  all: repeat match goal with
              | H : (_, _) = (_, _) |- _ => inversion H; subst; clear H
              end.
  all: match goal with
       | H : downloadFilter _ _ _ = _ |- _ =>
           pose proof (downloadFilter_fs _ _ _ _ _ _ H) as (Hfs & _);
           apply downloadFilter_spec in H as [Hd _]
       end.
  all: rewrite setAt_same by (by rewrite (theList_fs _ _ Hfs)).
  all: rewrite Hfs, Hd; simpl.
  all: done.
Qed.

Lemma modifyLoop_failure e url enabled name newURL l :
  forall i w w' st prev er,
  drop i (theList w) = l ->
  modifyLoop e w i l url enabled name newURL = (w', (st, prev, Some er)) ->
  conf (fs w') = conf (fs w) /\ st = 0 /\ prev = zeroFilter /\ disk w' = disk w.
Proof.
  induction l as [| f l IH]; intros i w w' st prev er Hl; simpl.
  - by intros [= <- <- <- _].
  - assert (Hi : theList w !! i = Some f).
    { rewrite <- (Nat.add_0_r i), <- lookup_drop, Hl. done. }
    case_bool_decide.
    + by apply modifyAt_failure.
    + apply IH. replace (S i) with (i + 1)%nat by lia.
      by rewrite <- drop_drop, Hl.
Qed.

(** C3: when [Modify] returns an error, and so whenever the download it
    needed has failed, the registry is exactly what it was before the call
    (the descriptor keeps its url, id, rule count and caching token), the
    filter directory is unchanged, the flags returned are zero and the
    descriptor returned is the zero value. *)
Theorem Modify_rollback e w url enabled name newURL w' st prev er :
  Modify e w url enabled name newURL = (w', (st, prev, Some er)) ->
  theList w' = theList w /\ conf (fs w') = conf (fs w)
  /\ st = 0 /\ prev = zeroFilter /\ disk w' = disk w.
Proof.
  unfold Modify.
  destruct (modifyLoop _ _ _ _ _ _ _ _) as [w1 r] eqn:E. intros [= <- ->].
  apply modifyLoop_failure in E as (Hc & -> & -> & Hd); [| done].
  unfold theList. simpl. by rewrite Hc, Hd.
Qed.

Lemma modifyLoop_found e w url enabled name newURL pre f post : forall i,
  (forall g, g ∈ pre -> URL g <> url) -> URL f = url ->
  modifyLoop e w i (pre ++ f :: post) url enabled name newURL
  = modifyAt e w (i + length pre) f enabled name newURL.
Proof.
  induction pre as [| g pre IH]; intros i Hpre Hf; simpl.
  - rewrite bool_decide_eq_true_2 by done. by rewrite Nat.add_0_r.
  - rewrite bool_decide_eq_false_2 by (apply Hpre; by left).
    rewrite IH; [| intros h Hh; apply Hpre; by right | done].
    f_equal. lia.
Qed.

Lemma Modify_found e w url enabled name newURL pre f post :
  theList w = pre ++ f :: post ->
  (forall g, g ∈ pre -> URL g <> url) -> URL f = url ->
  Modify e w url enabled name newURL
  = let '(w1, r) := modifyAt e (emit [EvLock] w) (length pre) f enabled name newURL in
    (emit [EvUnlock] w1, r).
Proof.
  intros Hl Hpre Hf. unfold Modify.
  change (theList (emit [EvLock] w)) with (theList w). rewrite Hl.
  by rewrite modifyLoop_found.
Qed.

(** C9, as the code has it: with the url unchanged, (1) turning [Enabled]
    on while the cache file is there reparses that file, stores its rule
    count and makes no download: the only calls are the lock, the opening
    and closing of the cache file and the unlock; (2) when the cache file
    is not there, the descriptor is downloaded again, with its caching
    token and rule count cleared; (3) passing [true] for a filter that is
    enabled already makes no download and no reparse either: the rule count
    stays what it was. *)
Theorem Modify_same_url e w url name pre f post :
  theList w = pre ++ f :: post ->
  (forall g, g ∈ pre -> URL g <> url) ->
  URL f = url ->
  StatusChangedEnabled <> 0 ->
  Z.land StatusChangedEnabled StatusChangedURL = 0 ->
  (Enabled f = false ->
   forall file, disk w !! filePath w f = Some file ->
     Modify e w url true name url
     = (emit [EvUnlock]
          (setAt (length pre)
             (set_RuleCount (wrap64 (spec_ruleCount (data file)))
                (set_Enabled true (set_Name name f)))
             (emit [EvOpen (filePath w f) true; EvClose (filePath w f)]
                (emit [EvLock] w))),
        (StatusChangedEnabled, f, None)))
  /\ (Enabled f = false -> disk w !! filePath w f = None ->
      Modify e w url true name url
      = let '(w2, f2, err) :=
          downloadFilter e (emit [EvOpen (filePath w f) false] (emit [EvLock] w))
            (set_RuleCount 0 (set_LastModified ""
               (set_Enabled true (set_Name name f)))) in
        match err with
        | Some er => (emit [EvUnlock] (setAt (length pre) f w2),
                      (0, zeroFilter, Some er))
        | None => (emit [EvUnlock] (setAt (length pre) f2 w2),
                   (StatusChangedEnabled, f, None))
        end)
  /\ (Enabled f = true ->
      Modify e w url true name url
      = (emit [EvUnlock] (setAt (length pre) (set_Name name f) (emit [EvLock] w)),
         (0, f, None))).
Proof.
  intros Hl Hpre Hf Hne Hdisj.
  rewrite (Modify_found _ _ _ _ _ _ _ _ _ Hl Hpre Hf).
  assert (Hflag : negb (Z.land StatusChangedEnabled StatusChangedEnabled =? 0) = true).
  { rewrite Z.land_diag. by apply negb_true_iff, Z.eqb_neq. }
  unfold modifyAt.
  cbn [Enabled URL set_Name set_Enabled].
  split; [| split].
  - intros He file Hfile. rewrite He. cbn [Bool.eqb negb Z.lor].
    cbn [Enabled URL set_Name set_Enabled].
    rewrite Hf, bool_decide_eq_true_2 by done. cbn [negb].
    rewrite !Z.lor_0_l, Hdisj. cbn [Z.eqb negb]. rewrite Hflag. cbn [andb].
    change (filePath (emit [EvLock] w) (set_Enabled true (set_Name name f)))
      with (filePath w f).
    change (disk (emit [EvLock] w)) with (disk w).
    rewrite Hfile. rewrite parseFilter_spec. reflexivity.
  - intros He Hfile. rewrite He. cbn [Bool.eqb negb Z.lor].
    cbn [Enabled URL set_Name set_Enabled].
    rewrite Hf, bool_decide_eq_true_2 by done. cbn [negb].
    rewrite !Z.lor_0_l, Hdisj. cbn [Z.eqb negb]. rewrite Hflag. cbn [andb].
    change (filePath (emit [EvLock] w) (set_Enabled true (set_Name name f)))
      with (filePath w f).
    change (disk (emit [EvLock] w)) with (disk w).
    rewrite Hfile.
    destruct (downloadFilter _ _ _) as [[w2 f2] [er |]]; reflexivity.
  - intros He. rewrite He. cbn [Bool.eqb negb Z.lor].
    cbn [Enabled URL set_Name set_Enabled].
    rewrite Hf, bool_decide_eq_true_2 by done. reflexivity.
Qed.

(** ** [applyUpdate] *)

Lemma filePath_dir w1 w2 f :
  FilterDir (conf (fs w1)) = FilterDir (conf (fs w2)) ->
  filePath w1 f = filePath w2 f.
Proof. unfold filePath. by intros ->. Qed.

Lemma sameFrame_refl w : sameFrame w w.
Proof. by split. Qed.

Lemma sameFrame_trans w1 w2 w3 : sameFrame w1 w2 -> sameFrame w2 w3 -> sameFrame w1 w3.
Proof. intros [] []. split; congruence. Qed.

Lemma notifications_app t1 t2 :
  notifications (t1 ++ t2) = notifications t1 ++ notifications t2.
Proof. unfold notifications. apply omap_app. Qed.

Lemma sameFrame_setAt w i f f' :
  theList w !! i = Some f -> identity f' = identity f -> sameFrame w (setAt i f' w).
Proof.
  intros Hi Hid. split; try done.
  unfold setAt, setList, theList in *. simpl.
  rewrite list_fmap_insert, Hid. apply list_insert_id.
  by rewrite list_lookup_fmap, Hi.
Qed.

Lemma sameFrame_osChtimes w p t : sameFrame w (osChtimes p t w).
Proof.
  unfold osChtimes. destruct (disk w !! p); split; try done;
    simpl; by rewrite notifications_app, app_nil_r.
Qed.

Lemma sameFrame_osRename w p q : sameFrame w (osRename p q w).
Proof.
  unfold osRename. destruct (disk w !! p); split; try done;
    simpl; by rewrite notifications_app, app_nil_r.
Qed.

Lemma fs_osRename w p q : fs (osRename p q w) = fs w.
Proof. unfold osRename. by destruct (disk w !! p). Qed.

Lemma fs_osChtimes w p t : fs (osChtimes p t w) = fs w.
Proof. unfold osChtimes. by destruct (disk w !! p). Qed.

Lemma theList_setAt w i f : theList (setAt i f w) = <[i := f]> (theList w).
Proof. reflexivity. Qed.

Lemma applyLoop_frame uf n : forall i found w w' b,
  applyLoop uf n i found w = (w', b) -> sameFrame w w'.
Proof.
  induction n as [| n IH]; intros i found w w' b; simpl.
  - intros [= <- _]. apply sameFrame_refl.
  - destruct (theList w !! i) as [f |] eqn:Hi; [| intros [= <- _]; apply sameFrame_refl].
    case_bool_decide; [| apply IH].
    pose proof (sameFrame_setAt w i f (set_LastUpdated (LastUpdated uf) f) Hi eq_refl) as H1.
    case_bool_decide.
    + intros H2. apply IH in H2.
      eapply sameFrame_trans; [exact H1 |].
      eapply sameFrame_trans; [apply sameFrame_osChtimes | exact H2].
    + intros [= <- _].
      eapply sameFrame_trans; [exact H1 |].
      eapply sameFrame_trans; [apply sameFrame_osRename |].
      eapply (sameFrame_setAt _ _ (set_LastUpdated (LastUpdated uf) f)); [| done].
      rewrite (theList_fs _ _ (fs_osRename _ _ _)), theList_setAt.
      apply list_lookup_insert_eq. by eapply lookup_lt_Some.
Qed.

Lemma applyEntry_frame w uf : sameFrame w (applyEntry w uf).
Proof.
  unfold applyEntry.
  destruct (applyLoop _ _ _ _ _) as [w1 found] eqn:E.
  apply applyLoop_frame in E. destruct found; [done |].
  eapply sameFrame_trans; [exact E |].
  split; try done. simpl. by rewrite notifications_app, app_nil_r.
Qed.

Lemma foldl_applyEntry_frame batch : forall w, sameFrame w (foldl applyEntry w batch).
Proof.
  induction batch as [| uf batch IH]; intros w; simpl; [apply sameFrame_refl |].
  eapply sameFrame_trans; [apply applyEntry_frame | apply IH].
Qed.









(** The observers are called by [applyUpdate] only, before and after a
    batch that is not empty, each of them in the order of registration. *)
Lemma applyUpdate_notifications w :
  notifications (trace (applyUpdate w))
  = notifications (trace w)
    ++ match updated (fs w) with
       | [] => []
       | _ :: _ => map (fun u => (u, EventBeforeUpdate)) (Users (fs w))
                   ++ map (fun u => (u, EventAfterUpdate)) (Users (fs w))
       end.
Proof.
  assert (Hn : forall fl us, notifications (map (fun u => EvNotify u fl) us)
                             = map (fun u => (u, fl)) us).
  { intros fl us. induction us as [| u us IH]; [done |]. simpl. by rewrite <- IH. }
  unfold applyUpdate. destruct (updated (fs w)) as [| uf batch] eqn:Hb.
  { by rewrite app_nil_r. }
  set (w2 := emit [EvLock] (notifyUsers EventBeforeUpdate w)).
  pose proof (foldl_applyEntry_frame (uf :: batch) w2) as Hfr.
  fold w2. unfold notifyUsers at 1. cbn [trace emit setUpdated fs Users].
  rewrite !notifications_app, (frame_notify _ _ Hfr), (frame_users _ _ Hfr).
  unfold w2, notifyUsers. cbn [trace emit fs Users].
  rewrite !notifications_app, !Hn. simpl.
  by rewrite !app_nil_r, <- !app_assoc.
Qed.

(** C10: with an empty batch [applyUpdate] returns the world it was given:
    no observer is called, the lock is not taken and no file is touched;
    and in general the observers are called exactly when the batch is not
    empty. *)
Theorem applyUpdate_empty_batch w :
  (updated (fs w) = [] -> applyUpdate w = w)
  /\ (notifications (trace (applyUpdate w)) <> notifications (trace w) ->
      updated (fs w) <> []).
Proof.
  split.
  - unfold applyUpdate. by intros ->.
  - rewrite applyUpdate_notifications. intros H Hb. rewrite Hb in H.
    by rewrite app_nil_r in H.
Qed.

(** What [applyUpdate] keeps of every descriptor. *)

Lemma applyLoop_keeps {B} (h : Filter -> B) uf :
  (forall t f, h (set_LastUpdated t f) = h f) ->
  (forall c f, h (set_RuleCount c f) = h f) ->
  forall n i found w w' b,
  applyLoop uf n i found w = (w', b) -> h <$> theList w' = h <$> theList w.
Proof.
  intros H1 H2.
  assert (Hset : forall w i f f', theList w !! i = Some f -> h f' = h f ->
                   h <$> theList (setAt i f' w) = h <$> theList w).
  { intros w i f f' Hi Hh. rewrite theList_setAt, list_fmap_insert, Hh.
    apply list_insert_id. by rewrite list_lookup_fmap, Hi. }
  induction n as [| n IH]; intros i found w w' b; simpl; [by intros [= <- _] |].
  destruct (theList w !! i) as [f |] eqn:Hi; [| by intros [= <- _]].
  case_bool_decide; [| apply IH].
  case_bool_decide.
  - intros Hloop. apply IH in Hloop. rewrite Hloop.
    rewrite (theList_fs _ _ (fs_osChtimes _ _ _)). by eapply Hset.
  - intros [= <- _].
    erewrite Hset; [| | apply H2].
    + rewrite (theList_fs _ _ (fs_osRename _ _ _)). by eapply Hset.
    + rewrite (theList_fs _ _ (fs_osRename _ _ _)), theList_setAt.
      apply list_lookup_insert_eq. by eapply lookup_lt_Some.
Qed.

Lemma applyUpdate_keeps {B} (h : Filter -> B) w :
  (forall t f, h (set_LastUpdated t f) = h f) ->
  (forall c f, h (set_RuleCount c f) = h f) ->
  h <$> theList (applyUpdate w) = h <$> theList w.
Proof.
  intros H1 H2. unfold applyUpdate.
  destruct (updated (fs w)) as [| uf batch]; [done |].
  set (w2 := emit [EvLock] (notifyUsers EventBeforeUpdate w)).
  change (theList w) with (theList w2).
  generalize (uf :: batch). intros l. generalize w2. clear w2.
  induction l as [| u l IH]; intros w2; [done |].
  simpl foldl.
  change (theList (notifyUsers EventAfterUpdate
            (setUpdated [] (emit [EvUnlock] (foldl applyEntry (applyEntry w2 u) l)))))
    with (theList (notifyUsers EventAfterUpdate
            (setUpdated [] (emit [EvUnlock] (foldl applyEntry (applyEntry w2 u) l))))).
  rewrite IH. unfold applyEntry.
  destruct (applyLoop _ _ _ _ _) as [w3 found] eqn:E.
  apply (applyLoop_keeps h u H1 H2) in E. by destruct found.
Qed.

(** ** [updateAll] *)


Lemma nextFrom_Some tnow interval l : forall k i f,
  nextFrom tnow interval k l = Some (i, f) ->
  exists f0, l !! (i - k)%nat = Some f0 /\ (k <= i)%nat /\ due tnow f0 = true
             /\ f = set_nextUpdate (tnow + interval) f0.
Proof.
  induction l as [| g l IH]; intros k i f; simpl; [done |].
  fold (due tnow g). destruct (due tnow g) eqn:Hd.
  - intros [= <- <-]. exists g. by rewrite Nat.sub_diag.
  - intros H. apply IH in H as (f0 & Hl & Hk & Hdue & ->). exists f0.
    replace (i - k)%nat with (S (i - S k)) by lia. split; [done |].
    split; [lia | done].
Qed.

Lemma nextFrom_None tnow interval l : forall k,
  nextFrom tnow interval k l = None -> forall g, g ∈ l -> due tnow g = false.
Proof.
  induction l as [| g l IH]; intros k; simpl; [by intros _ g Hg; inversion Hg |].
  fold (due tnow g). destruct (due tnow g) eqn:Hd; [done |].
  intros H h Hh. inversion Hh; subst; [done |]. by eapply IH.
Qed.

Lemma getNextToUpdate_Some tnow w w1 i f :
  getNextToUpdate tnow w = (w1, Some (i, f)) ->
  exists f0, theList w !! i = Some f0 /\ due tnow f0 = true
    /\ f = set_nextUpdate
             (tnow + int64 (UpdateIntervalHours (conf (fs w)) * Hour)) f0
    /\ w1 = setAt i f w.
Proof.
  unfold getNextToUpdate.
  destruct (nextFrom _ _ _ _) as [[j g] |] eqn:E; [| done].
  intros [= <- <- <-]. apply nextFrom_Some in E as (f0 & Hl & _ & Hd & ->).
  rewrite Nat.sub_0_r in Hl. by exists f0.
Qed.

Lemma set_nextUpdate_id f : set_nextUpdate (nextUpdate f) f = f.
Proof. by destruct f. Qed.

Lemma Unix_add_seconds t n : Unix (t + n * Second) = Unix t + n.
Proof. unfold Unix. by rewrite Z.div_add. Qed.

Lemma Unix_mono a b : a <= b -> Unix a <= Unix b.
Proof. intros H. unfold Unix. by apply Z.div_le_mono. Qed.

Lemma pending_insert smax l : forall i f0 x,
  l !! i = Some f0 -> pendingB smax f0 = true -> pendingB smax x = false ->
  S (pending smax (<[i := x]> l)) = pending smax l.
Proof.
  induction l as [| g l IH]; intros i f0 x Hi H0 Hx; [done |].
  destruct i as [| i]; simpl in *.
  - injection Hi as ->. by rewrite H0, Hx.
  - rewrite <- (IH i f0 x Hi H0 Hx). lia.
Qed.

(** No observer is called during a download. *)
Lemma stage_quiet e w tmp f r w' f' err :
  stage e w tmp f r = (w', f', err) ->
  notifications (trace w') = notifications (trace w).
Proof.
  unfold stage, cleanup.
  destruct (writeFile _ _ _ _) as [[f1 out] [er |]];
    [| destruct (renameFails e)]; intros [= <- _ _]; simpl;
    rewrite ?notifications_app; simpl; by rewrite ?app_nil_r.
Qed.

Lemma downloadFilter_quiet e w f w' f' err :
  downloadFilter e w f = (w', f', err) ->
  notifications (trace w') = notifications (trace w).
Proof.
  unfold downloadFilter, cleanup.
  destruct (tempName e) as [tmp |]; [| by intros [= <- _ _]].
  destruct (disk w !! tmp); [by intros [= <- _ _] |].
  destruct (IsAbs (URL f)).
  - destruct (openFile e) as [r |].
    + intros H. apply stage_quiet in H. rewrite H. simpl.
      rewrite !notifications_app. simpl. by rewrite !app_nil_r.
    + intros [= <- _ _]. simpl. rewrite !notifications_app. simpl.
      by rewrite !app_nil_r.
  - destruct (negb (newRequest e)).
    { intros [= <- _ _]. simpl. rewrite !notifications_app. simpl.
      by rewrite !app_nil_r. }
    destruct (doRequest e) as [| status lm body].
    { intros [= <- _ _]. simpl. rewrite !notifications_app. simpl.
      by rewrite !app_nil_r. }
    destruct (status =? 304).
    { intros [= <- _ _]. simpl. rewrite !notifications_app. simpl.
      by rewrite !app_nil_r. }
    destruct (negb (status =? 200)).
    { intros [= <- _ _]. simpl. rewrite !notifications_app. simpl.
      by rewrite !app_nil_r. }
    intros H. apply stage_quiet in H. rewrite H. simpl.
    rewrite !notifications_app. simpl. by rewrite !app_nil_r.
Qed.

(** One round of [updateAll] that picks a candidate, whatever the download
    does: the descriptor picked is rescheduled, nothing else in the
    registry changes, and the pass goes on with the rounds that follow. *)
Lemma updateAll_round r w w1 i f :
  getNextToUpdate (pickTime r) (emit [EvLock] w) = (w1, Some (i, f)) ->
  exists f0 T w',
    theList w !! i = Some f0 /\ due (pickTime r) f0 = true
    /\ (T = retryTime r + 10 * Second
        \/ T = pickTime r + int64 (UpdateIntervalHours (conf (fs w)) * Hour))
    /\ (forall rest, updateAll (r :: rest) w = updateAll rest w')
    /\ theList w' = <[i := set_nextUpdate T f0]> (theList w)
    /\ UpdateIntervalHours (conf (fs w')) = UpdateIntervalHours (conf (fs w))
    /\ (doRequest (fetch r) <> DoFails -> networkError f0 = false ->
        T = pickTime r + int64 (UpdateIntervalHours (conf (fs w)) * Hour))
    /\ Users (fs w') = Users (fs w)
    /\ notifications (trace w') = notifications (trace w).
Proof.
  intros Hnext.
  pose proof (getNextToUpdate_Some _ _ _ _ _ Hnext) as (f0 & Hi & Hdue & Hf & Hw1).
  change (theList (emit [EvLock] w)) with (theList w) in Hi.
  change (fs (emit [EvLock] w)) with (fs w) in Hf.
  destruct (downloadFilter (fetch r) (fst (nextFilterID (emit [EvUnlock] w1)))
              (set_ID (snd (nextFilterID (emit [EvUnlock] w1))) f))
    as [[w3 uf] err] eqn:Hdl.
  pose proof (downloadFilter_fs _ _ _ _ _ _ Hdl) as (Hfs & Hne & Htr).
  assert (Hl3 : theList w3 = <[i := f]> (theList w)).
  { rewrite (theList_fs _ _ Hfs). subst w1. reflexivity. }
  assert (Hh3 : UpdateIntervalHours (conf (fs w3)) = UpdateIntervalHours (conf (fs w))).
  { rewrite Hfs. subst w1. reflexivity. }
  assert (Hus3 : Users (fs w3) = Users (fs w)).
  { rewrite Hfs. subst w1. reflexivity. }
  assert (Hn3 : notifications (trace w3) = notifications (trace w)).
  { rewrite (downloadFilter_quiet _ _ _ _ _ _ Hdl). subst w1. simpl.
    rewrite !notifications_app. simpl. by rewrite !app_nil_r. }
  assert (Hstep : forall rest,
            updateAll (r :: rest) w
            = match err with
              | Some _ =>
                  if networkError uf then
                    updateAll rest
                      (emit [EvUnlock]
                         (setAt i (set_nextUpdate (retryTime r + 10 * Second) f)
                                (emit [EvLock] w3)))
                  else updateAll rest w3
              | None => updateAll rest (setUpdated (updated (fs w3) ++ [uf]) w3)
              end).
  { intros rest. simpl. rewrite Hnext. unfold nextFilterID in *.
    cbv beta iota zeta. simpl in Hdl. by rewrite Hdl. }
  exists f0.
  destruct err as [er |]; [destruct (networkError uf) eqn:Hflag |].
  - exists (retryTime r + 10 * Second). eexists.
    split; [done |]. split; [done |]. split; [by left |].
    split; [exact Hstep |]. split; [| split; [exact Hh3 |]; split; [| split]].
    + change (theList (emit _ (setAt i ?g (emit _ w3)))) with (<[i := g]> (theList w3)).
      rewrite Hl3, list_insert_insert_eq. by subst f.
    + intros Hdo Hf0. exfalso. simpl in Hne.
      rewrite Hf in Hne. simpl in Hne. rewrite Hf0 in Hne. simpl in Hne.
      symmetry in Hne. by destruct (Htr Hne).
    + exact Hus3.
    + simpl. rewrite !notifications_app, Hn3. simpl. by rewrite !app_nil_r.
  - exists (pickTime r + int64 (UpdateIntervalHours (conf (fs w)) * Hour)), w3.
    split; [done |]. split; [done |]. split; [by right |].
    split; [exact Hstep |]. split; [| done]. by rewrite Hl3, Hf.
  - exists (pickTime r + int64 (UpdateIntervalHours (conf (fs w)) * Hour)).
    eexists. split; [done |]. split; [done |]. split; [by right |].
    split; [exact Hstep |]. split; [| done].
    change (theList (setUpdated ?u w3)) with (theList w3). by rewrite Hl3, Hf.
Qed.

(** A round of [updateAll] that finds nothing due ends the pass. *)
Lemma updateAll_last r rest w :
  (forall g, g ∈ theList w -> due (pickTime r) g = false) ->
  updateAll (r :: rest) w = Some (applyUpdate (emit [EvUnlock] (emit [EvLock] w))).
Proof.
  intros Hnone. simpl. unfold getNextToUpdate.
  change (theList (emit [EvLock] w)) with (theList w).
  destruct (nextFrom _ _ _ _) as [[i f] |] eqn:E; [| done].
  apply nextFrom_Some in E as (f0 & Hl & _ & Hd & _).
  apply list_elem_of_lookup_2 in Hl. by rewrite (Hnone f0 Hl) in Hd.
Qed.

(** A pass whose clock readings stay within ten seconds, with an update
    interval of ten seconds or more, ends as soon as it has one round more
    than there are descriptors to pick: it has then rescheduled every
    descriptor that was due when it began, and left alone every descriptor
    that could not become due. *)
Lemma updateAll_ends s0 rounds : forall w,
  Forall (inWindow s0) rounds ->
  10 * Second <= int64 (UpdateIntervalHours (conf (fs w)) * Hour) ->
  (pending (s0 + 10) (theList w) < length rounds)%nat ->
  exists wl,
    updateAll rounds w = Some (applyUpdate wl)
    /\ length (theList wl) = length (theList w)
    /\ forall j g, theList w !! j = Some g ->
         exists T,
           theList wl !! j = Some (set_nextUpdate T g)
           /\ (T = nextUpdate g \/ s0 + 10 <= Unix T)
           /\ (pendingB (s0 + 10) g = false -> T = nextUpdate g)
           /\ (Enabled g = true -> Unix (nextUpdate g) <= s0 -> s0 + 10 <= Unix T).
Proof.
  induction rounds as [| r rest IH]; intros w Hwin Hint Hcount;
    [simpl in Hcount; lia |].
  apply Forall_cons in Hwin as [[[Hlo Hhi] Hretry] Hwin].
  destruct (getNextToUpdate (pickTime r) (emit [EvLock] w)) as [w1 [[i f] |]] eqn:Hnext.
  - destruct (updateAll_round _ _ _ _ _ Hnext)
      as (f0 & T & w' & Hi & Hdue & HT & Hstep & Hl & Hh & _).
    assert (HT10 : s0 + 10 <= Unix T).
    { destruct HT as [-> | ->].
      - rewrite Unix_add_seconds. lia.
      - etransitivity; [| apply Unix_mono; apply Z.add_le_mono_l; exact Hint].
        rewrite Unix_add_seconds. lia. }
    unfold due in Hdue. apply andb_true_iff in Hdue as [Hen Hle].
    apply Z.leb_le in Hle.
    assert (Hp0 : pendingB (s0 + 10) f0 = true).
    { unfold pendingB. rewrite Hen. simpl. apply Z.ltb_lt. lia. }
    assert (Hp1 : pendingB (s0 + 10) (set_nextUpdate T f0) = false).
    { unfold pendingB. simpl. apply andb_false_iff. right. apply Z.ltb_ge. lia. }
    pose proof (pending_insert _ _ _ _ _ Hi Hp0 Hp1) as Hdec.
    destruct (IH w') as (wl & Hres & Hlen & Hall).
    + done.
    + by rewrite Hh.
    + rewrite Hl. simpl in Hcount. lia.
    + exists wl. split; [by rewrite Hstep |].
      split; [by rewrite Hlen, Hl, length_insert |].
      intros j g Hj. destruct (decide (j = i)) as [-> | Hne].
      * rewrite Hi in Hj. injection Hj as <-.
        destruct (Hall i (set_nextUpdate T f0)) as (T' & Hw & Hor & Hkeep & _).
        { rewrite Hl. apply list_lookup_insert_eq. by eapply lookup_lt_Some. }
        rewrite (Hkeep Hp1) in Hw. simpl in Hw.
        exists T. split; [exact Hw |]. split; [by right |].
        split; [by rewrite Hp0 | done].
      * apply Hall. rewrite Hl. by rewrite list_lookup_insert_ne.
  - assert (Hnone : forall g, g ∈ theList w -> due (pickTime r) g = false).
    { unfold getNextToUpdate in Hnext.
      change (theList (emit [EvLock] w)) with (theList w) in Hnext.
      destruct (nextFrom _ _ _ _) as [[k c] |] eqn:E; [done |].
      by apply (nextFrom_None _ _ _ _ E). }
    exists (emit [EvUnlock] (emit [EvLock] w)). split; [by apply updateAll_last |].
    split; [done |].
    intros j g Hj. exists (nextUpdate g).
    change (theList (emit _ (emit _ w))) with (theList w).
    rewrite set_nextUpdate_id. split; [done |]. split; [by left |].
    split; [done |]. intros Hen Hle. exfalso.
    apply list_elem_of_lookup_2 in Hj. pose proof (Hnone g Hj) as Hnd.
    unfold due in Hnd. rewrite Hen in Hnd. simpl in Hnd.
    apply Z.leb_gt in Hnd. lia.
Qed.

(** C8: in a round of [updateAll] whose download fails, the descriptor
    picked keeps its place in the registry and nothing joins the batch;
    its [nextUpdate] becomes the clock plus 10 seconds when the error is
    the one of [HTTPClient.Do], and stays the clock of the pick plus the
    update interval for any other error.  The pass goes on with the rounds
    that follow: as long as another descriptor that was due is left, the
    next round picks a candidate, and the pass ends, with the batch
    applied, only in a round that finds nothing due.  When the clock stays
    within ten seconds of the pick, the interval is ten seconds or more and
    the pass has a round for every descriptor it can pick, the pass does
    end: the descriptor whose download failed then has the [nextUpdate]
    above, and every other descriptor that was due has been picked and
    rescheduled in its turn. *)
Theorem updateAll_failed_fetch r w w1 i f w2 id w3 uf er :
  getNextToUpdate (pickTime r) (emit [EvLock] w) = (w1, Some (i, f)) ->
  nextFilterID (emit [EvUnlock] w1) = (w2, id) ->
  downloadFilter (fetch r) w2 (set_ID id f) = (w3, uf, Some er) ->
  networkError f = false ->
  let interval := int64 (UpdateIntervalHours (conf (fs w)) * Hour) in
  let T := match er with
           | ErrTransport => retryTime r + 10 * Second
           | _ => pickTime r + interval
           end in
  exists f0 w',
    theList w !! i = Some f0 /\ due (pickTime r) f0 = true
    /\ (er = ErrTransport ->
        doRequest (fetch r) = DoFails /\ IsAbs (URL f0) = false)
    /\ (forall rest, updateAll (r :: rest) w = updateAll rest w')
    /\ theList w' = <[i := set_nextUpdate T f0]> (theList w)
    /\ updated (fs w') = updated (fs w)
    /\ disk w' = disk w
    /\ (forall r' j g,
          Unix (pickTime r) <= Unix (pickTime r') ->
          j <> i -> theList w !! j = Some g -> due (pickTime r) g = true ->
          exists c, snd (getNextToUpdate (pickTime r') (emit [EvLock] w')) = Some c)
    /\ (forall r' rest',
          (forall g, g ∈ theList w' -> due (pickTime r') g = false) ->
          updateAll (r :: r' :: rest') w
          = Some (applyUpdate (emit [EvUnlock] (emit [EvLock] w'))))
    /\ (forall rest,
          Unix (pickTime r) <= Unix (retryTime r) ->
          Forall (inWindow (Unix (pickTime r))) rest ->
          10 * Second <= interval ->
          (pending (Unix (pickTime r) + 10) (theList w) <= length rest)%nat ->
          exists wf,
            updateAll (r :: rest) w = Some wf
            /\ (nextUpdate <$> theList wf) !! i = Some T
            /\ forall j g,
                 j <> i -> theList w !! j = Some g -> due (pickTime r) g = true ->
                 exists Tj, (nextUpdate <$> theList wf) !! j = Some Tj
                            /\ Unix (pickTime r) + 10 <= Unix Tj).
Proof.
  intros Hnext Hid Hdl Hflag interval T.
  pose proof (getNextToUpdate_Some _ _ _ _ _ Hnext) as (f0 & Hi & Hdue & Hf & Hw1).
  change (theList (emit [EvLock] w)) with (theList w) in Hi.
  change (fs (emit [EvLock] w)) with (fs w) in Hf.
  fold interval in Hf.
  pose proof (downloadFilter_fs _ _ _ _ _ _ Hdl) as (Hfs & Hne & Htr).
  pose proof (downloadFilter_spec _ _ _ _ _ _ Hdl) as [Hd _].
  simpl in Hne. rewrite Hflag in Hne. simpl in Hne.
  injection Hid as <- <-.
  assert (Hl3 : theList w3 = <[i := f]> (theList w)).
  { rewrite (theList_fs _ _ Hfs). subst w1. reflexivity. }
  assert (Hd3 : disk w3 = disk w) by (rewrite Hd; subst w1; reflexivity).
  assert (Hu3 : updated (fs w3) = updated (fs w)) by (rewrite Hfs; subst w1; reflexivity).
  assert (Hh3 : UpdateIntervalHours (conf (fs w3)) = UpdateIntervalHours (conf (fs w)))
    by (rewrite Hfs; subst w1; reflexivity).
  assert (Hlen : (i < length (theList w))%nat) by (by eapply lookup_lt_Some).
  set (w' := if networkError uf
             then emit [EvUnlock]
                    (setAt i (set_nextUpdate (retryTime r + 10 * Second) f)
                           (emit [EvLock] w3))
             else w3).
  assert (Hstep : forall rest, updateAll (r :: rest) w = updateAll rest w').
  { intros rest. simpl. rewrite Hnext. unfold nextFilterID. cbv beta iota zeta.
    unfold nextFilterID in Hdl. rewrite Hdl. unfold w'. by destruct (networkError uf). }
  assert (HT : set_nextUpdate T f0
               = if networkError uf then set_nextUpdate (retryTime r + 10 * Second) f
                 else f).
  { rewrite Hne. unfold T. subst f. by destruct er. }
  assert (Hlist : theList w' = <[i := set_nextUpdate T f0]> (theList w)).
  { rewrite HT. unfold w'. destruct (networkError uf); [| done].
    change (theList (emit _ (setAt i ?g (emit _ w3)))) with (<[i := g]> (theList w3)).
    by rewrite Hl3, list_insert_insert_eq. }
  assert (Hh : UpdateIntervalHours (conf (fs w')) = UpdateIntervalHours (conf (fs w)))
    by (unfold w'; by destruct (networkError uf)).
  exists f0, w'.
  split; [done |]. split; [done |].
  split.
  { intros ->. destruct (Htr eq_refl) as [Ha Hdo]. by rewrite Hf in Ha. }
  split; [done |]. split; [done |].
  split; [unfold w'; by destruct (networkError uf) |].
  split; [unfold w'; by destruct (networkError uf) |].
  split.
  { intros r' j g Hmono Hj Hg Hdg.
    unfold getNextToUpdate.
    change (theList (emit [EvLock] ?x)) with (theList x). rewrite Hlist.
    destruct (nextFrom _ _ _ _) as [[k c] |] eqn:E; [by eexists |].
    exfalso.
    assert (Hg' : g ∈ <[i := set_nextUpdate T f0]> (theList w)).
    { apply list_elem_of_lookup. exists j. by rewrite list_lookup_insert_ne. }
    pose proof (nextFrom_None _ _ _ _ E g Hg') as Hnd.
    unfold due in *. apply andb_true_iff in Hdg as [He Hle].
    rewrite He in Hnd. simpl in Hnd. apply Z.leb_le in Hle.
    apply Z.leb_gt in Hnd. lia. }
  split.
  { intros r' rest' Hnone. rewrite Hstep. by apply updateAll_last. }
  intros rest Hretry Hwin Hint Hcount.
  set (s0 := Unix (pickTime r)) in *.
  assert (HT10 : s0 + 10 <= Unix T).
  { unfold T. destruct er;
      try (etransitivity; [| apply Unix_mono; apply Z.add_le_mono_l; exact Hint];
           rewrite Unix_add_seconds; unfold s0; lia).
    rewrite Unix_add_seconds. lia. }
  pose proof Hdue as Hdue0.
  unfold due in Hdue0. apply andb_true_iff in Hdue0 as [Hen Hle].
  apply Z.leb_le in Hle. fold s0 in Hle.
  assert (Hp0 : pendingB (s0 + 10) f0 = true).
  { unfold pendingB. rewrite Hen. simpl. apply Z.ltb_lt. lia. }
  assert (Hp1 : pendingB (s0 + 10) (set_nextUpdate T f0) = false).
  { unfold pendingB. simpl. apply andb_false_iff. right. apply Z.ltb_ge. lia. }
  pose proof (pending_insert _ _ _ _ _ Hi Hp0 Hp1) as Hdec.
  destruct (updateAll_ends s0 rest w') as (wl & Hres & _ & Hall).
  { done. }
  { by rewrite Hh. }
  { rewrite Hlist. lia. }
  assert (Hnu : nextUpdate <$> theList (applyUpdate wl) = nextUpdate <$> theList wl)
    by (by apply applyUpdate_keeps).
  exists (applyUpdate wl). split; [by rewrite Hstep |]. rewrite Hnu. split.
  - destruct (Hall i (set_nextUpdate T f0)) as (T' & Hw & _ & Hkeep & _).
    { rewrite Hlist. by apply list_lookup_insert_eq. }
    rewrite (Hkeep Hp1) in Hw. by rewrite list_lookup_fmap, Hw.
  - intros j g Hj Hg Hdg.
    destruct (Hall j g) as (Tj & Hw & _ & _ & Hpicked).
    { rewrite Hlist. by rewrite list_lookup_insert_ne. }
    unfold due in Hdg. apply andb_true_iff in Hdg as [Heg Hlg].
    apply Z.leb_le in Hlg.
    exists Tj. split; [by rewrite list_lookup_fmap, Hw |]. by apply Hpicked.
Qed.

(** * Further facts *)

(** ** The validator and the parser *)

Lemma parseLoop_read_error n : forall data rc,
  length data = n -> parseLoop data false rc = None.
Proof.
  induction n as [n IH] using lt_wf_ind. intros data rc Hn.
  rewrite parseLoop_eq.
  destruct (ReadString data x0a) as [[line rest] found] eqn:E.
  destruct found; [| done].
  pose proof (ReadString_shorter _ _ _ _ E) as Hlt.
  destruct (notRule _); (eapply IH; [| reflexivity]; lia).
Qed.

(** X1: [parseFilter] on a reader that ends with [io.EOF] stores the
    number of rule lines of all the data of the reader, however the reader
    cuts it; on a reader that fails it returns the error and leaves the
    descriptor as it was. *)
Theorem parseFilter_counts f reader :
  match ending reader with
  | EndEOF _ =>
      parseFilter f reader
      = (set_RuleCount (wrap64 (spec_ruleCount (readerData reader))) f, None)
  | EndErr => parseFilter f reader = (f, Some ErrRead)
  end.
Proof.
  unfold parseFilter. destruct (ending reader) as [d |].
  - by rewrite (parseLoop_spec _ _ _ eq_refl).
  - by rewrite (parseLoop_read_error _ _ _ eq_refl).
Qed.

(** X2: the rule count that [parseFilter] finds in a file written by a
    successful [writeFile] is the rule count [writeFile] stored. *)
Theorem parseFilter_after_writeFile f g reader wfail f' out' :
  writeFile f reader wfail [] = (f', out', None) ->
  parseFilter g (mkReader [] (EndEOF out'))
  = (set_RuleCount (RuleCount f') g, None).
Proof.
  intros H. apply writeFile_ok in H as (_ & -> & -> & _).
  by rewrite parseFilter_spec.
Qed.

(** X3: when no write fails, [writeFile] accepts a stream exactly when the
    stream ends with [io.EOF], every byte of it is printable and its first
    4096 bytes do not look like HTML; it then appends the whole stream to
    the output file.  So whether a payload is accepted, and what is
    written and counted, does not depend on how the reads cut it, and an
    HTML marker after the first 4096 bytes is not looked for. *)
Theorem writeFile_accepts_iff f reader wfail out :
  (forall k, wfail k = false) ->
  (snd (writeFile f reader wfail out) = None
   <-> (exists d, ending reader = EndEOF d)
       /\ isPrintableText (readerData reader) = true
       /\ isHTML (take 4096 (readerData reader)) = false)
  /\ (snd (writeFile f reader wfail out) = None ->
      writeFile f reader wfail out
      = (set_RuleCount (wrap64 (spec_ruleCount (readerData reader))) f,
         out ++ readerData reader, None)).
Proof.
  intros Hw.
  assert (Hok : snd (writeFile f reader wfail out) = None ->
                (exists d, ending reader = EndEOF d)
                /\ writeFile f reader wfail out
                   = (set_RuleCount (wrap64 (spec_ruleCount (readerData reader))) f,
                      out ++ readerData reader, None)
                /\ isPrintableText (readerData reader) = true
                /\ isHTML (take 4096 (readerData reader)) = false).
  { destruct (writeFile f reader wfail out) as [[f' out'] err] eqn:E. simpl.
    intros ->. by apply writeFile_ok in E as (? & -> & -> & ? & ?). }
  split; [split |].
  - intros H. destruct (Hok H) as (? & _ & ? & ?). done.
  - intros ([d Hd] & Hp & Hh). by rewrite (writeFile_succeeds _ _ _ _ _ Hd Hw Hp Hh).
  - intros H. by destruct (Hok H) as (_ & ? & _).
Qed.

Lemma writeStep_html wfail eof out0 D d X s :
  (forall k, wfail k = false) -> wInv out0 D s ->
  isPrintableText d = true ->
  isHTML (take 4096 (D ++ d ++ X)) = true ->
  (eof = true -> X = []) ->
  (exists o, writeStep wfail eof d s = inl (ErrHTML, o))
  \/ (eof = false /\ exists s', writeStep wfail eof d s = inr s').
Proof.
  intros Hw [Hout Hchunk Hcount Hprint Hfirst] Hd Hh HX. unfold writeStep.
  rewrite Hd, Hw. simpl negb. cbv iota.
  destruct (w_first s) as [fc |].
  - destruct Hfirst as [-> HD].
    pose proof (gatherUntil_take D d HD) as Hg.
    destruct (gatherUntil D d 4096) as [fc' k]. simpl in Hg. subst fc'.
    assert (Hsniff : (blen (take 4096 (D ++ d)) =? 4096) || eof = true ->
                     isHTML (take 4096 (D ++ d)) = true).
    { intros Hc. rewrite app_assoc in Hh. apply orb_true_iff in Hc as [Hc | ->].
      - apply Z.eqb_eq in Hc. unfold blen in Hc. rewrite length_take in Hc.
        rewrite take_app_le in Hh by lia. done.
      - rewrite (HX eq_refl), app_nil_r in Hh. done. }
    destruct (_ || eof) eqn:Ec.
    + rewrite (Hsniff eq_refl). left. by eexists.
    + right. apply orb_false_iff in Ec as [_ ->]. split; [done |].
      destruct (lineLoop _ _ _ _). by eexists.
  - exfalso. destruct Hfirst as [Hno HD]. unfold blen in HD.
    rewrite take_app_le in Hh by lia. congruence.
Qed.

Lemma writeLoop_html wfail out0 rs : forall D s d,
  (forall k, wfail k = false) -> wInv out0 D s ->
  isPrintableText (concat rs ++ d) = true ->
  isHTML (take 4096 (D ++ concat rs ++ d)) = true ->
  exists o, writeLoop wfail rs (EndEOF d) s = inl (ErrHTML, o).
Proof.
  induction rs as [| c rs IH]; intros D s d Hw Hinv Hp Hh; simpl in *.
  - destruct (writeStep_html wfail true out0 D d [] s) as [H | [? _]]; try done.
    by rewrite app_nil_r.
  - rewrite <- app_assoc in *. rewrite isPrintableText_app in Hp.
    apply andb_true_iff in Hp as [Hc Hp].
    destruct (writeStep_html wfail false out0 D c (concat rs ++ d) s)
      as [[o ->] | [_ [s' Hs']]]; try done.
    + by eexists.
    + rewrite Hs'. apply (IH (D ++ c)); [done | by eapply writeStep_more | done |].
      by rewrite <- app_assoc.
Qed.

(** X4: when no write fails, a stream that ends with [io.EOF], is
    printable, and has [<html] or [<!doctype], in any case of the ASCII
    letters, within its first 4096 bytes is rejected with the HTML error,
    and the descriptor is left as it was. *)
Theorem writeFile_rejects_html f reader wfail out d :
  (forall k, wfail k = false) ->
  ending reader = EndEOF d ->
  isPrintableText (readerData reader) = true ->
  isHTML (take 4096 (readerData reader)) = true ->
  fst (fst (writeFile f reader wfail out)) = f
  /\ snd (writeFile f reader wfail out) = Some ErrHTML.
Proof.
  intros Hw Hfin Hp Hh. unfold writeFile, readerData in *. rewrite Hfin in *.
  destruct (writeLoop_html wfail out (reads reader) [] _ d Hw (wInv_init out) Hp Hh)
    as [o ->]. done.
Qed.

(** ** [Delete] *)

Lemma deleteLoop_spec url l : forall nf found,
  deleteLoop url l nf found
  = (nf ++ filter (fun f => URL f <> url) l,
     match last (filter (fun f => URL f = url) l) with
     | Some f => Some f
     | None => found
     end).
Proof.
  induction l as [| f l IH]; intros nf found; simpl.
  - by rewrite app_nil_r.
  - rewrite !filter_cons. case_bool_decide as Hf.
    + rewrite (decide_True (P := URL f = url)) by done.
      rewrite (decide_False (P := URL f <> url)) by (intros Hne; by apply Hne).
      rewrite IH. f_equal. rewrite last_cons.
      by destruct (last (filter (fun f0 => URL f0 = url) l)).
    + rewrite (decide_False (P := URL f = url)) by done.
      rewrite (decide_True (P := URL f <> url)) by done.
      by rewrite IH, <- app_assoc.
Qed.

Lemma filter_all {A} (P : A -> Prop) `{forall x, Decision (P x)} (l : list A) :
  (forall x, x ∈ l -> P x) -> filter P l = l.
Proof.
  induction l as [| a l IH]; intros Hall; [done |].
  rewrite filter_cons_True by (apply Hall; by left).
  f_equal. apply IH. intros x Hx. apply Hall. by right.
Qed.

(** X5: [Delete] removes every descriptor that has the url and keeps the
    others in their order; it returns nothing, and changes nothing, exactly
    when no descriptor has the url; otherwise it returns the last
    descriptor that had the url, with its cache path filled in.  It never
    touches the filter directory or the id counter. *)
Theorem Delete_removes_url w url :
  disk (fst (Delete w url)) = disk w
  /\ nextID (fs (fst (Delete w url))) = nextID (fs w)
  /\ theList (fst (Delete w url)) = filter (fun f => URL f <> url) (theList w)
  /\ (snd (Delete w url) = None <-> forall f, f ∈ theList w -> URL f <> url)
  /\ (forall found, snd (Delete w url) = Some found ->
        exists f, last (filter (fun f => URL f = url) (theList w)) = Some f
                  /\ found = set_Path (filePath w f) f).
Proof.
  unfold Delete. change (theList (emit [EvLock] w)) with (theList w).
  rewrite deleteLoop_spec. simpl app.
  destruct (last (filter (fun f => URL f = url) (theList w))) as [g |] eqn:E; simpl.
  - repeat split; try done.
    + intros Hno. apply last_Some_elem_of in E.
      apply list_elem_of_filter in E as [Hu Hin]. by apply Hno in Hin.
    + intros found [= <-]. by exists g.
  - apply last_None in E.
    assert (Hno : forall f, f ∈ theList w -> URL f <> url).
    { intros f Hin Hu.
      assert (Hf : f ∈ filter (fun f => URL f = url) (theList w))
        by (by apply list_elem_of_filter).
      rewrite E in Hf. by apply elem_of_nil in Hf. }
    repeat split; try done.
    symmetry. by apply filter_all.
Qed.

(** ** [Add] *)

(** The descriptor after a successful [downloadFilter]. *)
Lemma downloadFilter_result e w f w' f' :
  downloadFilter e w f = (w', f', None) ->
  (sourceOf e f = None /\ f' = set_Path "" (set_LastUpdated (now e) f)
   /\ disk w' = disk w)
  \/ (exists r f0,
        sourceOf e f = Some r
        /\ (f0 = f \/ exists lm, f0 = set_LastModified lm f)
        /\ f' = set_LastUpdated (now e)
                  (set_Path (filePath w f)
                     (set_RuleCount (wrap64 (spec_ruleCount (readerData r))) f0))
        /\ disk w' = <[filePath w f := mkFile (readerData r) (now e)]> (disk w)).
Proof.
  unfold downloadFilter, sourceOf.
  destruct (tempName e) as [tmp |]; [| done].
  destruct (disk w !! tmp) eqn:Hfresh; [done |].
  assert (Hstage : forall evs f0 r,
            ID f0 = ID f ->
            stage e (emit evs (emit [EvTempFile tmp]
                      (setDisk (<[tmp := mkFile [] (now e)]> (disk w)) w)))
                  tmp f0 r = (w', f', None) ->
            f' = set_LastUpdated (now e)
                   (set_Path (filePath w f)
                      (set_RuleCount (wrap64 (spec_ruleCount (readerData r))) f0))
            /\ disk w' = <[filePath w f := mkFile (readerData r) (now e)]> (disk w)).
  { intros evs f0 r Hid Hs.
    destruct (stage_spec e
                (emit evs (emit [EvTempFile tmp]
                   (setDisk (<[tmp := mkFile [] (now e)]> (disk w)) w)))
                tmp f0 r (disk w) (mkFile [] (now e))
                _ _ _ eq_refl Hfresh Hs) as [_ (_ & _ & _ & -> & Hd & _)].
    assert (Hp : forall v, filePath v f0 = Join (FilterDir (conf (fs v))) (itoa (ID f) +:+ ".txt"))
      by (intros v; unfold filePath; by rewrite Hid).
    rewrite Hp in *. done. }
  destruct (IsAbs (URL f)).
  - destruct (openFile e) as [r |]; [| done].
    intros Hs. right. exists r, f. split; [done |]. split; [by left |].
    by apply (Hstage [EvOpen (URL f) true]).
  - destruct (newRequest e); simpl negb; cbv iota; [| done].
    destruct (doRequest e) as [| status lm body]; [done |].
    destruct (status =? 304) eqn:E304.
    { intros [= <- <-]. left. apply Z.eqb_eq in E304. subst status. simpl.
      by rewrite delete_insert_id. }
    destruct (status =? 200); simpl negb; cbv iota; [| done].
    intros Hs. right. exists body, (set_LastModified lm f). split; [done |].
    split; [right; by exists lm |].
    by apply (Hstage [EvGet (URL f) (LastModified f)]).
Qed.

(** What a call of [Add] that succeeds has done. *)
Lemma Add_success e w nf w' :
  Add e w nf = (w', None) ->
  exists f,
    theList w' = theList w ++ [f]
    /\ ID f = wrap64 (nextID (fs w) + 1) /\ nextID (fs w') = ID f
    /\ Enabled f = true /\ Name f = Name nf /\ URL f = URL nf
    /\ (forall g, g ∈ theList w -> Name g <> Name nf /\ URL g <> URL nf)
    /\ ((sourceOf e nf = None /\ Path f = "" /\ disk w' = disk w)
        \/ exists r,
             sourceOf e nf = Some r
             /\ Path f = filePath w f
             /\ RuleCount f = wrap64 (spec_ruleCount (readerData r))
             /\ disk w' = <[filePath w f := mkFile (readerData r) (now e)]> (disk w)).
Proof.
  unfold Add, nextFilterID.
  destruct (existsb _ _) eqn:Hex; [done |]. cbv beta iota zeta.
  destruct (downloadFilter _ _ _) as [[w2 f] [er |]] eqn:Hdl; [done |].
  intros [= <-].
  pose proof (downloadFilter_fs _ _ _ _ _ _ Hdl) as (Hfs & _).
  exists f. unfold theList at 1. simpl. unfold theList. rewrite Hfs. simpl.
  assert (Hnone : forall g, g ∈ List (conf (fs w)) ->
                    Name g <> Name nf /\ URL g <> URL nf).
  { intros g Hg. apply list_elem_of_In in Hg.
    assert (Hg' : (bool_decide (Name g = Name nf) || bool_decide (URL g = URL nf)) = false).
    { destruct (_ || _) eqn:E; [| done].
      assert (existsb (fun f0 => bool_decide (Name f0 = Name nf)
                                 || bool_decide (URL f0 = URL nf))
                      (theList (emit [EvLock] w)) = true)
        by (apply existsb_exists; by exists g).
      congruence. }
    apply orb_false_iff in Hg' as [H1 H2].
    split; [by apply bool_decide_eq_false in H1 | by apply bool_decide_eq_false in H2]. }
  apply downloadFilter_result in Hdl
    as [(Hsrc & -> & Hd) | (r & f0 & Hsrc & Hf0 & -> & Hd)];
    rewrite (sourceOf_URL e _ nf) in Hsrc by done.
  - repeat split; try done; try (by apply Hnone). by left.
  - assert (ID f0 = wrap64 (nextID (fs w) + 1) /\ Enabled f0 = true
            /\ Name f0 = Name nf /\ URL f0 = URL nf)
      as (H1 & H2 & H3 & H4) by (destruct Hf0 as [-> | [lm ->]]; done).
    simpl. repeat split; try done; try (by apply Hnone).
    right. exists r. repeat split; try done.
    + unfold filePath. simpl. by rewrite H1.
    + rewrite Hd. unfold filePath. simpl. by rewrite H1.
Qed.

(** X6: [Add] refuses a descriptor whose name or whose url is in the
    registry already: it returns the error before it takes an id or
    downloads anything, so the only calls it makes are the lock and the
    unlock. *)
Theorem Add_refuses_duplicate e w nf g :
  g ∈ theList w -> Name g = Name nf \/ URL g = URL nf ->
  Add e w nf = (emit [EvUnlock] (emit [EvLock] w), Some ErrExists).
Proof.
  intros Hg Hdup. unfold Add.
  replace (existsb _ (theList (emit [EvLock] w))) with true; [done |].
  symmetry. apply existsb_exists. exists g.
  split; [by apply list_elem_of_In |].
  destruct Hdup as [H | H]; rewrite H.
  - by rewrite bool_decide_eq_true_2.
  - rewrite (bool_decide_eq_true_2 (URL nf = URL nf)) by done. apply orb_true_r.
Qed.

Lemma Delete_list w url :
  theList (fst (Delete w url)) = filter (fun f => URL f <> url) (theList w).
Proof.
  unfold Delete. change (theList (emit [EvLock] w)) with (theList w).
  rewrite deleteLoop_spec. simpl app.
  destruct (last _) as [g |] eqn:E; [done |]. simpl.
  apply last_None in E. symmetry. apply filter_all. intros f Hin Hu.
  assert (Hf : f ∈ filter (fun f => URL f = url) (theList w))
    by (by apply list_elem_of_filter).
  rewrite E in Hf. by apply elem_of_nil in Hf.
Qed.

Lemma NoDup_snoc_fresh {A B} `{EqDecision B} (h : A -> B) (l : list A) (f : A) :
  NoDup (h <$> l) -> (forall g, g ∈ l -> h g <> h f) -> NoDup (h <$> (l ++ [f])).
Proof.
  intros Hn Hf. rewrite fmap_app. apply NoDup_app. split; [done |].
  split; [| apply NoDup_singleton].
  intros x Hx Hx'. apply list_elem_of_fmap in Hx as (g & -> & Hg).
  apply list_elem_of_singleton in Hx'. by apply (Hf g).
Qed.

(** X7: [Add] and [Delete] keep the names of the registry distinct and its
    urls distinct. *)
Theorem Add_Delete_keep_names_urls_distinct e w nf url :
  NoDup (Name <$> theList w) -> NoDup (URL <$> theList w) ->
  (NoDup (Name <$> theList (fst (Add e w nf)))
   /\ NoDup (URL <$> theList (fst (Add e w nf))))
  /\ (NoDup (Name <$> theList (fst (Delete w url)))
      /\ NoDup (URL <$> theList (fst (Delete w url)))).
Proof.
  intros Hn Hu. split.
  - destruct (Add e w nf) as [w' [er |]] eqn:HA; simpl fst.
    + apply Add_failure in HA as [-> _]. done.
    + apply Add_success in HA as (f & -> & _ & _ & _ & Hname & Hurl & Hnew & _).
      split; apply NoDup_snoc_fresh; try done; intros g Hg; destruct (Hnew g Hg);
        congruence.
  - rewrite Delete_list.
    split; [eapply sublist_NoDup; [exact Hn |] | eapply sublist_NoDup; [exact Hu |]];
      apply fmap_sublist, sublist_filter.
Qed.

(** ** [getNextToUpdate] and [applyUpdate] *)

Lemma nextFrom_first tnow interval l : forall k i f,
  nextFrom tnow interval k l = Some (i, f) ->
  forall j g, (j < i - k)%nat -> l !! j = Some g -> due tnow g = false.
Proof.
  induction l as [| h l IH]; intros k i f; simpl; [done |].
  fold (due tnow h). destruct (due tnow h) eqn:Hd.
  - intros [= <- <-] j g Hj. lia.
  - intros H j g Hj Hg. destruct j as [| j]; simpl in Hg.
    + by injection Hg as <-.
    + apply (IH _ _ _ H j g); [| done].
      apply nextFrom_Some in H as (_ & _ & Hk & _). lia.
Qed.

(** X8: [getNextToUpdate] picks the first descriptor of the registry that
    is enabled and whose [nextUpdate] is not after the clock, both taken in
    whole seconds; it sets the [nextUpdate] of that descriptor to the clock
    plus the update interval and changes nothing else.  When no descriptor
    is enabled and due it returns nothing and changes nothing.  A disabled
    descriptor is never picked. *)
Theorem getNextToUpdate_first_due tnow w :
  match getNextToUpdate tnow w with
  | (w', None) =>
      w' = w /\ forall g, g ∈ theList w -> due tnow g = false
  | (w', Some (i, f)) =>
      exists f0,
        theList w !! i = Some f0
        /\ Enabled f0 = true /\ Unix (nextUpdate f0) <= Unix tnow
        /\ (forall j g, (j < i)%nat -> theList w !! j = Some g -> due tnow g = false)
        /\ f = set_nextUpdate
                 (tnow + int64 (UpdateIntervalHours (conf (fs w)) * Hour)) f0
        /\ w' = setAt i f w
  end.
Proof.
  unfold getNextToUpdate.
  destruct (nextFrom _ _ _ _) as [[i f] |] eqn:E.
  - pose proof (nextFrom_first _ _ _ _ _ _ E) as Hfirst.
    apply nextFrom_Some in E as (f0 & Hl & _ & Hd & ->).
    rewrite Nat.sub_0_r in *. exists f0.
    unfold due in Hd. apply andb_true_iff in Hd as [He Hle].
    apply Z.leb_le in Hle. done.
  - split; [done |]. by eapply nextFrom_None.
Qed.

(** X9: [applyUpdate] ends with an empty batch, whatever the batch was,
    so applying twice is the same as applying once; and it never changes
    the id, name, url or enabled flag of a descriptor, the id counter, the
    settings or the list of observers. *)
Theorem applyUpdate_clears_batch w :
  updated (fs (applyUpdate w)) = []
  /\ applyUpdate (applyUpdate w) = applyUpdate w
  /\ identity <$> theList (applyUpdate w) = identity <$> theList w
  /\ nextID (fs (applyUpdate w)) = nextID (fs w)
  /\ FilterDir (conf (fs (applyUpdate w))) = FilterDir (conf (fs w))
  /\ UpdateIntervalHours (conf (fs (applyUpdate w)))
     = UpdateIntervalHours (conf (fs w))
  /\ Users (fs (applyUpdate w)) = Users (fs w).
Proof.
  assert (Hb : updated (fs (applyUpdate w)) = []).
  { unfold applyUpdate. by destruct (updated (fs w)) eqn:E. }
  split; [done |]. split.
  { unfold applyUpdate at 1. by rewrite Hb. }
  unfold applyUpdate. destruct (updated (fs w)) as [| uf batch] eqn:E; [done |].
  set (w2 := emit [EvLock] (notifyUsers EventBeforeUpdate w)).
  destruct (foldl_applyEntry_frame (uf :: batch) w2) as [H1 H2 H3 H4 H5 H6 H7].
  set (X := foldl applyEntry w2 (uf :: batch)) in *.
  change (theList (notifyUsers EventAfterUpdate (setUpdated [] (emit [EvUnlock] X))))
    with (theList X).
  change (fs (notifyUsers EventAfterUpdate (setUpdated [] (emit [EvUnlock] X))))
    with (fs (setUpdated [] X)).
  change (nextID (fs (setUpdated [] X))) with (nextID (fs X)).
  change (conf (fs (setUpdated [] X))) with (conf (fs X)).
  change (Users (fs (setUpdated [] X))) with (Users (fs X)).
  by rewrite H1, H2, H3, H5, H6.
Qed.

(** ** What [Modify] does when it succeeds *)

Lemma downloadFilter_identity e w f w' f' :
  downloadFilter e w f = (w', f', None) ->
  ID f' = ID f /\ Name f' = Name f /\ URL f' = URL f /\ Enabled f' = Enabled f
  /\ nextUpdate f' = nextUpdate f /\ networkError f' = networkError f.
Proof.
  intros H. apply downloadFilter_result in H
    as [(_ & -> & _) | (r & f0 & _ & [-> | [lm ->]] & -> & _)]; done.
Qed.

Lemma parseFilter_identity f r :
  ID (fst (parseFilter f r)) = ID f /\ Name (fst (parseFilter f r)) = Name f
  /\ URL (fst (parseFilter f r)) = URL f
  /\ Enabled (fst (parseFilter f r)) = Enabled f
  /\ nextUpdate (fst (parseFilter f r)) = nextUpdate f
  /\ networkError (fst (parseFilter f r)) = networkError f.
Proof. unfold parseFilter. by destruct (parseLoop _ _ _). Qed.

Lemma modifyAt_success e w i f enabled name newURL w' st prev :
  theList w !! i = Some f ->
  modifyAt e w i f enabled name newURL = (w', (st, prev, None)) ->
  prev = f
  /\ exists f',
       theList w' = <[i := f']> (theList w)
       /\ Name f' = name /\ Enabled f' = enabled /\ URL f' = newURL
       /\ nextUpdate f' = nextUpdate f /\ networkError f' = networkError f
       /\ FilterDir (conf (fs w')) = FilterDir (conf (fs w))
       /\ UpdateIntervalHours (conf (fs w')) = UpdateIntervalHours (conf (fs w))
       /\ updated (fs w') = updated (fs w) /\ Users (fs w') = Users (fs w)
       /\ ((ID f' = ID f /\ nextID (fs w') = nextID (fs w))
           \/ (ID f' = wrap64 (nextID (fs w) + 1) /\ nextID (fs w') = ID f')).
Proof.
  intros Hi. unfold modifyAt, nextFilterID.
  repeat case_match.
  all: intros Heq; inversion Heq; subst; clear Heq.
  all: repeat match goal with
              | H : (_, _) = (_, _) |- _ => inversion H; subst; clear H
              end.
  all: split; [done |].
  all: try match goal with
       | H : downloadFilter _ _ ?g = (_, ?g', None) |- _ =>
           pose proof (downloadFilter_fs _ _ _ _ _ _ H) as (Hfs & _);
           pose proof (downloadFilter_identity _ _ _ _ _ H)
             as (I1 & I2 & I3 & I4 & I5 & I6);
           exists g'; simpl in I1, I2, I3, I4, I5, I6
       end.
  all: try match goal with
       | |- context [setAt _ (fst (parseFilter ?g ?r)) _] =>
           destruct (parseFilter_identity g r) as (I1 & I2 & I3 & I4 & I5 & I6);
           exists (fst (parseFilter g r)); simpl in I1, I2, I3, I4, I5, I6
       end.
  all: try match goal with
       | |- context [setAt _ ?g _] => exists g
       end.
  all: unfold theList in *; simpl; rewrite ?Hfs; simpl.
  all: repeat match goal with
              | H : negb (Bool.eqb _ _) = true |- _ =>
                  apply negb_true_iff, eqb_false_iff in H
              | H : negb (Bool.eqb _ _) = false |- _ =>
                  apply negb_false_iff, eqb_true_iff in H
              | H : negb (bool_decide _) = true |- _ =>
                  apply negb_true_iff, bool_decide_eq_false in H
              | H : negb (bool_decide _) = false |- _ =>
                  apply negb_false_iff, bool_decide_eq_true in H
              end.
  all: simpl in *.
  all: repeat split; try done; try congruence.
  all: try (by destruct enabled, (Enabled f)).
  all: try (left; split; [congruence | done]).
  all: try (right; split; [congruence | done]).
  all: try (by left).
  all: try (by right).
  all: try (unfold theList; rewrite Hfs; done).
  all: destruct (Enabled prev) eqn:?, enabled; simpl in *; congruence.
Qed.

Lemma modifyLoop_cases e url enabled name newURL l : forall i w,
  drop i (theList w) = l ->
  (modifyLoop e w i l url enabled name newURL = (w, (0, zeroFilter, Some ErrNotFound))
   /\ forall g, g ∈ l -> URL g <> url)
  \/ exists j f,
       theList w !! j = Some f /\ URL f = url
       /\ (forall k g, (i <= k < j)%nat -> theList w !! k = Some g -> URL g <> url)
       /\ modifyLoop e w i l url enabled name newURL
          = modifyAt e w j f enabled name newURL.
Proof.
  induction l as [| f l IH]; intros i w Hl; simpl.
  - left. split; [done |]. intros g Hg. by apply elem_of_nil in Hg.
  - assert (Hi : theList w !! i = Some f).
    { rewrite <- (Nat.add_0_r i), <- lookup_drop, Hl. done. }
    case_bool_decide as Hu.
    + right. exists i, f. repeat split; try done. intros k g Hk. lia.
    + assert (Hl' : drop (S i) (theList w) = l).
      { replace (S i) with (i + 1)%nat by lia. by rewrite <- drop_drop, Hl. }
      destruct (IH (S i) w Hl') as [[Heq Hno] | (j & g & Hj & Hg & Hbefore & Heq)].
      * left. split; [done |]. intros h Hh.
        apply elem_of_cons in Hh as [-> | Hh]; [done | by apply Hno].
      * right. exists j, g. repeat split; try done.
        intros k h Hk Hh. destruct (decide (k = i)) as [-> | Hne].
        -- rewrite Hi in Hh. by injection Hh as <-.
        -- apply (Hbefore k h); [lia | done].
Qed.

(** [Modify] either finds no descriptor with the url, or runs its body on
    the first one that has it. *)
Lemma Modify_cases e w url enabled name newURL :
  (Modify e w url enabled name newURL
   = (emit [EvUnlock] (emit [EvLock] w), (0, zeroFilter, Some ErrNotFound))
   /\ forall g, g ∈ theList w -> URL g <> url)
  \/ exists j f,
       theList w !! j = Some f /\ URL f = url
       /\ (forall k g, (k < j)%nat -> theList w !! k = Some g -> URL g <> url)
       /\ Modify e w url enabled name newURL
          = (emit [EvUnlock] (fst (modifyAt e (emit [EvLock] w) j f enabled name newURL)),
             snd (modifyAt e (emit [EvLock] w) j f enabled name newURL)).
Proof.
  unfold Modify.
  destruct (modifyLoop_cases e url enabled name newURL (theList (emit [EvLock] w))
              0 (emit [EvLock] w) eq_refl)
    as [[Heq Hno] | (j & f & Hj & Hf & Hbefore & Heq)]; rewrite Heq.
  - by left.
  - right. exists j, f. repeat split; try done.
    + intros k g Hk. apply Hbefore. lia.
    + by destruct (modifyAt _ _ _ _ _ _ _).
Qed.

(** X10: [Modify] with a url that no descriptor has returns the
    not-found error with zero flags and the zero descriptor, and the only
    calls it makes are the lock and the unlock: registry, id counter and
    filter directory are what they were. *)
Theorem Modify_not_found e w url enabled name newURL :
  (forall g, g ∈ theList w -> URL g <> url) ->
  Modify e w url enabled name newURL
  = (emit [EvUnlock] (emit [EvLock] w), (0, zeroFilter, Some ErrNotFound)).
Proof.
  intros Hno.
  destruct (Modify_cases e w url enabled name newURL)
    as [[Heq _] | (j & f & Hj & Hf & _)]; [done |].
  exfalso. apply (Hno f); [| done]. apply list_elem_of_lookup. by exists j.
Qed.


Lemma modifyAt_counter e w i f enabled name newURL :
  counterStep w (fst (modifyAt e w i f enabled name newURL)).
Proof.
  destruct (modifyAt e w i f enabled name newURL) as [w' r] eqn:E. simpl.
  revert E. unfold modifyAt, nextFilterID, counterStep.
  repeat case_match.
  all: intros Heq; inversion Heq; subst; clear Heq.
  all: repeat match goal with
              | H : (_, _) = (_, _) |- _ => inversion H; subst; clear H
              end.
  all: try match goal with
       | H : downloadFilter _ _ _ = _ |- _ =>
           apply downloadFilter_fs in H as (Hfs & _)
       end.
  all: simpl; rewrite ?Hfs; simpl; auto.
Qed.

Lemma Modify_counter e w url enabled name newURL :
  counterStep w (fst (Modify e w url enabled name newURL)).
Proof.
  destruct (Modify_cases e w url enabled name newURL)
    as [[-> _] | (j & f & _ & _ & _ & ->)]; [by left |].
  apply (modifyAt_counter e (emit [EvLock] w)).
Qed.

Lemma Add_counter e w nf : counterStep w (fst (Add e w nf)).
Proof.
  unfold Add, nextFilterID, counterStep.
  destruct (existsb _ _); [by left |]. cbv beta iota zeta.
  destruct (downloadFilter _ _ _) as [[w2 f] err] eqn:Hdl.
  apply downloadFilter_fs in Hdl as (Hfs & _).
  destruct err; simpl; rewrite Hfs; by right.
Qed.

(** ** Invariants of the registry *)

Lemma Modify_success e w url enabled name newURL w' st prev :
  Modify e w url enabled name newURL = (w', (st, prev, None)) ->
  exists j f',
    theList w !! j = Some prev /\ URL prev = url
    /\ (forall k g, (k < j)%nat -> theList w !! k = Some g -> URL g <> url)
    /\ theList w' = <[j := f']> (theList w)
    /\ Name f' = name /\ Enabled f' = enabled /\ URL f' = newURL
    /\ nextUpdate f' = nextUpdate prev /\ networkError f' = networkError prev
    /\ ((ID f' = ID prev /\ nextID (fs w') = nextID (fs w))
        \/ (ID f' = wrap64 (nextID (fs w) + 1) /\ nextID (fs w') = ID f')).
Proof.
  destruct (Modify_cases e w url enabled name newURL)
    as [[-> _] | (j & f & Hj & Hf & Hbefore & ->)]; [done |].
  destruct (modifyAt _ _ _ _ _ _ _) as [w1 [[st1 prev1] err1]] eqn:E.
  simpl. intros [= <- <- <- ->].
  apply modifyAt_success in E as (-> & f' & H1 & H2 & H3 & H4 & H5 & H6 & _ & _ & _ & _ & H7);
    [| done].
  exists j, f'. repeat split; try done.
Qed.

Lemma elem_of_insert_inv {A} (l : list A) i x y :
  y ∈ <[i := x]> l -> y = x \/ y ∈ l.
Proof.
  intros Hy. apply list_elem_of_lookup in Hy as [k Hk].
  destruct (decide (i = k)) as [-> | Hne].
  - destruct (decide (k < length l)%nat) as [Hlt | Hge].
    + rewrite list_lookup_insert_eq in Hk by done. left. congruence.
    + rewrite list_insert_ge in Hk by lia. right. by eapply list_elem_of_lookup_2.
  - rewrite list_lookup_insert_ne in Hk by done. right.
    by eapply list_elem_of_lookup_2.
Qed.

Lemma fmap_clear (l l' : list Filter) :
  networkError <$> l' = networkError <$> l ->
  (forall g, g ∈ l -> networkError g = false) ->
  forall g, g ∈ l' -> networkError g = false.
Proof.
  intros Heq Hl g Hg.
  assert (Hin : networkError g ∈ networkError <$> l')
    by (apply list_elem_of_fmap; by exists g).
  rewrite Heq in Hin. apply list_elem_of_fmap in Hin as (g' & -> & Hg').
  by apply Hl.
Qed.

Lemma updateAll_flags rounds : forall w w',
  flagsClear w -> updateAll rounds w = Some w' -> flagsClear w'.
Proof.
  induction rounds as [| r rest IH]; intros w w' Hw; simpl; [done |].
  destruct (getNextToUpdate _ _) as [w1 cand] eqn:Hnext.
  pose proof (getNextToUpdate_Some (pickTime r) (emit [EvLock] w) w1) as Hsome.
  destruct cand as [[i f] |].
  - destruct (Hsome i f Hnext) as (f0 & Hi & _ & Hf & ->).
    change (theList (emit [EvLock] w)) with (theList w) in Hi.
    assert (Hf0 : networkError f = false).
    { rewrite Hf. simpl. apply Hw. by eapply list_elem_of_lookup_2. }
    assert (Hw1 : flagsClear (setAt i f (emit [EvLock] w))).
    { intros g Hg. apply elem_of_insert_inv in Hg as [-> | Hg]; [done | by apply Hw]. }
    unfold nextFilterID. cbv beta iota zeta.
    destruct (downloadFilter _ _ _) as [[w3 uf] err] eqn:Hdl.
    apply downloadFilter_fs in Hdl as (Hfs & _).
    assert (Hl3 : theList w3 = theList (setAt i f (emit [EvLock] w)))
      by (by rewrite (theList_fs _ _ Hfs)).
    destruct err as [er |].
    + destruct (networkError uf); apply IH.
      * intros g Hg. change (theList (emit _ (setAt i ?x (emit _ w3))))
          with (<[i := x]> (theList w3)) in Hg.
        apply elem_of_insert_inv in Hg as [-> | Hg]; [done |].
        rewrite Hl3 in Hg. by apply Hw1.
      * intros g Hg. unfold flagsClear in Hw1. rewrite <- Hl3 in Hw1. by apply Hw1.
    + apply IH. intros g Hg.
      change (theList (setUpdated _ w3)) with (theList w3) in Hg.
      rewrite Hl3 in Hg. by apply Hw1.
  - unfold getNextToUpdate in Hnext.
    destruct (nextFrom _ _ _ _) as [[j g] |]; [done |]. injection Hnext as <-.
    intros [= <-] g Hg. eapply fmap_clear; [| exact Hw | exact Hg].
    by rewrite applyUpdate_keeps.
Qed.

(** X11: no descriptor of the registry ever has its [networkError] flag
    raised: [Add] of a descriptor whose flag is down, [Delete], [Modify],
    [applyUpdate] and a whole pass of [updateAll] all keep it so.  (The
    flag is raised only on the copy that [updateAll] hands to the
    download.) *)
Theorem registry_flags_stay_clear w :
  flagsClear w ->
  (forall e nf, networkError nf = false -> flagsClear (fst (Add e w nf)))
  /\ (forall url, flagsClear (fst (Delete w url)))
  /\ (forall e url enabled name newURL,
        flagsClear (fst (Modify e w url enabled name newURL)))
  /\ flagsClear (applyUpdate w)
  /\ (forall rounds w', updateAll rounds w = Some w' -> flagsClear w').
Proof.
  intros Hw. repeat split.
  - intros e nf Hnf. destruct (Add e w nf) as [w' [er |]] eqn:HA; simpl.
    + apply Add_failure in HA as [Hl _]. unfold flagsClear. by rewrite Hl.
    + revert HA. unfold Add, nextFilterID.
      destruct (existsb _ _); [done |]. cbv beta iota zeta.
      destruct (downloadFilter _ _ _) as [[w2 f] [er |]] eqn:Hdl; [done |].
      intros [= <-].
      pose proof (downloadFilter_fs _ _ _ _ _ _ Hdl) as (Hfs & _).
      apply downloadFilter_identity in Hdl as (_ & _ & _ & _ & _ & Hflag).
      intros g Hg. change (theList (emit _ (setList ?l w2))) with l in Hg.
      rewrite (theList_fs _ _ Hfs) in Hg.
      apply elem_of_app in Hg as [Hg | Hg]; [by apply Hw |].
      apply list_elem_of_singleton in Hg as ->. by rewrite Hflag.
  - intros url g Hg. rewrite Delete_list in Hg.
    apply list_elem_of_filter in Hg as [_ Hg]. by apply Hw.
  - intros e url enabled name newURL.
    destruct (Modify e w url enabled name newURL) as [w' [[st prev] [er |]]] eqn:HM;
      simpl.
    + destruct (Modify_cases e w url enabled name newURL)
        as [[Heq _] | (j & f & Hj & _ & _ & Heq)]; rewrite Heq in HM.
      * by injection HM as <- _ _ _.
      * destruct (modifyAt _ _ _ _ _ _ _) as [w1 [[st1 prev1] err1]] eqn:E.
        injection HM as <- -> -> ->.
        apply modifyAt_failure in E as (Hc & _); [| done].
        unfold flagsClear, theList in *. simpl. by rewrite Hc.
    + apply Modify_success in HM
        as (j & f' & Hj & _ & _ & Hl & _ & _ & _ & _ & Hflag & _).
      intros g Hg. rewrite Hl in Hg.
      apply elem_of_insert_inv in Hg as [-> | Hg]; [| by apply Hw].
      rewrite Hflag. apply Hw. by eapply list_elem_of_lookup_2.
  - intros g Hg. eapply fmap_clear; [| exact Hw | exact Hg].
    by rewrite applyUpdate_keeps.
  - intros rounds w'. by apply updateAll_flags.
Qed.

Lemma NoDup_fmap_insert_fresh {A B} (h : A -> B) (l : list A) : forall i x,
  NoDup (h <$> l) -> (forall g, g ∈ l -> h g <> h x) ->
  NoDup (h <$> <[i := x]> l).
Proof.
  induction l as [| a l IH]; intros i x Hn Hf; [done |].
  rewrite fmap_cons in Hn. apply NoDup_cons in Hn as [Ha Hn].
  destruct i as [| i]; simpl; apply NoDup_cons.
  - split; [| done]. intros Hx. apply list_elem_of_fmap in Hx as (g & Hg & Hin).
    apply (Hf g); [by right | done].
  - split.
    + intros Hx. apply list_elem_of_fmap in Hx as (g & Hg & Hin).
      apply elem_of_insert_inv in Hin as [-> | Hin].
      * apply (Hf a); [by left | done].
      * apply Ha. apply list_elem_of_fmap. by exists g.
    + apply IH; [done |]. intros g Hg. apply Hf. by right.
Qed.

Lemma Delete_counter w url : nextID (fs (fst (Delete w url))) = nextID (fs w).
Proof.
  unfold Delete. destruct (deleteLoop _ _ _ _) as [nf [found |]]; done.
Qed.

Lemma applyUpdate_counter w : nextID (fs (applyUpdate w)) = nextID (fs w).
Proof.
  unfold applyUpdate. destruct (updated (fs w)) as [| uf batch]; [done |].
  set (w2 := emit [EvLock] (notifyUsers EventBeforeUpdate w)).
  apply (frame_nextID _ _ (foldl_applyEntry_frame (uf :: batch) w2)).
Qed.

Lemma runOp_ids w o :
  idsFresh w -> 0 <= nextID (fs w) -> nextID (fs w) + 1 < 2 ^ 64 ->
  idsFresh (runOp w o)
  /\ nextID (fs w) <= nextID (fs (runOp w o)) <= nextID (fs w) + 1.
Proof.
  intros [Hnd Hle] H0 Hmax.
  assert (Hwrap : wrap64 (nextID (fs w) + 1) = nextID (fs w) + 1)
    by (unfold wrap64; apply Z.mod_small; lia).
  assert (Hstep : forall w', counterStep w w' ->
            nextID (fs w) <= nextID (fs w') <= nextID (fs w) + 1).
  { intros w' [-> | ->]; rewrite ?Hwrap; lia. }
  assert (Hsame : forall w', theList w' = theList w -> counterStep w w' ->
            idsFresh w'
            /\ nextID (fs w) <= nextID (fs w') <= nextID (fs w) + 1).
  { intros w' Hl Hc. split; [| by apply Hstep]. split; rewrite Hl; [done |].
    intros g Hg. specialize (Hle g Hg). specialize (Hstep w' Hc). lia. }
  destruct o as [e nf | url | e url enabled name newURL |]; simpl.
  - pose proof (Add_counter e w nf) as Hc.
    destruct (Add e w nf) as [w' [er |]] eqn:HA; simpl in *.
    + apply Hsame; [| done]. by apply Add_failure in HA as [-> _].
    + apply Add_success in HA as (f & Hl & Hid & Hn & _).
      rewrite Hwrap in Hid. split; [| lia]. split; rewrite Hl.
      * apply NoDup_snoc_fresh; [done |]. intros g Hg. specialize (Hle g Hg). lia.
      * intros g Hg. apply elem_of_app in Hg as [Hg | Hg].
        -- specialize (Hle g Hg). lia.
        -- apply list_elem_of_singleton in Hg as ->. lia.
  - rewrite Delete_counter. split; [| lia]. split; rewrite Delete_list.
    + eapply sublist_NoDup; [exact Hnd |]. apply fmap_sublist, sublist_filter.
    + intros g Hg. apply list_elem_of_filter in Hg as [_ Hg].
      rewrite Delete_counter. by apply Hle.
  - pose proof (Modify_counter e w url enabled name newURL) as Hc.
    destruct (Modify e w url enabled name newURL) as [w' [[st prev] [er |]]] eqn:HM;
      simpl in *.
    + apply Hsame; [| done].
      destruct (Modify_cases e w url enabled name newURL)
        as [[Heq _] | (j & f & Hj & _ & _ & Heq)]; rewrite Heq in HM.
      * by injection HM as <- _ _ _.
      * destruct (modifyAt _ _ _ _ _ _ _) as [w1 [[st1 prev1] err1]] eqn:E.
        injection HM as <- -> -> ->.
        apply modifyAt_failure in E as (Hcf & _); [| done].
        unfold theList. simpl. by rewrite Hcf.
    + apply Modify_success in HM
        as (j & f' & Hj & _ & _ & Hl & _ & _ & _ & _ & _ & Hid).
      split; [| by apply Hstep].
      assert (Hprev : prev ∈ theList w) by (by eapply list_elem_of_lookup_2).
      destruct Hid as [[Hid Hn] | [Hid Hn]].
      * split; rewrite Hl.
        -- rewrite list_fmap_insert, Hid, list_insert_id; [done |].
           by rewrite list_lookup_fmap, Hj.
        -- intros g Hg. apply elem_of_insert_inv in Hg as [-> | Hg].
           ++ rewrite Hid, Hn. by apply Hle.
           ++ rewrite Hn. by apply Hle.
      * rewrite Hwrap in Hid. split; rewrite Hl.
        -- apply NoDup_fmap_insert_fresh; [done |].
           intros g Hg. specialize (Hle g Hg). lia.
        -- intros g Hg. apply elem_of_insert_inv in Hg as [-> | Hg]; [lia |].
           specialize (Hle g Hg). lia.
  - rewrite applyUpdate_counter. split; [| lia].
    unfold idsFresh. rewrite applyUpdate_counter.
    split.
    + by rewrite (applyUpdate_keeps ID).
    + intros g Hg.
      assert (Hin : ID g ∈ ID <$> theList (applyUpdate w))
        by (apply list_elem_of_fmap; by exists g).
      rewrite (applyUpdate_keeps ID) in Hin by done.
      apply list_elem_of_fmap in Hin as (g' & -> & Hg'). by apply Hle.
Qed.

(** X12: starting from a registry whose ids are distinct and not above
    the id counter (an empty registry, for one), any sequence of calls of
    [Add], [Delete], [Modify] and [applyUpdate] leaves the ids of the
    registry distinct, as long as the 64-bit id counter does not wrap
    around, which it cannot do before as many calls as there are values
    left above it. *)
Theorem ids_stay_distinct ops : forall w,
  idsFresh w -> 0 <= nextID (fs w) ->
  nextID (fs w) + Z.of_nat (length ops) < 2 ^ 64 ->
  NoDup (ID <$> theList (foldl runOp w ops))
  /\ (forall g, g ∈ theList (foldl runOp w ops) ->
        ID g <= nextID (fs (foldl runOp w ops)))
  /\ nextID (fs (foldl runOp w ops)) <= nextID (fs w) + Z.of_nat (length ops).
Proof.
  induction ops as [| o ops IH]; intros w Hw H0 Hmax; simpl foldl.
  - destruct Hw. repeat split; try done. simpl. lia.
  - simpl length in Hmax.
    destruct (runOp_ids w o Hw H0) as [Hw' Hn]; [lia |].
    destruct (IH (runOp w o) Hw') as (H1 & H2 & H3); [lia | lia |].
    repeat split; try done. simpl length. lia.
Qed.

(** ** Failure of a download that [Modify] needs *)

Lemma land_lor_same a b : Z.land (Z.lor a b) b = b.
Proof.
  apply Z.bits_inj'. intros n _. rewrite Z.land_spec, Z.lor_spec.
  by destruct (Z.testbit a n), (Z.testbit b n).
Qed.

Lemma modifyAt_url_change e w i f enabled name newURL :
  StatusChangedURL <> 0 -> theList w !! i = Some f -> URL f <> newURL ->
  (forall w0 f0, URL f0 = newURL -> snd (downloadFilter e w0 f0) <> None) ->
  exists w' er w0 f0,
    modifyAt e w i f enabled name newURL = (w', (0, zeroFilter, Some er))
    /\ URL f0 = newURL /\ snd (downloadFilter e w0 f0) = Some er
    /\ theList w' = theList w /\ disk w' = disk w
    /\ nextID (fs w') = wrap64 (nextID (fs w) + 1).
Proof.
  intros Hflag Hi Hurl Hfail.
  destruct (modifyAt e w i f enabled name newURL) as [w' [[st prev] err]] eqn:E.
  revert E. unfold modifyAt, nextFilterID.
  set (f1 := set_Name name f).
  destruct (negb (Bool.eqb (Enabled f1) enabled)).
  all: cbv beta iota zeta.
  all: rewrite (bool_decide_eq_false_2 (URL _ = newURL)) by done.
  all: simpl negb; cbv beta iota zeta.
  all: rewrite ?Z.lor_0_l, ?land_lor_same, ?Z.land_diag.
  all: rewrite (proj2 (Z.eqb_neq _ _) Hflag); simpl negb; cbv beta iota zeta.
  all: match goal with
       | |- context [downloadFilter _ ?w0 ?f0] =>
           pose proof (Hfail w0 f0 eq_refl) as Hsome;
           destruct (downloadFilter e w0 f0) as [[w3 f3] [er |]] eqn:Hdl;
             [| done];
           pose proof (downloadFilter_fs _ _ _ _ _ _ Hdl) as (Hfs & _);
           pose proof (downloadFilter_spec _ _ _ _ _ _ Hdl) as [Hd _];
           intros [= <- <- <- <-];
           exists (setAt i f w3), er, w0, f0
       end.
  all: rewrite Hdl; repeat split; try done.
  all: try (rewrite theList_setAt, (theList_fs _ _ Hfs); simpl;
            by apply list_insert_id).
  all: simpl; by rewrite Hfs.
Qed.

(** X13: when [Modify] is given a new url for a descriptor it has and the
    download from that url fails, [Modify] returns the error of the
    download with zero flags and the zero descriptor; registry and filter
    directory are what they were, but the id taken for the download is
    used up. *)
Theorem Modify_url_change_failure e w url enabled name newURL :
  StatusChangedURL <> 0 ->
  (exists g, g ∈ theList w /\ URL g = url) ->
  newURL <> url ->
  (forall w0 f0, URL f0 = newURL -> snd (downloadFilter e w0 f0) <> None) ->
  exists w' er w0 f0,
    Modify e w url enabled name newURL = (w', (0, zeroFilter, Some er))
    /\ URL f0 = newURL /\ snd (downloadFilter e w0 f0) = Some er
    /\ theList w' = theList w /\ disk w' = disk w
    /\ nextID (fs w') = wrap64 (nextID (fs w) + 1).
Proof.
  intros Hflag (g & Hg & Hgu) Hne Hfail.
  destruct (Modify_cases e w url enabled name newURL)
    as [[_ Hno] | (j & f & Hj & Hf & _ & ->)]; [by destruct (Hno g Hg) |].
  destruct (modifyAt_url_change e (emit [EvLock] w) j f enabled name newURL)
    as (w' & er & w0 & f0 & -> & H1 & H2 & H3 & H4 & H5); try done.
  { congruence. }
  exists (emit [EvUnlock] w'), er, w0, f0. by repeat split.
Qed.

(** ** How a pass ends, and when it does not *)

(** X14: a pass whose clock readings stay within the ten seconds that
    start with the second [s0], run with an update interval of ten seconds
    or more and given one round more than there are descriptors it can
    pick, ends, whatever the downloads do.  At its end every descriptor
    that was due when the pass began has been rescheduled past these ten
    seconds, a descriptor that is disabled or not due before their end has
    the [nextUpdate] it had, and no descriptor has changed its id, name,
    url or state. *)
Theorem updateAll_ends_in_window s0 rounds w :
  Forall (inWindow s0) rounds ->
  10 * Second <= int64 (UpdateIntervalHours (conf (fs w)) * Hour) ->
  (pending (s0 + 10) (theList w) < length rounds)%nat ->
  exists wf,
    updateAll rounds w = Some wf
    /\ identity <$> theList wf = identity <$> theList w
    /\ forall j g, theList w !! j = Some g ->
         exists T,
           (nextUpdate <$> theList wf) !! j = Some T
           /\ (pendingB (s0 + 10) g = false -> T = nextUpdate g)
           /\ (Enabled g = true -> Unix (nextUpdate g) <= s0 -> s0 + 10 <= Unix T).
Proof.
  intros Hwin Hint Hcount.
  destruct (updateAll_ends s0 rounds w Hwin Hint Hcount) as (wl & Hres & Hlen & Hall).
  exists (applyUpdate wl). split; [done |].
  rewrite (applyUpdate_keeps identity), (applyUpdate_keeps nextUpdate) by done.
  split.
  - apply list_eq. intros j. rewrite !list_lookup_fmap.
    destruct (theList w !! j) as [g |] eqn:Hj.
    + destruct (Hall j g Hj) as (T & -> & _). done.
    + apply lookup_ge_None in Hj. rewrite lookup_ge_None_2 by lia. done.
  - intros j g Hj. destruct (Hall j g Hj) as (T & Hw & _ & Hkeep & Hpicked).
    exists T. rewrite list_lookup_fmap, Hw. done.
Qed.

Lemma updateAll_spins rounds : forall w,
  UpdateIntervalHours (conf (fs w)) = 0 ->
  flagsClear w ->
  (forall r, r ∈ rounds -> doRequest (fetch r) <> DoFails) ->
  (forall k r r', rounds !! k = Some r -> rounds !! S k = Some r' ->
     Unix (pickTime r) <= Unix (pickTime r')) ->
  (forall r, rounds !! 0%nat = Some r ->
     exists g, g ∈ theList w /\ due (pickTime r) g = true) ->
  updateAll rounds w = None.
Proof.
  induction rounds as [| r rest IH]; intros w Hzero Hflags Hdo Hmono Hdue; [done |].
  destruct (Hdue r eq_refl) as (g & Hg & Hgd).
  destruct (getNextToUpdate (pickTime r) (emit [EvLock] w)) as [w1 [[i f] |]] eqn:Hnext.
  - destruct (updateAll_round _ _ _ _ _ Hnext)
      as (f0 & T & w' & Hi & Hd0 & _ & Hstep & Hl & Hh & HT & _).
    assert (Hin0 : f0 ∈ theList w) by (by eapply list_elem_of_lookup_2).
    rewrite HT in Hl; [| apply Hdo; by left | by apply Hflags].
    rewrite Hzero in Hl. change (int64 (0 * Hour)) with 0 in Hl.
    rewrite Z.add_0_r in Hl.
    rewrite Hstep. apply IH.
    + by rewrite Hh.
    + intros h Hh'. unfold flagsClear in Hflags. rewrite Hl in Hh'.
      apply elem_of_insert_inv in Hh' as [-> | Hh']; [| by apply Hflags].
      simpl. by apply Hflags.
    + intros r' Hr'. apply Hdo. by right.
    + intros k r1 r2 H1 H2. by apply (Hmono (S k) r1 r2).
    + intros r' Hr'. exists (set_nextUpdate (pickTime r) f0). split.
      * rewrite Hl. apply list_elem_of_lookup. exists i.
        apply list_lookup_insert_eq. by eapply lookup_lt_Some.
      * unfold due in *. apply andb_true_iff in Hd0 as [Hen _]. simpl.
        rewrite Hen. simpl. apply Z.leb_le. by apply (Hmono 0%nat r r').
  - exfalso. unfold getNextToUpdate in Hnext.
    change (theList (emit [EvLock] w)) with (theList w) in Hnext.
    destruct (nextFrom _ _ _ _) as [[k c] |] eqn:E; [done |].
    by rewrite (nextFrom_None _ _ _ _ E g Hg) in Hgd.
Qed.

(** X15: [SetConfig] takes an update interval of 0 hours as it takes any
    other, and with it a pass never ends once a descriptor is due: the
    descriptor that a round reschedules is due again in the round that
    follows.  This holds for every number of rounds, as long as the clock
    does not go back and no request fails in [HTTPClient.Do], whether the
    downloads succeed or not. *)
Theorem SetConfig_zero_interval_pass_never_ends c w rounds :
  UpdateIntervalHours c = 0 ->
  flagsClear w ->
  (forall r, r ∈ rounds -> doRequest (fetch r) <> DoFails) ->
  (forall k r r', rounds !! k = Some r -> rounds !! S k = Some r' ->
     Unix (pickTime r) <= Unix (pickTime r')) ->
  (forall r, rounds !! 0%nat = Some r ->
     exists g, g ∈ theList w /\ due (pickTime r) g = true) ->
  theList (SetConfig c w) = theList w
  /\ FilterDir (conf (fs (SetConfig c w))) = FilterDir (conf (fs w))
  /\ updateAll rounds (SetConfig c w) = None.
Proof.
  intros Hzero Hflags Hdo Hmono Hdue. split; [done |]. split; [done |].
  by apply updateAll_spins.
Qed.

Lemma pending_le_length smax l : (pending smax l <= length l)%nat.
Proof. induction l as [| f l IH]; simpl; [done |]. destruct (pendingB smax f); lia. Qed.

(** X16: the pass that follows [Refresh] tries every enabled descriptor,
    whenever each was last updated: when the clock stays within ten
    seconds, the interval is ten seconds or more and the pass has more
    rounds than the registry has descriptors, the pass ends with every
    enabled descriptor rescheduled, while a disabled one is left with the
    zero time that [Refresh] gave it. *)
Theorem Refresh_then_pass flags s0 rounds w :
  Unix zeroTime <= s0 ->
  Forall (inWindow s0) rounds ->
  10 * Second <= int64 (UpdateIntervalHours (conf (fs w)) * Hour) ->
  (length (theList w) < length rounds)%nat ->
  exists wf,
    updateAll rounds (Refresh flags w) = Some wf
    /\ identity <$> theList wf = identity <$> theList w
    /\ forall j g, theList w !! j = Some g ->
         exists T,
           (nextUpdate <$> theList wf) !! j = Some T
           /\ (if Enabled g then s0 + 10 <= Unix T else T = zeroTime).
Proof.
  intros Hzero Hwin Hint Hlen.
  assert (Hl : theList (Refresh flags w) = set_nextUpdate zeroTime <$> theList w)
    by done.
  destruct (updateAll_ends s0 rounds (Refresh flags w) Hwin Hint)
    as (wl & Hres & Hlenl & Hall).
  { rewrite Hl. pose proof (pending_le_length (s0 + 10)
                              (set_nextUpdate zeroTime <$> theList w)) as Hp.
    rewrite length_fmap in Hp. lia. }
  exists (applyUpdate wl). split; [done |].
  rewrite (applyUpdate_keeps identity), (applyUpdate_keeps nextUpdate) by done.
  rewrite Hl, length_fmap in Hlenl.
  split.
  - apply list_eq. intros j. rewrite !list_lookup_fmap.
    destruct (theList w !! j) as [g |] eqn:Hj.
    + destruct (Hall j (set_nextUpdate zeroTime g)) as (T & -> & _); [| done].
      by rewrite Hl, list_lookup_fmap, Hj.
    + apply lookup_ge_None in Hj. rewrite lookup_ge_None_2 by lia. done.
  - intros j g Hj.
    destruct (Hall j (set_nextUpdate zeroTime g)) as (T & Hw & _ & Hkeep & Hpicked).
    { by rewrite Hl, list_lookup_fmap, Hj. }
    exists T. rewrite list_lookup_fmap, Hw. split; [done |].
    destruct (Enabled g) eqn:Hen.
    + by apply Hpicked.
    + apply Hkeep. unfold pendingB. simpl. by rewrite Hen.
Qed.

(** ** [Start] *)

(** What [Start] makes of a descriptor, given the filter directory. *)
Lemma startFilter_spec w f :
  snd (startFilter w f)
  = match disk w !! filePath w f with
    | None => f
    | Some file =>
        if Enabled f
        then set_nextUpdate
               (modTime file + int64 (UpdateIntervalHours (conf (fs w)) * Hour))
               (set_RuleCount (wrap64 (spec_ruleCount (data file)))
                  (set_LastUpdated (modTime file) f))
        else set_LastUpdated (modTime file) f
    end.
Proof.
  unfold startFilter. destruct (disk w !! filePath w f) as [file |]; [| done].
  simpl Enabled. destruct (Enabled f); simpl negb; cbv iota; [| done].
  by rewrite parseFilter_spec.
Qed.

Lemma startFilter_frame w1 w2 f :
  FilterDir (conf (fs w1)) = FilterDir (conf (fs w2)) ->
  UpdateIntervalHours (conf (fs w1)) = UpdateIntervalHours (conf (fs w2)) ->
  disk w1 = disk w2 ->
  startFilter w1 f = startFilter w2 f.
Proof.
  intros Hd Hh Hk. unfold startFilter.
  by rewrite (filePath_dir w1 w2 f Hd), Hk, Hh.
Qed.

Lemma startAt_spec w i :
  FilterDir (conf (fs (startAt w i))) = FilterDir (conf (fs w))
  /\ UpdateIntervalHours (conf (fs (startAt w i))) = UpdateIntervalHours (conf (fs w))
  /\ nextID (fs (startAt w i)) = nextID (fs w)
  /\ updated (fs (startAt w i)) = updated (fs w)
  /\ Users (fs (startAt w i)) = Users (fs w)
  /\ disk (startAt w i) = disk w
  /\ notifications (trace (startAt w i)) = notifications (trace w)
  /\ theList (startAt w i)
     = match theList w !! i with
       | Some f => <[i := snd (startFilter w f)]> (theList w)
       | None => theList w
       end.
Proof.
  unfold startAt. destruct (theList w !! i) as [f |]; [| done].
  destruct (startFilter w f) as [evs f'] eqn:E. simpl.
  repeat split; try done.
  rewrite notifications_app.
  assert (Hn : notifications evs = []).
  { revert E. unfold startFilter.
    destruct (disk w !! filePath w f); [| by intros [= <- _]].
    destruct (negb _); by intros [= <- _]. }
  by rewrite Hn, app_nil_r.
Qed.

Lemma Start_from n : forall k w,
  let w' := foldl startAt w (seq k n) in
  FilterDir (conf (fs w')) = FilterDir (conf (fs w))
  /\ UpdateIntervalHours (conf (fs w')) = UpdateIntervalHours (conf (fs w))
  /\ nextID (fs w') = nextID (fs w)
  /\ updated (fs w') = updated (fs w)
  /\ Users (fs w') = Users (fs w)
  /\ disk w' = disk w
  /\ notifications (trace w') = notifications (trace w)
  /\ length (theList w') = length (theList w)
  /\ forall j f, theList w !! j = Some f ->
       theList w' !! j
       = Some (if bool_decide (k <= j < k + n)%nat then snd (startFilter w f) else f).
Proof.
  induction n as [| n IH]; intros k w; simpl.
  - repeat split; try done. intros j f Hj.
    rewrite bool_decide_eq_false_2 by lia. done.
  - destruct (startAt_spec w k) as (A1 & A2 & A3 & A4 & A5 & A6 & A7 & A8).
    destruct (IH (S k) (startAt w k)) as (B1 & B2 & B3 & B4 & B5 & B6 & B7 & B8 & B9).
    assert (Hlen : length (theList (startAt w k)) = length (theList w)).
    { rewrite A8. destruct (theList w !! k); [by rewrite length_insert | done]. }
    repeat split; try congruence.
    intros j f Hj. destruct (decide (j = k)) as [-> | Hne].
    + rewrite Hj in A8.
      rewrite (B9 k (snd (startFilter w f))).
      * rewrite bool_decide_eq_false_2 by lia.
        rewrite bool_decide_eq_true_2 by lia. done.
      * rewrite A8. apply list_lookup_insert_eq. by eapply lookup_lt_Some.
    + rewrite (B9 j f).
      * rewrite (startFilter_frame (startAt w k) w) by done.
        destruct (bool_decide (S k <= j < S k + n)%nat) eqn:E1.
        -- apply bool_decide_eq_true in E1.
           rewrite bool_decide_eq_true_2 by lia. done.
        -- apply bool_decide_eq_false in E1.
           rewrite bool_decide_eq_false_2 by lia. done.
      * rewrite A8. destruct (theList w !! k); [| done].
        by rewrite list_lookup_insert_ne.
Qed.

(** X17: [Start] loads each descriptor from its cache file and from
    nothing else.  A descriptor whose cache file is missing is left as the
    configuration had it, rule count included; a disabled descriptor only
    takes the modification time of its file as [LastUpdated]; an enabled
    one takes also the number of rule lines of the file and is due one
    update interval after the modification time.  The filter directory,
    the id counter and the batch are not touched, and no observer is
    called. *)
Theorem Start_loads w :
  disk (Start w) = disk w
  /\ nextID (fs (Start w)) = nextID (fs w)
  /\ updated (fs (Start w)) = updated (fs w)
  /\ notifications (trace (Start w)) = notifications (trace w)
  /\ length (theList (Start w)) = length (theList w)
  /\ forall j f, theList w !! j = Some f ->
       theList (Start w) !! j
       = Some match disk w !! filePath w f with
              | None => f
              | Some file =>
                  if Enabled f
                  then set_nextUpdate
                         (modTime file
                          + int64 (UpdateIntervalHours (conf (fs w)) * Hour))
                         (set_RuleCount (wrap64 (spec_ruleCount (data file)))
                            (set_LastUpdated (modTime file) f))
                  else set_LastUpdated (modTime file) f
              end.
Proof.
  unfold Start.
  destruct (Start_from (length (theList w)) 0 w)
    as (_ & _ & B3 & B4 & _ & B6 & B7 & B8 & B9).
  repeat split; try done.
  intros j f Hj. rewrite (B9 j f Hj), <- startFilter_spec.
  rewrite bool_decide_eq_true_2; [done |].
  apply lookup_lt_Some in Hj. lia.
Qed.

Lemma Add_conf e w nf :
  FilterDir (conf (fs (fst (Add e w nf)))) = FilterDir (conf (fs w))
  /\ UpdateIntervalHours (conf (fs (fst (Add e w nf))))
     = UpdateIntervalHours (conf (fs w)).
Proof.
  unfold Add, nextFilterID.
  destruct (existsb _ _); [done |]. cbv beta iota zeta.
  destruct (downloadFilter _ _ _) as [[w2 f] err] eqn:Hdl.
  apply downloadFilter_fs in Hdl as (Hfs & _).
  destruct err; simpl; by rewrite Hfs.
Qed.

Lemma Add_downloaded e w nf w' r :
  Add e w nf = (w', None) -> sourceOf e nf = Some r ->
  exists f,
    theList w' = theList w ++ [f]
    /\ Enabled f = true
    /\ LastUpdated f = now e
    /\ RuleCount f = wrap64 (spec_ruleCount (readerData r))
    /\ Path f = filePath w' f
    /\ disk w' = <[filePath w' f := mkFile (readerData r) (now e)]> (disk w).
Proof.
  intros HA Hsrc.
  pose proof (Add_conf e w nf) as [Hdir _]. rewrite HA in Hdir. simpl in Hdir.
  revert HA. unfold Add, nextFilterID.
  destruct (existsb _ _) eqn:Hex; [done |]. cbv beta iota zeta.
  destruct (downloadFilter _ _ _) as [[w2 f] [er |]] eqn:Hdl; [done |].
  intros [= <-].
  pose proof (downloadFilter_fs _ _ _ _ _ _ Hdl) as (Hfs & _).
  exists f. unfold theList at 1. simpl. unfold theList. rewrite Hfs. simpl.
  apply downloadFilter_result in Hdl
    as [(Hnone & _) | (r' & f0 & Hsrc' & Hf0 & -> & Hd)];
    rewrite (sourceOf_URL e _ nf) in * by done; [congruence |].
  assert (r' = r) as -> by congruence.
  assert (Enabled f0 = true /\ ID f0 = wrap64 (nextID (fs w) + 1)) as [He Hid]
    by (destruct Hf0 as [-> | [lm ->]]; done).
  simpl. repeat split; try done.
  all: rewrite ?Hd; unfold filePath; simpl; rewrite Hfs; simpl; by rewrite Hid.
Qed.


(** ** [List] *)

Lemma List'_fmap flags w :
  snd (List' flags w) = (fun f => set_Path (filePath w f) f) <$> theList w.
Proof. reflexivity. Qed.

(** X19: [List] reads the registry and changes nothing but the trace; the
    copies it returns are the descriptors in their order, each with its
    cache path as [Path], whatever [Path] the registry holds.  The path
    that [Delete] returns with the descriptor it removed is the one that
    [List] reported for it, and after an [Add] that downloaded the filter
    the last descriptor that [List] reports is the new one, and the file at
    its [Path] holds the bytes that were downloaded. *)
Theorem List_reports_cache_paths flags w :
  (fs (fst (List' flags w)) = fs w /\ disk (fst (List' flags w)) = disk w)
  /\ (forall j, snd (List' flags w) !! j
                = (fun f => set_Path (filePath w f) f) <$> (theList w !! j))
  /\ (forall url found,
        snd (Delete w url) = Some found ->
        found ∈ snd (List' flags w) /\ found ∉ snd (List' flags (fst (Delete w url))))
  /\ (forall e nf w' r,
        Add e w nf = (w', None) -> sourceOf e nf = Some r ->
        exists f,
          last (snd (List' flags w')) = Some f
          /\ Name f = Name nf /\ URL f = URL nf /\ Enabled f = true
          /\ RuleCount f = wrap64 (spec_ruleCount (readerData r))
          /\ disk w' !! Path f = Some (mkFile (readerData r) (now e))).
Proof.
  split; [done |]. split; [| split].
  - intros j. by rewrite List'_fmap, list_lookup_fmap.
  - intros url found Hfound. rewrite !List'_fmap.
    revert Hfound. unfold Delete. change (theList (emit [EvLock] w)) with (theList w).
    rewrite deleteLoop_spec. simpl app.
    destruct (last (filter (fun f => URL f = url) (theList w))) as [g |] eqn:E;
      simpl; [| done].
    intros [= <-]. apply last_Some_elem_of in E.
    apply list_elem_of_filter in E as [Hu Hin]. split.
    + apply list_elem_of_fmap. by exists g.
    + intros Hx. apply list_elem_of_fmap in Hx as (g' & Hg' & Hin').
      apply list_elem_of_filter in Hin' as [Hu' _].
      apply (f_equal URL) in Hg'. simpl in Hg'. congruence.
  - intros e nf w' r HA Hsrc.
    destruct (Add_downloaded _ _ _ _ _ HA Hsrc) as (f & Hl & Hen & _ & Hrc & _ & Hd).
    apply Add_success in HA as (f0 & Hl0 & _ & _ & _ & Hn & Hu & _).
    rewrite Hl in Hl0. apply app_inj_tail in Hl0 as [_ <-].
    exists (set_Path (filePath w' f) f).
    rewrite List'_fmap, Hl, fmap_app, list_fmap_singleton, last_snoc. simpl.
    repeat split; try done. rewrite Hd. apply lookup_insert_eq.
Qed.

(** ** The observers *)

Lemma notifications_snoc_quiet tr evs :
  notifications evs = [] -> notifications (tr ++ evs) = notifications tr.
Proof. intros H. by rewrite notifications_app, H, app_nil_r. Qed.

Lemma Add_quiet e w nf :
  notifications (trace (fst (Add e w nf))) = notifications (trace w)
  /\ Users (fs (fst (Add e w nf))) = Users (fs w).
Proof.
  unfold Add, nextFilterID.
  destruct (existsb _ _).
  { simpl. by rewrite <- app_assoc, notifications_snoc_quiet. }
  cbv beta iota zeta.
  destruct (downloadFilter _ _ _) as [[w2 f] err] eqn:Hdl.
  pose proof (downloadFilter_fs _ _ _ _ _ _ Hdl) as (Hfs & _).
  apply downloadFilter_quiet in Hdl. simpl in Hdl.
  rewrite notifications_snoc_quiet in Hdl by done.
  destruct err; simpl; rewrite notifications_snoc_quiet by done;
    by rewrite Hfs.
Qed.

Lemma Delete_quiet w url :
  notifications (trace (fst (Delete w url))) = notifications (trace w)
  /\ Users (fs (fst (Delete w url))) = Users (fs w).
Proof.
  unfold Delete. destruct (deleteLoop _ _ _ _) as [nf [found |]]; simpl;
    by rewrite <- app_assoc, notifications_snoc_quiet.
Qed.

Lemma modifyAt_quiet e w i f enabled name newURL :
  notifications (trace (fst (modifyAt e w i f enabled name newURL)))
  = notifications (trace w)
  /\ Users (fs (fst (modifyAt e w i f enabled name newURL))) = Users (fs w).
Proof.
  destruct (modifyAt e w i f enabled name newURL) as [w' r] eqn:E. simpl.
  revert E. unfold modifyAt, nextFilterID.
  repeat case_match.
  all: intros Heq; inversion Heq; subst; clear Heq.
  all: repeat match goal with
              | H : (_, _) = (_, _) |- _ => inversion H; subst; clear H
              end.
  all: try match goal with
       | H : downloadFilter _ _ _ = _ |- _ =>
           pose proof (downloadFilter_fs _ _ _ _ _ _ H) as (Hfs & _);
           apply downloadFilter_quiet in H
       end.
  all: simpl in *; rewrite ?Hfs; simpl.
  all: rewrite ?notifications_snoc_quiet in * by done.
  all: done.
Qed.

Lemma Modify_quiet e w url enabled name newURL :
  notifications (trace (fst (Modify e w url enabled name newURL)))
  = notifications (trace w)
  /\ Users (fs (fst (Modify e w url enabled name newURL))) = Users (fs w).
Proof.
  destruct (Modify_cases e w url enabled name newURL)
    as [[-> _] | (j & f & _ & _ & _ & ->)]; simpl.
  - by rewrite <- app_assoc, notifications_snoc_quiet.
  - destruct (modifyAt_quiet e (emit [EvLock] w) j f enabled name newURL) as [H1 H2].
    rewrite notifications_snoc_quiet by done. rewrite H1, H2. simpl.
    by rewrite notifications_snoc_quiet.
Qed.

Lemma updateAll_notifications rounds : forall w wf,
  updateAll rounds w = Some wf ->
  exists wl,
    wf = applyUpdate wl
    /\ Users (fs wl) = Users (fs w)
    /\ notifications (trace wl) = notifications (trace w).
Proof.
  induction rounds as [| r rest IH]; intros w wf; [done |].
  destruct (getNextToUpdate (pickTime r) (emit [EvLock] w)) as [w1 [[i f] |]] eqn:Hnext.
  - destruct (updateAll_round _ _ _ _ _ Hnext)
      as (f0 & T & w' & _ & _ & _ & Hstep & _ & _ & _ & Hus & Hn).
    rewrite Hstep. intros H. apply IH in H as (wl & -> & H1 & H2).
    exists wl. split; [done |]. by rewrite H1, H2, Hus, Hn.
  - simpl. rewrite Hnext. intros [= <-].
    unfold getNextToUpdate in Hnext.
    destruct (nextFrom _ _ _ _) as [[j g] |]; [done |]. injection Hnext as <-.
    eexists. split; [done |]. simpl.
    by rewrite <- app_assoc, notifications_snoc_quiet.
Qed.

(** X20: the observers are called by [applyUpdate] and by nothing else.
    [Add], [Delete], [Modify], [List], [Refresh], [Start], [SetConfig] and
    [AddUser] make no observer call, and a pass of [updateAll] that ends
    has made either no call at all, or one call to each observer before and
    one after the files are replaced, in the order in which [AddUser]
    registered the observers. *)
Theorem observers_called_by_applyUpdate_only w :
  let N v := notifications (trace v) in
  (forall e nf, N (fst (Add e w nf)) = N w)
  /\ (forall url, N (fst (Delete w url)) = N w)
  /\ (forall e url enabled name newURL,
        N (fst (Modify e w url enabled name newURL)) = N w)
  /\ (forall flags, N (fst (List' flags w)) = N w /\ N (Refresh flags w) = N w)
  /\ N (Start w) = N w
  /\ (forall c, N (SetConfig c w) = N w)
  /\ (forall h, N (AddUser h w) = N w
                /\ Users (fs (AddUser h w)) = Users (fs w) ++ [h])
  /\ (forall rounds wf,
        updateAll rounds w = Some wf ->
        N wf = N w
        \/ N wf = N w ++ map (fun u => (u, EventBeforeUpdate)) (Users (fs w))
                     ++ map (fun u => (u, EventAfterUpdate)) (Users (fs w))).
Proof.
  intros N. unfold N.
  split; [intros; apply Add_quiet |].
  split; [intros; apply Delete_quiet |].
  split; [intros; apply Modify_quiet |].
  split.
  { intros flags. unfold List', Refresh. simpl.
    by rewrite <- !app_assoc, !notifications_snoc_quiet. }
  split.
  { unfold Start. by destruct (Start_from (length (theList w)) 0 w)
      as (_ & _ & _ & _ & _ & _ & B7 & _). }
  split; [done |]. split; [done |].
  intros rounds wf H. apply updateAll_notifications in H as (wl & -> & Hus & Hn).
  rewrite applyUpdate_notifications, Hus, Hn.
  destruct (updated (fs wl)); [left; by rewrite app_nil_r | by right].
Qed.

End Storage.

(** * Worked examples *)

(** The content of the spec's example, cut by the reads in the middle of
    its lines, is counted as two rules. *)
Lemma writeFile_counts_rule_lines_witness :
  RuleCount
    (fst (fst (writeFile zeroFilter
                 (mkReader [take 7 exampleContent; take 20 (drop 7 exampleContent)]
                           (EndEOF (drop 27 exampleContent)))
                 (fun _ => false) []))) = 2.
Proof.
  refine (proj2 (writeFile_counts_rule_lines zeroFilter
                   (mkReader [take 7 exampleContent; take 20 (drop 7 exampleContent)]
                             (EndEOF (drop 27 exampleContent)))
                   (fun _ => false) [] _ _ _) _).
  - vm_compute. reflexivity.
  - vm_compute. reflexivity.
Defined.

(** A last line that no line break ends is counted. *)
Example writeFile_last_line :
  RuleCount (fst (fst (writeFile zeroFilter
                         (mkReader [lit "||a"; [x0a] ++ lit "||b"] (EndEOF []))
                         (fun _ => false) []))) = 2.
Proof. reflexivity. Qed.

(** A download that gets status 500 leaves no file behind. *)
Lemma downloadFilter_staging_witness :
  disk (fst (fst (downloadFilter unixIsAbs unixJoin (fetchStatus "/data/tmp1" 500 77)
                    world0 (newFilter "a" "http://a")))) = disk world0.
Proof.
  refine (proj1 (downloadFilter_staging unixIsAbs unixJoin
                   (fetchStatus "/data/tmp1" 500 77) world0
                   (newFilter "a" "http://a") _ _ (Some (ErrStatusCode 500)) _)).
  vm_compute. reflexivity.
Defined.

(** The byte 0xC3 is outside the set the spec names, and [writeFile]
    accepts a stream that holds it. *)
Lemma spec_printable_set_too_small :
  ~ (forall reader,
       snd (writeFile zeroFilter reader (fun _ => false) []) = Some ErrNonPrintable
       <-> exists c, c ∈ readerData reader /\ spec_printable c = false).
Proof.
  intros H. specialize (H (mkReader [] (EndEOF [xc3; xa9]))).
  assert (Hex : exists c, c ∈ readerData (mkReader [] (EndEOF [xc3; xa9]))
                          /\ spec_printable c = false).
  { exists xc3. split; [by left | reflexivity]. }
  apply H in Hex. vm_compute in Hex. discriminate.
Qed.

(** Status 304 with a stored token. *)
Lemma downloadFilter_http_outcomes_witness :
  let '(w', f', err) :=
    downloadFilter unixIsAbs unixJoin (fetchStatus "/data/tmp1" 304 77) world0
                   (newFilter "a" "http://a") in
  err = None /\ Path f' = "" /\ LastUpdated f' = 77 /\ disk w' = disk world0.
Proof.
  pose proof (downloadFilter_http_outcomes unixIsAbs unixJoin
                (fetchStatus "/data/tmp1" 304 77) world0 (newFilter "a" "http://a")
                "/data/tmp1" _ _ _ eq_refl eq_refl eq_refl eq_refl eq_refl) as (H & _).
  specialize (H _ _ eq_refl). vm_compute. vm_compute in H. tauto.
Defined.

(** Changing the url of the only filter while the new source answers 500:
    the call fails and the registry is what it was. *)
Lemma Modify_rollback_witness :
  theList (fst (Modify unixIsAbs unixJoin 1 2 (fetchStatus "/data/tmp1" 500 77)
                  world1 "http://a" false "A" "http://b")) = theList world1.
Proof.
  refine (proj1 (Modify_rollback unixIsAbs unixJoin 1 2
                   (fetchStatus "/data/tmp1" 500 77) world1
                   "http://a" false "A" "http://b" _ _ _ (ErrStatusCode 500) _)).
  vm_compute. reflexivity.
Defined.

(** Enabling the filter of [world1]: the cache file is reparsed, the rule
    count becomes 1, and the only calls are the lock, the opening and
    closing of the cache file, and the unlock. *)
Lemma Modify_same_url_witness :
  let w' := fst (Modify unixIsAbs unixJoin 1 2 (fetchDown "/data/tmp1" 77)
                   world1 "http://a" true "A" "http://a") in
  RuleCount <$> theList w' = [1]
  /\ trace w' = [EvLock; EvOpen "/data/1001.txt" true; EvClose "/data/1001.txt";
                 EvUnlock].
Proof.
  pose proof (Modify_same_url unixIsAbs unixJoin 1 2 (fetchDown "/data/tmp1" 77)
                world1 "http://a" "A" [] (filterA false) []) as H.
  destruct H as (H & _ & _).
  - reflexivity.
  - intros g Hg. by apply elem_of_nil in Hg.
  - reflexivity.
  - lia.
  - reflexivity.
  - specialize (H eq_refl (mkFile (lit "||a^") 50) eq_refl).
    cbv zeta. rewrite H. vm_compute. done.
Defined.

(** The filter of [world2] is enabled, its descriptor says 7 rules and its
    cache file holds 1: passing [true] again leaves 7 in the descriptor,
    although a reparse of the file gives 1. *)
Lemma Modify_enabled_again_keeps_count :
  let w' := fst (Modify unixIsAbs unixJoin 1 2 (fetchDown "/data/tmp1" 77)
                   world2 "http://a" true "A" "http://a") in
  RuleCount <$> theList w' = [7]
  /\ trace w' = [EvLock; EvUnlock]
  /\ RuleCount (fst (parseFilter (filterA true)
                       (mkReader [] (EndEOF (lit "||a^"))))) = 1.
Proof. vm_compute. done. Qed.


(** With no batch, [applyUpdate] does nothing. *)
Lemma applyUpdate_empty_batch_witness :
  applyUpdate unixJoin 0 1 world3 = world3.
Proof. exact (proj1 (applyUpdate_empty_batch unixJoin 0 1 world3) eq_refl). Defined.

(** The pass over [world3]: after the first round the descriptor that
    could not be reached is due again 10 s after the failure and nothing
    has joined the batch; the pass goes on, and when it ends that
    descriptor still has this [nextUpdate], while the second descriptor has
    been picked in its turn. *)
Lemma updateAll_failed_fetch_witness :
  exists w' wf,
    updateAll unixIsAbs unixJoin 0 1 passRounds world3
    = updateAll unixIsAbs unixJoin 0 1 (tl passRounds) w'
    /\ nextUpdate <$> theList w' = [1012 * Second; zeroTime]
    /\ updated (fs w') = []
    /\ updateAll unixIsAbs unixJoin 0 1 passRounds world3 = Some wf
    /\ (nextUpdate <$> theList wf) !! 0%nat = Some (1012 * Second)
    /\ exists T1, (nextUpdate <$> theList wf) !! 1%nat = Some T1
                  /\ 1010 <= Unix T1.
Proof.
  destruct (updateAll_failed_fetch unixIsAbs unixJoin 0 1
              (mkRound (1000 * Second) (fetchDown "/data/tmp1" (1001 * Second))
                       (1002 * Second))
              world3 _ 0%nat _ _ _ _ _ ErrTransport
              eq_refl eq_refl eq_refl eq_refl)
    as (f0 & w' & Hf0 & _ & _ & Hpass & Hl & Hu & _ & _ & _ & Hend).
  destruct (Hend (tl passRounds)) as (wf & Hres & Hi & Hothers).
  { by vm_compute. }
  { repeat constructor; by vm_compute. }
  { by vm_compute. }
  { vm_compute. lia. }
  destruct (Hothers 1%nat filterB) as (T1 & H1 & Hle1);
    [done | reflexivity | reflexivity |].
  exists w', wf. split; [exact (Hpass (tl passRounds)) |]. rewrite Hl, Hu.
  injection Hf0 as <-.
  split; [reflexivity |]. split; [reflexivity |]. split; [exact Hres |].
  split; [exact Hi |]. exists T1. split; [exact H1 | exact Hle1].
Defined.

(** The whole pass: both filters are tried; the first is due again 10 s
    later, the second after the interval of 24 hours; no observer is
    called. *)
Example updateAll_pass :
  exists w',
    updateAll unixIsAbs unixJoin 0 1 passRounds world3 = Some w'
    /\ nextUpdate <$> theList w' = [1012 * Second; 1003 * Second + 24 * Hour]
    /\ disk w' = disk world3
    /\ notifications (trace w') = []
    /\ trace w' = [EvLock; EvUnlock; EvTempFile "/data/tmp1"; EvGet "http://a" "token";
                   EvClose "/data/tmp1"; EvRemove "/data/tmp1"; EvLock; EvUnlock;
                   EvLock; EvUnlock; EvTempFile "/data/tmp2"; EvGet "http://b" "";
                   EvClose "/data/tmp2"; EvRemove "/data/tmp2";
                   EvLock; EvUnlock].
Proof. eexists. split; [vm_compute; reflexivity |]. vm_compute. done. Qed.

(** C2: after two calls of [Add] and a call of [Modify] that gives the
    second filter the name and the url of the first, the registry holds
    two descriptors with the same name and the same url; their ids differ.
    [Add] refuses such a descriptor, [Modify] does not check. *)
Theorem Modify_duplicates_name_and_url :
  let w1 := fst (Add unixIsAbs unixJoin (fetchOK "/data/tmp1" [lit "||a^"] 100)
                   world0 (newFilter "A" "http://a")) in
  let w2 := fst (Add unixIsAbs unixJoin (fetchOK "/data/tmp2" [lit "||b^"] 200)
                   w1 (newFilter "B" "http://b")) in
  let r := Modify unixIsAbs unixJoin 1 2 (fetchOK "/data/tmp3" [lit "||a^"] 300)
             w2 "http://b" true "A" "http://a" in
  snd (snd r) = None
  /\ (fun f => (Name f, URL f)) <$> theList (fst r)
     = [("A", "http://a"); ("A", "http://a")]
  /\ ID <$> theList (fst r) = [1001; 1003]
  /\ snd (Add unixIsAbs unixJoin (fetchOK "/data/tmp4" [lit "||a^"] 400)
            w2 (newFilter "A" "http://a")) = Some ErrExists.
Proof. vm_compute. done. Qed.

(** ** Worked examples for the further facts *)

Lemma world3_flags : flagsClear world3.
Proof.
  intros g Hg. change (g ∈ [filterA true; filterB]) in Hg.
  apply elem_of_cons in Hg as [-> | Hg]; [reflexivity |].
  apply list_elem_of_singleton in Hg as ->. reflexivity.
Defined.

(** A file written from the content of the spec's example is parsed back
    to the two rules that were counted when it was written. *)
Lemma parseFilter_after_writeFile_witness :
  parseFilter (newFilter "A" "http://a") (mkReader [] (EndEOF exampleContent))
  = (set_RuleCount 2 (newFilter "A" "http://a"), None).
Proof.
  refine (parseFilter_after_writeFile zeroFilter (newFilter "A" "http://a")
            (mkReader [exampleContent] (EndEOF [])) (fun _ => false)
            (set_RuleCount 2 zeroFilter) exampleContent _).
  vm_compute. reflexivity.
Defined.

(** The example content, however it is cut, is accepted exactly because
    it ends, is printable and is not HTML. *)
Lemma writeFile_accepts_iff_witness :
  let reader := mkReader [take 7 exampleContent] (EndEOF (drop 7 exampleContent)) in
  snd (writeFile zeroFilter reader (fun _ => false) []) = None
  <-> (exists d, ending reader = EndEOF d)
      /\ isPrintableText (readerData reader) = true
      /\ isHTML (take 4096 (readerData reader)) = false.
Proof.
  exact (proj1 (writeFile_accepts_iff zeroFilter
                  (mkReader [take 7 exampleContent] (EndEOF (drop 7 exampleContent)))
                  (fun _ => false) [] (fun _ => eq_refl))).
Defined.

(** An error page in capitals is refused as HTML. *)
Lemma writeFile_rejects_html_witness :
  snd (writeFile zeroFilter (mkReader [lit "<!DOCTYPE html>"] (EndEOF []))
         (fun _ => false) []) = Some ErrHTML.
Proof.
  refine (proj2 (writeFile_rejects_html zeroFilter
                   (mkReader [lit "<!DOCTYPE html>"] (EndEOF []))
                   (fun _ => false) [] [] (fun _ => eq_refl) eq_refl _ _));
    vm_compute; reflexivity.
Defined.

(** A second filter named [A] is refused. *)
Lemma Add_refuses_duplicate_witness :
  Add unixIsAbs unixJoin (fetchOK "/data/tmp1" [lit "||c^"] 100) world2
      (newFilter "A" "http://c")
  = (emit [EvUnlock] (emit [EvLock] world2), Some ErrExists).
Proof.
  refine (Add_refuses_duplicate unixIsAbs unixJoin _ world2
            (newFilter "A" "http://c") (filterA true) _ _).
  - apply list_elem_of_singleton. reflexivity.
  - left. reflexivity.
Defined.

(** Names and urls stay distinct when a third filter joins the two of
    [world3]. *)
Lemma Add_Delete_keep_names_urls_distinct_witness :
  NoDup (Name <$> theList (fst (Add unixIsAbs unixJoin
                                  (fetchOK "/data/tmp1" [lit "||c^"] 100) world3
                                  (newFilter "C" "http://c")))).
Proof.
  refine (proj1 (proj1 (Add_Delete_keep_names_urls_distinct unixIsAbs unixJoin
                          (fetchOK "/data/tmp1" [lit "||c^"] 100) world3
                          (newFilter "C" "http://c") "http://a" _ _))).
  - apply (bool_decide_unpack _). vm_compute. exact I.
  - apply (bool_decide_unpack _). vm_compute. exact I.
Defined.

(** A url that the registry does not have. *)
Lemma Modify_not_found_witness :
  Modify unixIsAbs unixJoin 1 2 (fetchOK "/data/tmp1" [lit "||c^"] 100) world2
         "http://c" true "C" "http://c"
  = (emit [EvUnlock] (emit [EvLock] world2), (0, zeroFilter, Some ErrNotFound)).
Proof.
  refine (Modify_not_found unixIsAbs unixJoin 1 2 _ world2 "http://c" true "C"
            "http://c" _).
  intros g Hg. change (g ∈ [filterA true]) in Hg.
  apply list_elem_of_singleton in Hg as ->. intros H. vm_compute in H. discriminate.
Defined.

(** The flags of [world3] stay down through a removal. *)
Lemma registry_flags_stay_clear_witness :
  flagsClear world3
  /\ Forall (fun g => networkError g = false)
            (theList (fst (Delete unixJoin world3 "http://a"))).
Proof.
  split; [exact world3_flags |]. apply Forall_forall.
  exact (proj1 (proj2 (registry_flags_stay_clear unixIsAbs unixJoin 1 2 0 1 world3
                         world3_flags)) "http://a").
Defined.

(** An addition, a change of url and an apply step on the empty registry:
    the ids stay distinct. *)
Lemma ids_stay_distinct_witness :
  NoDup (ID <$> theList
           (foldl (runOp unixIsAbs unixJoin 1 2 0 1) world0
              [OpAdd (fetchOK "/data/tmp1" [lit "||a^"] 100) (newFilter "A" "http://a");
               OpModify (fetchOK "/data/tmp2" [lit "||b^"] 200) "http://a" true "A"
                        "http://b";
               OpApply])).
Proof.
  refine (proj1 (ids_stay_distinct unixIsAbs unixJoin 1 2 0 1 _ world0 _ _ _)).
  - split; [apply NoDup_nil_2 |]. intros g Hg. by apply elem_of_nil in Hg.
  - vm_compute. discriminate.
  - vm_compute. reflexivity.
Defined.

(** The new url answers with status 500: [Modify] fails, the registry is
    what it was and the id 1003 is used up. *)
Lemma Modify_url_change_failure_witness :
  exists w' er,
    Modify unixIsAbs unixJoin 1 2 (fetchStatus "/data/tmp1" 500 77) world2
           "http://a" true "A" "http://b"
    = (w', (0, zeroFilter, Some er))
    /\ theList w' = theList world2 /\ nextID (fs w') = 1003.
Proof.
  destruct (Modify_url_change_failure unixIsAbs unixJoin 1 2
              (fetchStatus "/data/tmp1" 500 77) world2 "http://a" true "A" "http://b")
    as (w' & er & w0 & f0 & H1 & _ & _ & H2 & _ & H3).
  - discriminate.
  - exists (filterA true). split; [apply list_elem_of_singleton |]; reflexivity.
  - discriminate.
  - intros w0 f0 Hu. unfold downloadFilter. cbn [tempName fetchStatus].
    destruct (disk w0 !! "/data/tmp1"); [discriminate |].
    rewrite Hu. cbn. discriminate.
  - exists w', er. split; [exact H1 |]. split; [exact H2 | exact H3].
Defined.

(** The pass over [world3] ends within its three rounds. *)
Lemma updateAll_ends_in_window_witness :
  exists wf,
    updateAll unixIsAbs unixJoin 0 1 passRounds world3 = Some wf
    /\ identity <$> theList wf = identity <$> theList world3.
Proof.
  destruct (updateAll_ends_in_window unixIsAbs unixJoin 0 1 1000 passRounds world3)
    as (wf & H1 & H2 & _).
  - repeat constructor; by vm_compute.
  - by vm_compute.
  - vm_compute. lia.
  - exists wf. split; [exact H1 | exact H2].
Defined.

(** With an interval of 0 hours, two rounds that get status 500 do not
    end the pass over [world3]. *)
Lemma SetConfig_zero_interval_pass_never_ends_witness :
  updateAll unixIsAbs unixJoin 0 1
    [mkRound (1000 * Second) (fetchStatus "/data/tmp1" 500 (1000 * Second))
             (1000 * Second);
     mkRound (1001 * Second) (fetchStatus "/data/tmp2" 500 (1001 * Second))
             (1001 * Second)]
    (SetConfig (mkConf "" 0 []) world3) = None.
Proof.
  refine (proj2 (proj2 (SetConfig_zero_interval_pass_never_ends unixIsAbs unixJoin 0 1
                          (mkConf "" 0 []) world3 _ eq_refl world3_flags _ _ _))).
  - intros r Hr. apply elem_of_cons in Hr as [-> | Hr]; [discriminate |].
    apply list_elem_of_singleton in Hr as ->. discriminate.
  - intros [| [| k]] r r' Hk Hk'; try discriminate.
    injection Hk as <-. injection Hk' as <-. by vm_compute.
  - intros r Hr. injection Hr as <-. exists (filterA true).
    split; [by left | reflexivity].
Defined.

(** After [Refresh] the pass over [world3] ends within three rounds. *)
Lemma Refresh_then_pass_witness :
  exists wf,
    updateAll unixIsAbs unixJoin 0 1 passRounds (Refresh 0 world3) = Some wf
    /\ identity <$> theList wf = identity <$> theList world3.
Proof.
  destruct (Refresh_then_pass unixIsAbs unixJoin 0 1 0 1000 passRounds world3)
    as (wf & H1 & H2 & _).
  - by vm_compute.
  - repeat constructor; by vm_compute.
  - by vm_compute.
  - vm_compute. lia.
  - exists wf. split; [exact H1 | exact H2].
Defined.

